(** * The position fusion and availability engine of the Yandex geoclue provider

    A shallow embedding of [src/plugin/yandexprovider.cpp].

    - C++ [double] is IEEE-754 binary64, modelled by the kernel's primitive
      floats: every operation of the source is one correctly rounded
      operation, evaluated in the order the source writes it.
    - [int], [quint16], [quint32] and [qint64] values are integers of [Z];
      the conversions the source performs are written out with their
      wrap-around.
    - [QMap] and [QSet] are finite maps and sets ([gmap], [gset]).
    - The provider object is a record of its member variables.  A handler is
      a function from the record to the new record and the list of effects
      it produced (signals emitted, data set probes, warnings).
    - A [QBasicTimer] holds the interval it was last started with, or
      nothing when stopped; its firing is an event.
    - What a handler reads from outside the object (the clock, the cells the
      modem reports, the data files, the settings file, the online
      locator's answer) is passed in an environment record. *)

From Stdlib Require Import PrimFloat.
From Stdlib Require Import ZArith Lia String Ascii DecimalString QArith Qabs.
From Stdlib Require FloatAxioms FloatOps SpecFloat Uint63.
From stdpp Require Import gmap strings list fin_maps.

Local Open Scope Z_scope.

#[local] Set Warnings "-clear-no-such-hyp".

Abbreviation double := PrimFloat.float.

(** ** Machine integers *)

(** Conversion to [quint16], as in [quint16 mcc = c->mcc()]. *)
Definition to_quint16 (z : Z) : Z := z mod 65536.

(** Conversion to [quint32], as in [static_cast<quint32>(c->cid())]. *)
Definition to_quint32 (z : Z) : Z := z mod 4294967296.

(** Two's complement reading of the low 32 bits: the value of an [int]
    expression whose mathematical result is [z]. *)
Definition to_int (z : Z) : Z := (z + 2147483648) mod 4294967296 - 2147483648.

Definition UINT_MAX : Z := 4294967295.
Definition INT_MAX : Z := 2147483647.

(** ** Doubles *)

(** [(double) n] for an integer [n]; exact below 2^53 in magnitude. *)
Definition double_of_Z (z : Z) : double :=
  if z <? 0 then (- PrimFloat.of_uint63 (Uint63.of_Z (- z)))%float
  else PrimFloat.of_uint63 (Uint63.of_Z z).

(** [qIsNaN]. *)
Definition qIsNaN (d : double) : bool := PrimFloat.is_nan d.

(** The rational number a finite double denotes (0 for infinities and NaN);
    used only to state how far a computed double is from a rational. *)
Definition Q_of_double (d : double) : Q :=
  match FloatOps.Prim2SF d with
  | SpecFloat.S754_finite s m e =>
      let n := if s then Z.neg m else Z.pos m in
      if 0 <=? e then inject_Z (n * 2 ^ e) else Qmake n (Z.to_pos (2 ^ (- e)))
  | _ => 0%Q
  end.

(** ** Constants of the anonymous namespace (lines 35-52) *)

Definition MinimumCalculatedAccuracy : Z := 2500.
Definition QuitIdleTime : Z := 30000.
Definition FixTimeout : Z := 30000.
Definition MinimumInterval : Z := 10000.
Definition ReuseInterval : Z := 30000.
Definition FallbackInterval : Z := 120000.

(** ** Value types *)

(** Modelled from the spec: the enumeration [MlsdbCellType] is declared in a
    header that is not under src/; spec section 3 gives the three cell types. *)
Inductive MlsdbCellType : Type :=
  | MLSDB_CELL_TYPE_LTE
  | MLSDB_CELL_TYPE_GSM
  | MLSDB_CELL_TYPE_UMTS.

(** Modelled from the spec: the class [MlsdbUniqueCellId] is declared in a
    header that is not under src/; spec section 3: five fields, equality over
    all five.  The field order is that of the constructor call at line 405. *)
Record MlsdbUniqueCellId : Type := mkUniqueCellId {
  cellType : MlsdbCellType;
  cellId : Z;
  locationCode : Z;
  mcc : Z;
  mnc : Z
}.

(** Modelled from the spec: [MlsdbCoords] is declared in a header that is not
    under src/; the source reads its members [lat] and [lon]. *)
Record MlsdbCoords : Type := mkCoords {
  lat : double;
  lon : double
}.

(** Modelled from the spec: [CellPositioningData] is declared in the class
    header, not under src/; spec section 3: an identity and an unsigned
    32-bit signal strength. *)
Record CellPositioningData : Type := mkCell {
  uniqueCellId : MlsdbUniqueCellId;
  signalStrength : Z
}.

(** Modelled from the spec: [Accuracy] is declared in a header that is not
    under src/; spec sections 3 and 4.2: two doubles, absent is NaN. *)
Record Accuracy : Type := mkAccuracy {
  horizontal : double;
  vertical : double
}.

Definition Accuracy_default : Accuracy :=
  {| horizontal := PrimFloat.nan; vertical := PrimFloat.nan |}.

(** Modelled from the spec: [Location] is declared in a header that is not
    under src/; spec section 3: timestamp 0 is the invalid fix, absent
    coordinates are NaN. *)
Record Location : Type := mkLocation {
  timestamp : Z;
  latitude : double;
  longitude : double;
  altitude : double;
  accuracy : Accuracy
}.

Definition Location_default : Location :=
  {| timestamp := 0; latitude := PrimFloat.nan; longitude := PrimFloat.nan;
     altitude := PrimFloat.nan; accuracy := Accuracy_default |}.

(** Modelled from the spec: the enumeration [Status] is declared in the class
    header, not under src/; spec section 3 gives the three values used. *)
Inductive Status : Type :=
  | StatusUnavailable
  | StatusAcquiring
  | StatusAvailable.

(** Modelled from the spec: [ServiceData] is declared in the class header, not
    under src/; spec section 3: a reference count and a requested interval,
    both 0 in a fresh entry.  The source compares [referenceCount <= 0], so
    the count is a signed [int]; [updateInterval] is a [quint32]. *)
Record ServiceData : Type := mkServiceData {
  referenceCount : Z;
  updateInterval : Z
}.

Definition ServiceData_default : ServiceData :=
  {| referenceCount := 0; updateInterval := 0 |}.

#[global] Instance MlsdbCellType_eq_dec : EqDecision MlsdbCellType.
Proof. solve_decision. Defined.

#[global] Instance MlsdbUniqueCellId_eq_dec : EqDecision MlsdbUniqueCellId.
Proof. solve_decision. Defined.

#[global] Instance Status_eq_dec : EqDecision Status.
Proof. solve_decision. Defined.

Definition cellType_code (t : MlsdbCellType) : nat :=
  match t with
  | MLSDB_CELL_TYPE_LTE => 0
  | MLSDB_CELL_TYPE_GSM => 1
  | MLSDB_CELL_TYPE_UMTS => 2
  end%nat.

Definition cellType_of_code (n : nat) : MlsdbCellType :=
  match n with
  | O => MLSDB_CELL_TYPE_LTE
  | S O => MLSDB_CELL_TYPE_GSM
  | _ => MLSDB_CELL_TYPE_UMTS
  end.

Definition id_fields (i : MlsdbUniqueCellId) : nat * Z * Z * Z * Z :=
  (cellType_code (cellType i), cellId i, locationCode i, mcc i, mnc i).

Definition id_of_fields (t : nat * Z * Z * Z * Z) : MlsdbUniqueCellId :=
  let '(ty, c, l, m, n) := t in mkUniqueCellId (cellType_of_code ty) c l m n.

Lemma id_of_fields_id_fields (i : MlsdbUniqueCellId) :
  id_of_fields (id_fields i) = i.
Proof. destruct i as [[] c l m n]; reflexivity. Qed.

#[global] Instance MlsdbUniqueCellId_countable : Countable MlsdbUniqueCellId :=
  inj_countable' id_fields id_of_fields id_of_fields_id_fields.

(** ** The cells the modem reports (the radio source, outside the object) *)

(** [QOfonoExtCell::Type]; any value other than the three named ones is
    [CellOther]. *)
Inductive OfonoCellType : Type :=
  | CellGSM
  | CellWCDMA
  | CellLTE
  | CellOther.

(** The properties of a [QOfonoExtCell] the source reads, each a C [int]. *)
Record QOfonoExtCell : Type := mkOfonoCell {
  cell_type : OfonoCellType;
  cell_mcc : Z;
  cell_mnc : Z;
  cell_cid : Z;
  cell_lac : Z;
  cell_ci : Z;
  cell_tac : Z;
  cell_signalStrength : Z
}.

(** [QOfonoExtCell::InvalidValue] is [INT_MAX]. *)
Definition InvalidValue : Z := INT_MAX.

(** The nested conditional of lines 386-392. *)
Definition cellType_of (c : QOfonoExtCell) : MlsdbCellType :=
  match cell_type c with
  | CellLTE => MLSDB_CELL_TYPE_LTE
  | CellGSM => MLSDB_CELL_TYPE_GSM
  | CellWCDMA => MLSDB_CELL_TYPE_UMTS
  | CellOther => MLSDB_CELL_TYPE_UMTS
  end.

(** Lines 384-405: the identity of a reported cell, or [None] where the
    source takes the [continue] of line 403. *)
Definition cell_identity (c : QOfonoExtCell) : option MlsdbUniqueCellId :=
  let mcc := to_quint16 (cell_mcc c) in
  let mnc := to_quint16 (cell_mnc c) in
  if bool_decide (cell_cid c ≠ InvalidValue) && bool_decide (cell_cid c ≠ 0)
     && bool_decide (mcc ≠ 0)
  then Some (mkUniqueCellId (cellType_of c) (to_quint32 (cell_cid c))
               (to_quint32 (cell_lac c)) mcc mnc)
  else if bool_decide (cell_ci c ≠ InvalidValue) && bool_decide (cell_ci c ≠ 0)
          && bool_decide (mcc ≠ 0)
  then Some (mkUniqueCellId (cellType_of c) (to_quint32 (cell_ci c))
               (to_quint32 (cell_tac c)) mcc mnc)
  else None.

(** The local variables of the loop of [seenCellIds] (lines 372-379). *)
Record SeenLoop : Type := mkSeenLoop {
  loop_cells : list CellPositioningData;
  loop_maxNeighborSignalStrength : Z;
  loop_seenCellIds : gset MlsdbUniqueCellId
}.

(** One iteration of the loop of lines 380-420. *)
Definition seenCellIds_step (acc : SeenLoop) (c : QOfonoExtCell) : SeenLoop :=
  match cell_identity c with
  | None => acc
  | Some id =>
      if bool_decide (id ∈ loop_seenCellIds acc) then acc
      else
        let strength := to_quint32 (cell_signalStrength c) in
        {| loop_cells := loop_cells acc ++ [mkCell id strength];
           loop_maxNeighborSignalStrength :=
             if loop_maxNeighborSignalStrength acc <? strength then strength
             else loop_maxNeighborSignalStrength acc;
           loop_seenCellIds := {[ id ]} ∪ loop_seenCellIds acc |}
  end.

(** [YandexProvider::seenCellIds] (lines 370-422), given the member
    [m_cellDataAllowed] and the list [m_cellWatcher->cells()]. *)
Definition seenCellIds (cellDataAllowed : bool) (watched : list QOfonoExtCell)
  : list CellPositioningData :=
  if negb cellDataAllowed then []
  else loop_cells (fold_left seenCellIds_step watched (mkSeenLoop [] 1 ∅)).

(** ** The offline data set (files under /usr/share/geoclue-provider-mlsdb) *)

(** What [searchForCellIdLocation] reads of one directory entry: its path,
    and the magic number, version and map a [QDataStream] yields from it. *)
Record DataFile : Type := mkDataFile {
  fname : string;
  file_magic : Z;
  file_version : Z;
  perLcCellIdToLocations : gmap MlsdbUniqueCellId MlsdbCoords
}.

Definition lower_ascii (a : ascii) : ascii :=
  let n := nat_of_ascii a in
  if (65 <=? n)%nat && (n <=? 90)%nat then ascii_of_nat (n + 32) else a.

Fixpoint lower_string (s : string) : string :=
  match s with
  | EmptyString => EmptyString
  | String a r => String (lower_ascii a) (lower_string r)
  end.

(** [s.endsWith(suffix, Qt::CaseInsensitive)] on ASCII text. *)
Definition endsWith_ci (s suffix : string) : bool :=
  let s' := lower_string s in
  let x' := lower_string suffix in
  (String.length x' <=? String.length s')%nat
  && String.eqb (String.substring (String.length s' - String.length x')
                   (String.length x') s') x'.

(** [QString::number(n).at(0)] for an unsigned [n]. *)
Definition firstDigit (n : Z) : ascii :=
  match NilZero.string_of_uint (N.to_uint (Z.to_N n)) with
  | String a _ => a
  | EmptyString => "0"%char
  end.

(** The suffix built at line 146. *)
Definition bucket_suffix (d : ascii) : string :=
  ("/" ++ String d "/mlsdb.data")%string.

(** [YandexProvider::searchForCellIdLocation] (lines 138-182): the directory
    entries are visited in order; [Some coords] is the source's [true] with
    [*coords] assigned, [None] its [false]. *)
Fixpoint searchForCellIdLocation (files : list DataFile)
    (uniqueCellId : MlsdbUniqueCellId) : option MlsdbCoords :=
  match files with
  | [] => None
  | f :: rest =>
      if endsWith_ci (fname f) (bucket_suffix (firstDigit (locationCode uniqueCellId)))
      then
        if bool_decide (file_magic f ≠ 0xc710cdb) then
          searchForCellIdLocation rest uniqueCellId
        else if bool_decide (file_version f ≠ 3) then
          searchForCellIdLocation rest uniqueCellId
        else
          match perLcCellIdToLocations f !! uniqueCellId with
          | Some coords => Some coords
          | None => searchForCellIdLocation rest uniqueCellId
          end
      else searchForCellIdLocation rest uniqueCellId
  end.

(** ** The provider object *)

(** The member variables of [YandexProvider].  A [QBasicTimer] is [None]
    before any call and after [stop()], and [Some msec] after
    [start(msec, this)], [msec] being the [int] the call is given.  The online
    locator is [None] for the null pointer and [Some w] once created, [w]
    being the value last passed to its [setWlanDataAllowed].  [m_cellWatcher]
    is [true] when the pointer is not null.  [m_watcher] is the list of
    service names the [QDBusServiceWatcher] watches.  A location query of the
    online locator is an opaque number. *)
Record YandexProvider : Type := mkProvider {
  m_positioningEnabled : bool;
  m_cellDataAllowed : bool;
  m_positioningStarted : bool;
  m_status : Status;
  m_mlsdbOnlineLocator : option bool;
  m_onlinePositioningEnabled : bool;
  m_onlineDataAllowed : bool;
  m_wlanDataAllowed : bool;
  m_cellWatcher : bool;
  m_signalUpdateCell : bool;
  m_signalUpdateWlan : bool;
  m_watchedServices : gmap string ServiceData;
  m_watcher : list string;
  m_idleTimer : option Z;
  m_fixLostTimer : option Z;
  m_recalculatePositionTimer : option Z;
  m_currentLocation : Location;
  m_lastLocation : Location;
  m_uniqueCellIdToLocation : gmap MlsdbUniqueCellId MlsdbCoords;
  m_knownCellIdsWithUnknownLocations : gset MlsdbUniqueCellId;
  m_previousQuery : Z
}.

Definition set_m_positioningEnabled (v : bool) (p : YandexProvider) : YandexProvider :=
  {| m_positioningEnabled := v; m_cellDataAllowed := m_cellDataAllowed p;
     m_positioningStarted := m_positioningStarted p; m_status := m_status p;
     m_mlsdbOnlineLocator := m_mlsdbOnlineLocator p;
     m_onlinePositioningEnabled := m_onlinePositioningEnabled p;
     m_onlineDataAllowed := m_onlineDataAllowed p;
     m_wlanDataAllowed := m_wlanDataAllowed p;
     m_cellWatcher := m_cellWatcher p;
     m_signalUpdateCell := m_signalUpdateCell p;
     m_signalUpdateWlan := m_signalUpdateWlan p;
     m_watchedServices := m_watchedServices p; m_watcher := m_watcher p;
     m_idleTimer := m_idleTimer p; m_fixLostTimer := m_fixLostTimer p;
     m_recalculatePositionTimer := m_recalculatePositionTimer p;
     m_currentLocation := m_currentLocation p;
     m_lastLocation := m_lastLocation p;
     m_uniqueCellIdToLocation := m_uniqueCellIdToLocation p;
     m_knownCellIdsWithUnknownLocations := m_knownCellIdsWithUnknownLocations p;
     m_previousQuery := m_previousQuery p |}.

Definition set_m_cellDataAllowed (v : bool) (p : YandexProvider) : YandexProvider :=
  {| m_positioningEnabled := m_positioningEnabled p; m_cellDataAllowed := v;
     m_positioningStarted := m_positioningStarted p; m_status := m_status p;
     m_mlsdbOnlineLocator := m_mlsdbOnlineLocator p;
     m_onlinePositioningEnabled := m_onlinePositioningEnabled p;
     m_onlineDataAllowed := m_onlineDataAllowed p;
     m_wlanDataAllowed := m_wlanDataAllowed p;
     m_cellWatcher := m_cellWatcher p;
     m_signalUpdateCell := m_signalUpdateCell p;
     m_signalUpdateWlan := m_signalUpdateWlan p;
     m_watchedServices := m_watchedServices p; m_watcher := m_watcher p;
     m_idleTimer := m_idleTimer p; m_fixLostTimer := m_fixLostTimer p;
     m_recalculatePositionTimer := m_recalculatePositionTimer p;
     m_currentLocation := m_currentLocation p;
     m_lastLocation := m_lastLocation p;
     m_uniqueCellIdToLocation := m_uniqueCellIdToLocation p;
     m_knownCellIdsWithUnknownLocations := m_knownCellIdsWithUnknownLocations p;
     m_previousQuery := m_previousQuery p |}.

Definition set_m_positioningStarted (v : bool) (p : YandexProvider) : YandexProvider :=
  {| m_positioningEnabled := m_positioningEnabled p;
     m_cellDataAllowed := m_cellDataAllowed p; m_positioningStarted := v;
     m_status := m_status p; m_mlsdbOnlineLocator := m_mlsdbOnlineLocator p;
     m_onlinePositioningEnabled := m_onlinePositioningEnabled p;
     m_onlineDataAllowed := m_onlineDataAllowed p;
     m_wlanDataAllowed := m_wlanDataAllowed p;
     m_cellWatcher := m_cellWatcher p;
     m_signalUpdateCell := m_signalUpdateCell p;
     m_signalUpdateWlan := m_signalUpdateWlan p;
     m_watchedServices := m_watchedServices p; m_watcher := m_watcher p;
     m_idleTimer := m_idleTimer p; m_fixLostTimer := m_fixLostTimer p;
     m_recalculatePositionTimer := m_recalculatePositionTimer p;
     m_currentLocation := m_currentLocation p;
     m_lastLocation := m_lastLocation p;
     m_uniqueCellIdToLocation := m_uniqueCellIdToLocation p;
     m_knownCellIdsWithUnknownLocations := m_knownCellIdsWithUnknownLocations p;
     m_previousQuery := m_previousQuery p |}.

Definition set_m_status (v : Status) (p : YandexProvider) : YandexProvider :=
  {| m_positioningEnabled := m_positioningEnabled p;
     m_cellDataAllowed := m_cellDataAllowed p;
     m_positioningStarted := m_positioningStarted p; m_status := v;
     m_mlsdbOnlineLocator := m_mlsdbOnlineLocator p;
     m_onlinePositioningEnabled := m_onlinePositioningEnabled p;
     m_onlineDataAllowed := m_onlineDataAllowed p;
     m_wlanDataAllowed := m_wlanDataAllowed p;
     m_cellWatcher := m_cellWatcher p;
     m_signalUpdateCell := m_signalUpdateCell p;
     m_signalUpdateWlan := m_signalUpdateWlan p;
     m_watchedServices := m_watchedServices p; m_watcher := m_watcher p;
     m_idleTimer := m_idleTimer p; m_fixLostTimer := m_fixLostTimer p;
     m_recalculatePositionTimer := m_recalculatePositionTimer p;
     m_currentLocation := m_currentLocation p;
     m_lastLocation := m_lastLocation p;
     m_uniqueCellIdToLocation := m_uniqueCellIdToLocation p;
     m_knownCellIdsWithUnknownLocations := m_knownCellIdsWithUnknownLocations p;
     m_previousQuery := m_previousQuery p |}.

Definition set_m_mlsdbOnlineLocator (v : option bool) (p : YandexProvider) : YandexProvider :=
  {| m_positioningEnabled := m_positioningEnabled p;
     m_cellDataAllowed := m_cellDataAllowed p;
     m_positioningStarted := m_positioningStarted p; m_status := m_status p;
     m_mlsdbOnlineLocator := v;
     m_onlinePositioningEnabled := m_onlinePositioningEnabled p;
     m_onlineDataAllowed := m_onlineDataAllowed p;
     m_wlanDataAllowed := m_wlanDataAllowed p;
     m_cellWatcher := m_cellWatcher p;
     m_signalUpdateCell := m_signalUpdateCell p;
     m_signalUpdateWlan := m_signalUpdateWlan p;
     m_watchedServices := m_watchedServices p; m_watcher := m_watcher p;
     m_idleTimer := m_idleTimer p; m_fixLostTimer := m_fixLostTimer p;
     m_recalculatePositionTimer := m_recalculatePositionTimer p;
     m_currentLocation := m_currentLocation p;
     m_lastLocation := m_lastLocation p;
     m_uniqueCellIdToLocation := m_uniqueCellIdToLocation p;
     m_knownCellIdsWithUnknownLocations := m_knownCellIdsWithUnknownLocations p;
     m_previousQuery := m_previousQuery p |}.

Definition set_m_onlinePositioningEnabled (v : bool) (p : YandexProvider) : YandexProvider :=
  {| m_positioningEnabled := m_positioningEnabled p;
     m_cellDataAllowed := m_cellDataAllowed p;
     m_positioningStarted := m_positioningStarted p; m_status := m_status p;
     m_mlsdbOnlineLocator := m_mlsdbOnlineLocator p;
     m_onlinePositioningEnabled := v;
     m_onlineDataAllowed := m_onlineDataAllowed p;
     m_wlanDataAllowed := m_wlanDataAllowed p;
     m_cellWatcher := m_cellWatcher p;
     m_signalUpdateCell := m_signalUpdateCell p;
     m_signalUpdateWlan := m_signalUpdateWlan p;
     m_watchedServices := m_watchedServices p; m_watcher := m_watcher p;
     m_idleTimer := m_idleTimer p; m_fixLostTimer := m_fixLostTimer p;
     m_recalculatePositionTimer := m_recalculatePositionTimer p;
     m_currentLocation := m_currentLocation p;
     m_lastLocation := m_lastLocation p;
     m_uniqueCellIdToLocation := m_uniqueCellIdToLocation p;
     m_knownCellIdsWithUnknownLocations := m_knownCellIdsWithUnknownLocations p;
     m_previousQuery := m_previousQuery p |}.

Definition set_m_onlineDataAllowed (v : bool) (p : YandexProvider) : YandexProvider :=
  {| m_positioningEnabled := m_positioningEnabled p;
     m_cellDataAllowed := m_cellDataAllowed p;
     m_positioningStarted := m_positioningStarted p; m_status := m_status p;
     m_mlsdbOnlineLocator := m_mlsdbOnlineLocator p;
     m_onlinePositioningEnabled := m_onlinePositioningEnabled p;
     m_onlineDataAllowed := v; m_wlanDataAllowed := m_wlanDataAllowed p;
     m_cellWatcher := m_cellWatcher p;
     m_signalUpdateCell := m_signalUpdateCell p;
     m_signalUpdateWlan := m_signalUpdateWlan p;
     m_watchedServices := m_watchedServices p; m_watcher := m_watcher p;
     m_idleTimer := m_idleTimer p; m_fixLostTimer := m_fixLostTimer p;
     m_recalculatePositionTimer := m_recalculatePositionTimer p;
     m_currentLocation := m_currentLocation p;
     m_lastLocation := m_lastLocation p;
     m_uniqueCellIdToLocation := m_uniqueCellIdToLocation p;
     m_knownCellIdsWithUnknownLocations := m_knownCellIdsWithUnknownLocations p;
     m_previousQuery := m_previousQuery p |}.

Definition set_m_wlanDataAllowed (v : bool) (p : YandexProvider) : YandexProvider :=
  {| m_positioningEnabled := m_positioningEnabled p;
     m_cellDataAllowed := m_cellDataAllowed p;
     m_positioningStarted := m_positioningStarted p; m_status := m_status p;
     m_mlsdbOnlineLocator := m_mlsdbOnlineLocator p;
     m_onlinePositioningEnabled := m_onlinePositioningEnabled p;
     m_onlineDataAllowed := m_onlineDataAllowed p; m_wlanDataAllowed := v;
     m_cellWatcher := m_cellWatcher p;
     m_signalUpdateCell := m_signalUpdateCell p;
     m_signalUpdateWlan := m_signalUpdateWlan p;
     m_watchedServices := m_watchedServices p; m_watcher := m_watcher p;
     m_idleTimer := m_idleTimer p; m_fixLostTimer := m_fixLostTimer p;
     m_recalculatePositionTimer := m_recalculatePositionTimer p;
     m_currentLocation := m_currentLocation p;
     m_lastLocation := m_lastLocation p;
     m_uniqueCellIdToLocation := m_uniqueCellIdToLocation p;
     m_knownCellIdsWithUnknownLocations := m_knownCellIdsWithUnknownLocations p;
     m_previousQuery := m_previousQuery p |}.

Definition set_m_cellWatcher (v : bool) (p : YandexProvider) : YandexProvider :=
  {| m_positioningEnabled := m_positioningEnabled p;
     m_cellDataAllowed := m_cellDataAllowed p;
     m_positioningStarted := m_positioningStarted p; m_status := m_status p;
     m_mlsdbOnlineLocator := m_mlsdbOnlineLocator p;
     m_onlinePositioningEnabled := m_onlinePositioningEnabled p;
     m_onlineDataAllowed := m_onlineDataAllowed p;
     m_wlanDataAllowed := m_wlanDataAllowed p; m_cellWatcher := v;
     m_signalUpdateCell := m_signalUpdateCell p;
     m_signalUpdateWlan := m_signalUpdateWlan p;
     m_watchedServices := m_watchedServices p; m_watcher := m_watcher p;
     m_idleTimer := m_idleTimer p; m_fixLostTimer := m_fixLostTimer p;
     m_recalculatePositionTimer := m_recalculatePositionTimer p;
     m_currentLocation := m_currentLocation p;
     m_lastLocation := m_lastLocation p;
     m_uniqueCellIdToLocation := m_uniqueCellIdToLocation p;
     m_knownCellIdsWithUnknownLocations := m_knownCellIdsWithUnknownLocations p;
     m_previousQuery := m_previousQuery p |}.

Definition set_m_signalUpdateCell (v : bool) (p : YandexProvider) : YandexProvider :=
  {| m_positioningEnabled := m_positioningEnabled p;
     m_cellDataAllowed := m_cellDataAllowed p;
     m_positioningStarted := m_positioningStarted p; m_status := m_status p;
     m_mlsdbOnlineLocator := m_mlsdbOnlineLocator p;
     m_onlinePositioningEnabled := m_onlinePositioningEnabled p;
     m_onlineDataAllowed := m_onlineDataAllowed p;
     m_wlanDataAllowed := m_wlanDataAllowed p;
     m_cellWatcher := m_cellWatcher p; m_signalUpdateCell := v;
     m_signalUpdateWlan := m_signalUpdateWlan p;
     m_watchedServices := m_watchedServices p; m_watcher := m_watcher p;
     m_idleTimer := m_idleTimer p; m_fixLostTimer := m_fixLostTimer p;
     m_recalculatePositionTimer := m_recalculatePositionTimer p;
     m_currentLocation := m_currentLocation p;
     m_lastLocation := m_lastLocation p;
     m_uniqueCellIdToLocation := m_uniqueCellIdToLocation p;
     m_knownCellIdsWithUnknownLocations := m_knownCellIdsWithUnknownLocations p;
     m_previousQuery := m_previousQuery p |}.

Definition set_m_signalUpdateWlan (v : bool) (p : YandexProvider) : YandexProvider :=
  {| m_positioningEnabled := m_positioningEnabled p;
     m_cellDataAllowed := m_cellDataAllowed p;
     m_positioningStarted := m_positioningStarted p; m_status := m_status p;
     m_mlsdbOnlineLocator := m_mlsdbOnlineLocator p;
     m_onlinePositioningEnabled := m_onlinePositioningEnabled p;
     m_onlineDataAllowed := m_onlineDataAllowed p;
     m_wlanDataAllowed := m_wlanDataAllowed p;
     m_cellWatcher := m_cellWatcher p;
     m_signalUpdateCell := m_signalUpdateCell p; m_signalUpdateWlan := v;
     m_watchedServices := m_watchedServices p; m_watcher := m_watcher p;
     m_idleTimer := m_idleTimer p; m_fixLostTimer := m_fixLostTimer p;
     m_recalculatePositionTimer := m_recalculatePositionTimer p;
     m_currentLocation := m_currentLocation p;
     m_lastLocation := m_lastLocation p;
     m_uniqueCellIdToLocation := m_uniqueCellIdToLocation p;
     m_knownCellIdsWithUnknownLocations := m_knownCellIdsWithUnknownLocations p;
     m_previousQuery := m_previousQuery p |}.

Definition set_m_watchedServices (v : gmap string ServiceData) (p : YandexProvider) : YandexProvider :=
  {| m_positioningEnabled := m_positioningEnabled p;
     m_cellDataAllowed := m_cellDataAllowed p;
     m_positioningStarted := m_positioningStarted p; m_status := m_status p;
     m_mlsdbOnlineLocator := m_mlsdbOnlineLocator p;
     m_onlinePositioningEnabled := m_onlinePositioningEnabled p;
     m_onlineDataAllowed := m_onlineDataAllowed p;
     m_wlanDataAllowed := m_wlanDataAllowed p;
     m_cellWatcher := m_cellWatcher p;
     m_signalUpdateCell := m_signalUpdateCell p;
     m_signalUpdateWlan := m_signalUpdateWlan p; m_watchedServices := v;
     m_watcher := m_watcher p; m_idleTimer := m_idleTimer p;
     m_fixLostTimer := m_fixLostTimer p;
     m_recalculatePositionTimer := m_recalculatePositionTimer p;
     m_currentLocation := m_currentLocation p;
     m_lastLocation := m_lastLocation p;
     m_uniqueCellIdToLocation := m_uniqueCellIdToLocation p;
     m_knownCellIdsWithUnknownLocations := m_knownCellIdsWithUnknownLocations p;
     m_previousQuery := m_previousQuery p |}.

Definition set_m_watcher (v : list string) (p : YandexProvider) : YandexProvider :=
  {| m_positioningEnabled := m_positioningEnabled p;
     m_cellDataAllowed := m_cellDataAllowed p;
     m_positioningStarted := m_positioningStarted p; m_status := m_status p;
     m_mlsdbOnlineLocator := m_mlsdbOnlineLocator p;
     m_onlinePositioningEnabled := m_onlinePositioningEnabled p;
     m_onlineDataAllowed := m_onlineDataAllowed p;
     m_wlanDataAllowed := m_wlanDataAllowed p;
     m_cellWatcher := m_cellWatcher p;
     m_signalUpdateCell := m_signalUpdateCell p;
     m_signalUpdateWlan := m_signalUpdateWlan p;
     m_watchedServices := m_watchedServices p; m_watcher := v;
     m_idleTimer := m_idleTimer p; m_fixLostTimer := m_fixLostTimer p;
     m_recalculatePositionTimer := m_recalculatePositionTimer p;
     m_currentLocation := m_currentLocation p;
     m_lastLocation := m_lastLocation p;
     m_uniqueCellIdToLocation := m_uniqueCellIdToLocation p;
     m_knownCellIdsWithUnknownLocations := m_knownCellIdsWithUnknownLocations p;
     m_previousQuery := m_previousQuery p |}.

Definition set_m_idleTimer (v : option Z) (p : YandexProvider) : YandexProvider :=
  {| m_positioningEnabled := m_positioningEnabled p;
     m_cellDataAllowed := m_cellDataAllowed p;
     m_positioningStarted := m_positioningStarted p; m_status := m_status p;
     m_mlsdbOnlineLocator := m_mlsdbOnlineLocator p;
     m_onlinePositioningEnabled := m_onlinePositioningEnabled p;
     m_onlineDataAllowed := m_onlineDataAllowed p;
     m_wlanDataAllowed := m_wlanDataAllowed p;
     m_cellWatcher := m_cellWatcher p;
     m_signalUpdateCell := m_signalUpdateCell p;
     m_signalUpdateWlan := m_signalUpdateWlan p;
     m_watchedServices := m_watchedServices p; m_watcher := m_watcher p;
     m_idleTimer := v; m_fixLostTimer := m_fixLostTimer p;
     m_recalculatePositionTimer := m_recalculatePositionTimer p;
     m_currentLocation := m_currentLocation p;
     m_lastLocation := m_lastLocation p;
     m_uniqueCellIdToLocation := m_uniqueCellIdToLocation p;
     m_knownCellIdsWithUnknownLocations := m_knownCellIdsWithUnknownLocations p;
     m_previousQuery := m_previousQuery p |}.

Definition set_m_fixLostTimer (v : option Z) (p : YandexProvider) : YandexProvider :=
  {| m_positioningEnabled := m_positioningEnabled p;
     m_cellDataAllowed := m_cellDataAllowed p;
     m_positioningStarted := m_positioningStarted p; m_status := m_status p;
     m_mlsdbOnlineLocator := m_mlsdbOnlineLocator p;
     m_onlinePositioningEnabled := m_onlinePositioningEnabled p;
     m_onlineDataAllowed := m_onlineDataAllowed p;
     m_wlanDataAllowed := m_wlanDataAllowed p;
     m_cellWatcher := m_cellWatcher p;
     m_signalUpdateCell := m_signalUpdateCell p;
     m_signalUpdateWlan := m_signalUpdateWlan p;
     m_watchedServices := m_watchedServices p; m_watcher := m_watcher p;
     m_idleTimer := m_idleTimer p; m_fixLostTimer := v;
     m_recalculatePositionTimer := m_recalculatePositionTimer p;
     m_currentLocation := m_currentLocation p;
     m_lastLocation := m_lastLocation p;
     m_uniqueCellIdToLocation := m_uniqueCellIdToLocation p;
     m_knownCellIdsWithUnknownLocations := m_knownCellIdsWithUnknownLocations p;
     m_previousQuery := m_previousQuery p |}.

Definition set_m_recalculatePositionTimer (v : option Z) (p : YandexProvider) : YandexProvider :=
  {| m_positioningEnabled := m_positioningEnabled p;
     m_cellDataAllowed := m_cellDataAllowed p;
     m_positioningStarted := m_positioningStarted p; m_status := m_status p;
     m_mlsdbOnlineLocator := m_mlsdbOnlineLocator p;
     m_onlinePositioningEnabled := m_onlinePositioningEnabled p;
     m_onlineDataAllowed := m_onlineDataAllowed p;
     m_wlanDataAllowed := m_wlanDataAllowed p;
     m_cellWatcher := m_cellWatcher p;
     m_signalUpdateCell := m_signalUpdateCell p;
     m_signalUpdateWlan := m_signalUpdateWlan p;
     m_watchedServices := m_watchedServices p; m_watcher := m_watcher p;
     m_idleTimer := m_idleTimer p; m_fixLostTimer := m_fixLostTimer p;
     m_recalculatePositionTimer := v;
     m_currentLocation := m_currentLocation p;
     m_lastLocation := m_lastLocation p;
     m_uniqueCellIdToLocation := m_uniqueCellIdToLocation p;
     m_knownCellIdsWithUnknownLocations := m_knownCellIdsWithUnknownLocations p;
     m_previousQuery := m_previousQuery p |}.

Definition set_m_currentLocation (v : Location) (p : YandexProvider) : YandexProvider :=
  {| m_positioningEnabled := m_positioningEnabled p;
     m_cellDataAllowed := m_cellDataAllowed p;
     m_positioningStarted := m_positioningStarted p; m_status := m_status p;
     m_mlsdbOnlineLocator := m_mlsdbOnlineLocator p;
     m_onlinePositioningEnabled := m_onlinePositioningEnabled p;
     m_onlineDataAllowed := m_onlineDataAllowed p;
     m_wlanDataAllowed := m_wlanDataAllowed p;
     m_cellWatcher := m_cellWatcher p;
     m_signalUpdateCell := m_signalUpdateCell p;
     m_signalUpdateWlan := m_signalUpdateWlan p;
     m_watchedServices := m_watchedServices p; m_watcher := m_watcher p;
     m_idleTimer := m_idleTimer p; m_fixLostTimer := m_fixLostTimer p;
     m_recalculatePositionTimer := m_recalculatePositionTimer p;
     m_currentLocation := v; m_lastLocation := m_lastLocation p;
     m_uniqueCellIdToLocation := m_uniqueCellIdToLocation p;
     m_knownCellIdsWithUnknownLocations := m_knownCellIdsWithUnknownLocations p;
     m_previousQuery := m_previousQuery p |}.

Definition set_m_lastLocation (v : Location) (p : YandexProvider) : YandexProvider :=
  {| m_positioningEnabled := m_positioningEnabled p;
     m_cellDataAllowed := m_cellDataAllowed p;
     m_positioningStarted := m_positioningStarted p; m_status := m_status p;
     m_mlsdbOnlineLocator := m_mlsdbOnlineLocator p;
     m_onlinePositioningEnabled := m_onlinePositioningEnabled p;
     m_onlineDataAllowed := m_onlineDataAllowed p;
     m_wlanDataAllowed := m_wlanDataAllowed p;
     m_cellWatcher := m_cellWatcher p;
     m_signalUpdateCell := m_signalUpdateCell p;
     m_signalUpdateWlan := m_signalUpdateWlan p;
     m_watchedServices := m_watchedServices p; m_watcher := m_watcher p;
     m_idleTimer := m_idleTimer p; m_fixLostTimer := m_fixLostTimer p;
     m_recalculatePositionTimer := m_recalculatePositionTimer p;
     m_currentLocation := m_currentLocation p; m_lastLocation := v;
     m_uniqueCellIdToLocation := m_uniqueCellIdToLocation p;
     m_knownCellIdsWithUnknownLocations := m_knownCellIdsWithUnknownLocations p;
     m_previousQuery := m_previousQuery p |}.

Definition set_m_uniqueCellIdToLocation (v : gmap MlsdbUniqueCellId MlsdbCoords) (p : YandexProvider) : YandexProvider :=
  {| m_positioningEnabled := m_positioningEnabled p;
     m_cellDataAllowed := m_cellDataAllowed p;
     m_positioningStarted := m_positioningStarted p; m_status := m_status p;
     m_mlsdbOnlineLocator := m_mlsdbOnlineLocator p;
     m_onlinePositioningEnabled := m_onlinePositioningEnabled p;
     m_onlineDataAllowed := m_onlineDataAllowed p;
     m_wlanDataAllowed := m_wlanDataAllowed p;
     m_cellWatcher := m_cellWatcher p;
     m_signalUpdateCell := m_signalUpdateCell p;
     m_signalUpdateWlan := m_signalUpdateWlan p;
     m_watchedServices := m_watchedServices p; m_watcher := m_watcher p;
     m_idleTimer := m_idleTimer p; m_fixLostTimer := m_fixLostTimer p;
     m_recalculatePositionTimer := m_recalculatePositionTimer p;
     m_currentLocation := m_currentLocation p;
     m_lastLocation := m_lastLocation p; m_uniqueCellIdToLocation := v;
     m_knownCellIdsWithUnknownLocations := m_knownCellIdsWithUnknownLocations p;
     m_previousQuery := m_previousQuery p |}.

Definition set_m_knownCellIdsWithUnknownLocations (v : gset MlsdbUniqueCellId) (p : YandexProvider) : YandexProvider :=
  {| m_positioningEnabled := m_positioningEnabled p;
     m_cellDataAllowed := m_cellDataAllowed p;
     m_positioningStarted := m_positioningStarted p; m_status := m_status p;
     m_mlsdbOnlineLocator := m_mlsdbOnlineLocator p;
     m_onlinePositioningEnabled := m_onlinePositioningEnabled p;
     m_onlineDataAllowed := m_onlineDataAllowed p;
     m_wlanDataAllowed := m_wlanDataAllowed p;
     m_cellWatcher := m_cellWatcher p;
     m_signalUpdateCell := m_signalUpdateCell p;
     m_signalUpdateWlan := m_signalUpdateWlan p;
     m_watchedServices := m_watchedServices p; m_watcher := m_watcher p;
     m_idleTimer := m_idleTimer p; m_fixLostTimer := m_fixLostTimer p;
     m_recalculatePositionTimer := m_recalculatePositionTimer p;
     m_currentLocation := m_currentLocation p;
     m_lastLocation := m_lastLocation p;
     m_uniqueCellIdToLocation := m_uniqueCellIdToLocation p;
     m_knownCellIdsWithUnknownLocations := v;
     m_previousQuery := m_previousQuery p |}.

Definition set_m_previousQuery (v : Z) (p : YandexProvider) : YandexProvider :=
  {| m_positioningEnabled := m_positioningEnabled p;
     m_cellDataAllowed := m_cellDataAllowed p;
     m_positioningStarted := m_positioningStarted p; m_status := m_status p;
     m_mlsdbOnlineLocator := m_mlsdbOnlineLocator p;
     m_onlinePositioningEnabled := m_onlinePositioningEnabled p;
     m_onlineDataAllowed := m_onlineDataAllowed p;
     m_wlanDataAllowed := m_wlanDataAllowed p;
     m_cellWatcher := m_cellWatcher p;
     m_signalUpdateCell := m_signalUpdateCell p;
     m_signalUpdateWlan := m_signalUpdateWlan p;
     m_watchedServices := m_watchedServices p; m_watcher := m_watcher p;
     m_idleTimer := m_idleTimer p; m_fixLostTimer := m_fixLostTimer p;
     m_recalculatePositionTimer := m_recalculatePositionTimer p;
     m_currentLocation := m_currentLocation p;
     m_lastLocation := m_lastLocation p;
     m_uniqueCellIdToLocation := m_uniqueCellIdToLocation p;
     m_knownCellIdsWithUnknownLocations := m_knownCellIdsWithUnknownLocations p;
     m_previousQuery := v |}.

(** ** Effects and handlers *)

(** What a handler does that is visible outside the object.  The source
    never sends a D-Bus error reply ([sendErrorReply] does not occur in it):
    [DBusErrorReply] stands for that mechanism and no handler produces it. *)
Inductive Effect : Type :=
  | PositionChanged (fields : Z) (timestamp : Z)
      (latitude longitude altitude : double) (accuracy : Accuracy)
  | StatusChanged (status : Status)
  | DatasetLookup (uniqueCellId : MlsdbUniqueCellId)
  | OnlineRequest (query : Z) (accepted : bool)
  | Warning (msg : string)
  | DBusErrorReply (msg : string)
  | Quit.

(** A handler: the new object and the effects, in the order produced. *)
Definition Handler : Type := YandexProvider → YandexProvider * list Effect.

Definition skip : Handler := λ p, (p, []).

Definition seq (h1 h2 : Handler) : Handler :=
  λ p, let '(p1, e1) := h1 p in
       let '(p2, e2) := h2 p1 in
       (p2, e1 ++ e2).

Definition modify (f : YandexProvider → YandexProvider) : Handler :=
  λ p, (f p, []).

Definition emit (e : YandexProvider → Effect) : Handler :=
  λ p, (p, [e p]).

Definition branch (c : YandexProvider → bool) (h1 h2 : Handler) : Handler :=
  λ p, if c p then h1 p else h2 p.

Notation "h1 ;; h2" := (seq h1 h2) (at level 100, h2 at level 200, right associativity).

(** ** What a handler reads from outside the object *)

(** The values of the keys of /etc/location/location.conf, each already read
    with its default (lines 704-715). *)
Record Settings : Type := mkSettings {
  location_enabled : bool;
  location_mls_enabled : bool;
  location_cell_id_positioning_enabled : bool;
  location_mls_online_enabled : bool;
  allowed_online : bool;
  allowed_cell_data : bool;
  allowed_wlan_data : bool
}.

(** [clock_event] is the reading of line 295, [clock_stamp] the reading a
    new fix is stamped with (lines 350 and 487), [clock_check] the reading of
    line 496.  [cells] is [m_cellWatcher->cells()], [files] the directory
    entries of the data set, [built_query] what the online locator's
    [buildLocationQuery] returns and [findLocation] whether it accepts it. *)
Record Env : Type := mkEnv {
  clock_event : Z;
  clock_stamp : Z;
  clock_check : Z;
  cells : list QOfonoExtCell;
  files : list DataFile;
  built_query : Z;
  findLocation : bool;
  settings : Settings
}.

(** Difference of two [qint64] values. *)
Definition to_qint64 (z : Z) : Z :=
  (z + 9223372036854775808) mod 18446744073709551616 - 9223372036854775808.

(** ** Status and location *)

(** [YandexProvider::setStatus] (lines 685-692). *)
Definition setStatus (status : Status) : Handler :=
  branch (λ p, bool_decide (m_status p = status))
    skip
    (modify (set_m_status status) ;;
     emit (λ p, StatusChanged (m_status p))).

(** Modelled from the spec: the enumeration [PositionFields] is declared in
    a header that is not under src/; spec section 6 calls it a bitmask of the
    fields present.  The values are those of Geoclue's position fields. *)
Definition NoPositionFields : Z := 0.
Definition LatitudePresent : Z := 1.
Definition LongitudePresent : Z := 2.
Definition AltitudePresent : Z := 4.

(** The bitmask built at lines 631-638 (and at 268-278). *)
Definition positionFields (l : Location) : Z :=
  let f0 := NoPositionFields in
  let f1 := if negb (qIsNaN (latitude l)) then Z.lor f0 LatitudePresent else f0 in
  let f2 := if negb (qIsNaN (longitude l)) then Z.lor f1 LongitudePresent else f1 in
  if negb (qIsNaN (altitude l)) then Z.lor f2 AltitudePresent else f2.

(** [YandexProvider::emitLocationChanged] (lines 629-643). *)
Definition emitLocationChanged : Handler :=
  emit (λ p, let l := m_currentLocation p in
             PositionChanged (positionFields l) (to_int (Z.quot (timestamp l) 1000))
               (latitude l) (longitude l) (altitude l) (accuracy l)).

(** [YandexProvider::setLocation] (lines 511-529). *)
Definition setLocation (location : Location) : Handler :=
  branch (λ _, bool_decide (timestamp location ≠ 0))
    (setStatus StatusAvailable ;;
     modify (set_m_fixLostTimer (Some FixTimeout)) ;;
     modify (λ p, set_m_lastLocation (m_currentLocation p) p))
    (modify (set_m_lastLocation Location_default)) ;;
  modify (set_m_currentLocation location) ;;
  emitLocationChanged.

(** [YandexProvider::GetStatus] (lines 230-233). *)
Definition GetStatus (p : YandexProvider) : Status := m_status p.

(** [YandexProvider::GetPosition] (lines 255-283): the returned bitmask and
    the five output parameters. *)
Definition GetPosition (p : YandexProvider)
  : Z * (Z * double * double * double * Accuracy) :=
  let l := m_currentLocation p in
  (positionFields l,
   (to_int (Z.quot (timestamp l) 1000), latitude l, longitude l, altitude l,
    accuracy l)).

(** ** Scheduling *)

(** One iteration of the loop of lines 722-734. *)
Definition minimumInterval_step (interval : Z) (data : ServiceData) : Z :=
  if referenceCount data <=? 0 then interval
  else if updateInterval data =? 0 then interval
  else Z.min interval (updateInterval data).

(** The loop of lines 720-734 over the values of the table. *)
Definition minimumInterval_loop (services : gmap string ServiceData) : Z :=
  fold_left minimumInterval_step (snd <$> map_to_list services) UINT_MAX.

(** [YandexProvider::minimumRequestedUpdateInterval] (lines 718-740). *)
Definition minimumRequestedUpdateInterval (services : gmap string ServiceData) : Z :=
  let interval := minimumInterval_loop services in
  if interval =? UINT_MAX then MinimumInterval
  else Z.max interval MinimumInterval.

(** ** Offline triangulation *)

(** The body of the first loop of [updateLocationFromCells] up to the point
    where the cell's coordinates are known (lines 430-447): the coordinates
    ([None] where the source takes a [continue]), the object with its caches
    updated, and the probe of the data set if one was made. *)
Definition resolveCell (files : list DataFile) (id : MlsdbUniqueCellId)
    (p : YandexProvider) : option MlsdbCoords * YandexProvider * list Effect :=
  match m_uniqueCellIdToLocation p !! id with
  | None =>
      if bool_decide (id ∈ m_knownCellIdsWithUnknownLocations p) then (None, p, [])
      else
        match searchForCellIdLocation files id with
        | None =>
            (None,
             set_m_knownCellIdsWithUnknownLocations
               ({[ id ]} ∪ m_knownCellIdsWithUnknownLocations p) p,
             [DatasetLookup id])
        | Some cellCoords =>
            (Some cellCoords,
             set_m_uniqueCellIdToLocation
               (<[ id := cellCoords ]> (m_uniqueCellIdToLocation p)) p,
             [DatasetLookup id])
        end
  | Some cellCoords => (Some cellCoords, p, [])
  end.

(** The local variables of the first loop (lines 427-428), with the object
    and the effects so far. *)
Record LocateLoop : Type := mkLocateLoop {
  totalSignalStrength : double;
  cellLocations : gmap MlsdbUniqueCellId MlsdbCoords;
  loop_provider : YandexProvider;
  loop_effects : list Effect
}.

(** One iteration of the first loop (lines 429-451). *)
Definition locate_step (files : list DataFile) (acc : LocateLoop)
    (cell : CellPositioningData) : LocateLoop :=
  let '(r, p', e) := resolveCell files (uniqueCellId cell) (loop_provider acc) in
  match r with
  | None =>
      {| totalSignalStrength := totalSignalStrength acc;
         cellLocations := cellLocations acc;
         loop_provider := p';
         loop_effects := loop_effects acc ++ e |}
  | Some cellCoords =>
      {| totalSignalStrength :=
           (totalSignalStrength acc + 1 * double_of_Z (signalStrength cell))%float;
         cellLocations := <[ uniqueCellId cell := cellCoords ]> (cellLocations acc);
         loop_provider := p';
         loop_effects := loop_effects acc ++ e |}
  end.

(** The first loop (lines 427-451). *)
Definition locate (files : list DataFile) (cells : list CellPositioningData)
    (p : YandexProvider) : LocateLoop :=
  fold_left (locate_step files) cells (mkLocateLoop 0%float ∅ p []).

(** One iteration of the second loop (lines 467-479) on the pair
    ([deviceLatitude], [deviceLongitude]). *)
Definition triangulate_step (total : double)
    (locations : gmap MlsdbUniqueCellId MlsdbCoords)
    (acc : double * double) (cell : CellPositioningData) : double * double :=
  match locations !! uniqueCellId cell with
  | Some cellCoords =>
      let weight := (double_of_Z (signalStrength cell) / total)%float in
      ((fst acc + weight * lat cellCoords)%float,
       (snd acc + weight * lon cellCoords)%float)
  | None => acc
  end.

(** The second loop (lines 465-479). *)
Definition triangulate (total : double)
    (locations : gmap MlsdbUniqueCellId MlsdbCoords)
    (cells : list CellPositioningData) : double * double :=
  fold_left (triangulate_step total locations) cells (0%float, 0%float).

(** The [int] expression of lines 485-486, [count] being
    [cellLocations.size()]. *)
Definition calculatedAccuracy (count : Z) : Z :=
  Z.max MinimumCalculatedAccuracy (to_int (10000 - to_int (1000 * count))).

(** [deviceLocation] as lines 481-491 build it. *)
Definition deviceLocation (stamp : Z) (total : double)
    (locations : gmap MlsdbUniqueCellId MlsdbCoords)
    (cells : list CellPositioningData) : Location :=
  if bool_decide (size locations ≠ 0%nat) then
    let d := triangulate total locations cells in
    {| timestamp := stamp;
       latitude := fst d;
       longitude := snd d;
       altitude := altitude Location_default;
       accuracy :=
         {| horizontal := double_of_Z (calculatedAccuracy (Z.of_nat (size locations)));
            vertical := vertical Accuracy_default |} |}
  else Location_default.

(** The condition of lines 495-497: the held fix is kept. *)
Definition keepsCurrent (check : Z) (current candidate : Location) : bool :=
  bool_decide (timestamp current ≠ 0)
  && (to_qint64 (check - timestamp current) <? FallbackInterval)
  && (horizontal (accuracy current) <? horizontal (accuracy candidate))%float.

(** Lines 493-508. *)
Definition arbitrate (check : Z) (candidate : Location) : Handler :=
  branch (λ p, keepsCurrent check (m_currentLocation p) candidate)
    (λ p, setLocation (m_currentLocation p) p)
    (setLocation candidate).

(** [YandexProvider::updateLocationFromCells] (lines 424-509). *)
Definition updateLocationFromCells (env : Env)
    (cells : list CellPositioningData) : Handler :=
  λ p,
    let r := locate (files env) cells p in
    if bool_decide (size (cellLocations r) = 0%nat) then
      (loop_provider r, loop_effects r)
    else
      let candidate :=
        deviceLocation (clock_stamp env) (totalSignalStrength r) (cellLocations r) cells in
      let '(p', e) := arbitrate (clock_check env) candidate (loop_provider r) in
      (p', loop_effects r ++ e).

(** ** Online positioning *)

(** [YandexProvider::calculatePositionAndEmitLocation] (lines 314-338). *)
Definition calculatePositionAndEmitLocation (env : Env) : Handler :=
  λ p,
    let cellIds := seenCellIds (m_cellDataAllowed p) (cells env) in
    if m_onlinePositioningEnabled p then
      let p1 :=
        match m_mlsdbOnlineLocator p with
        | None => set_m_mlsdbOnlineLocator (Some (m_wlanDataAllowed p)) p
        | Some _ => p
        end in
      let query := built_query env in
      if findLocation env then
        (set_m_previousQuery query p1, [OnlineRequest query true])
      else
        let '(p2, e) := updateLocationFromCells env cellIds p1 in
        (p2, OnlineRequest query false :: e)
    else updateLocationFromCells env cellIds p.

(** [YandexProvider::onlineWlanChanged] (lines 340-343). *)
Definition onlineWlanChanged : Handler :=
  modify (set_m_signalUpdateWlan true).

(** The fix lines 349-356 build from the answer of the online locator. *)
Definition onlineFix (stamp : Z) (latitude longitude accuracy : double) : Location :=
  {| timestamp := stamp;
     latitude := latitude;
     longitude := longitude;
     altitude := altitude Location_default;
     accuracy := {| horizontal := accuracy; vertical := vertical Accuracy_default |} |}.

(** [YandexProvider::onlineLocationFound] (lines 345-359). *)
Definition onlineLocationFound (env : Env) (latitude longitude accuracy : double)
  : Handler :=
  setLocation (onlineFix (clock_stamp env) latitude longitude accuracy).

(** [YandexProvider::onlineLocationError] (lines 361-368). *)
Definition onlineLocationError (env : Env) : Handler :=
  λ p, updateLocationFromCells env (seenCellIds (m_cellDataAllowed p) (cells env)) p.

(** [YandexProvider::cellularNetworkRegistrationChanged] (lines 624-627). *)
Definition cellularNetworkRegistrationChanged : Handler :=
  modify (set_m_signalUpdateCell true).

(** ** Sessions *)

#[global] Instance ServiceData_eq_dec : EqDecision ServiceData.
Proof. solve_decision. Defined.

(** [QStringList::removeOne], which [removeWatchedService] applies to the
    list of watched services. *)
Fixpoint removeOne (service : string) (l : list string) : list string :=
  match l with
  | [] => []
  | x :: r => if bool_decide (x = service) then r else x :: removeOne service r
  end.

(** [m_watchedServices.isEmpty()]. *)
Definition noWatchedServices (p : YandexProvider) : bool :=
  bool_decide (m_watchedServices p = ∅).

(** [YandexProvider::stopPositioningIfNeeded] (lines 668-683). *)
Definition stopPositioningIfNeeded : Handler :=
  branch (λ p, negb (m_positioningStarted p))
    skip
    (branch (λ p, m_positioningEnabled p && negb (noWatchedServices p))
       skip
       (modify (set_m_positioningStarted false) ;;
        setStatus StatusUnavailable ;;
        modify (set_m_fixLostTimer None) ;;
        modify (set_m_recalculatePositionTimer None))).

(** [YandexProvider::startPositioningIfNeeded] (lines 645-666).  The
    [quint32] of line 664 is converted to the [int] parameter of
    [QBasicTimer::start] at line 665. *)
Definition startPositioningIfNeeded (env : Env) : Handler :=
  branch (λ p, m_positioningStarted p)
    skip
    (branch noWatchedServices
       skip
       (branch (λ p, negb (m_positioningEnabled p))
          skip
          (modify (set_m_idleTimer None) ;;
           modify (set_m_positioningStarted true) ;;
           calculatePositionAndEmitLocation env ;;
           modify (λ p, set_m_recalculatePositionTimer
                          (Some (to_int (minimumRequestedUpdateInterval
                                           (m_watchedServices p)))) p)))).

(** [m_watchedServices[service]]: the entry, default-constructed when the
    key is absent. *)
Definition serviceEntry (service : string) (p : YandexProvider) : ServiceData :=
  default ServiceData_default (m_watchedServices p !! service).

(** [YandexProvider::AddReference] (lines 184-199), [service] being
    [message().service()] of a call that does come from D-Bus. *)
Definition AddReference (env : Env) (service : string) : Handler :=
  λ p,
    let wasInactive := noWatchedServices p in
    (modify (λ p, set_m_watcher (m_watcher p ++ [service]) p) ;;
     modify (λ p, let d := serviceEntry service p in
                  set_m_watchedServices
                    (<[ service := {| referenceCount := to_int (referenceCount d + 1);
                                      updateInterval := updateInterval d |} ]>
                       (m_watchedServices p)) p) ;;
     (if wasInactive then modify (set_m_idleTimer None) else skip) ;;
     startPositioningIfNeeded env) p.

(** [YandexProvider::RemoveReference] (lines 201-222). *)
Definition RemoveReference (service : string) : Handler :=
  modify (λ p, let d := serviceEntry service p in
               let count :=
                 if 0 <? referenceCount d then to_int (referenceCount d - 1)
                 else referenceCount d in
               if count =? 0 then
                 set_m_watchedServices (delete service (m_watchedServices p))
                   (set_m_watcher (removeOne service (m_watcher p)) p)
               else
                 set_m_watchedServices
                   (<[ service := {| referenceCount := count;
                                     updateInterval := updateInterval d |} ]>
                      (m_watchedServices p)) p) ;;
  branch noWatchedServices (modify (set_m_idleTimer (Some QuitIdleTime))) skip ;;
  stopPositioningIfNeeded.

(** [YandexProvider::SetOptions] (lines 235-253).  [option_UpdateInterval] is
    [None] when the map has no key "UpdateInterval", else the [toUInt()] of
    its value.  The [quint32] of line 250 is converted to the [int]
    parameter of [QBasicTimer::start] at line 251. *)
Definition SetOptions (service : string) (option_UpdateInterval : option Z)
  : Handler :=
  branch (λ p, bool_decide (m_watchedServices p !! service = None))
    (emit (λ _, Warning "Only active users can call SetOptions"))
    match option_UpdateInterval with
    | None => skip
    | Some v =>
        modify (λ p, let d := serviceEntry service p in
                     set_m_watchedServices
                       (<[ service := {| referenceCount := referenceCount d;
                                         updateInterval := to_quint32 v |} ]>
                          (m_watchedServices p)) p) ;;
        modify (λ p, set_m_recalculatePositionTimer
                       (Some (to_int (minimumRequestedUpdateInterval
                                        (m_watchedServices p)))) p)
    end.

(** [YandexProvider::serviceUnregistered] (lines 531-541). *)
Definition serviceUnregistered (service : string) : Handler :=
  modify (λ p, set_m_watchedServices (delete service (m_watchedServices p)) p) ;;
  modify (λ p, set_m_watcher (removeOne service (m_watcher p)) p) ;;
  branch noWatchedServices (modify (set_m_idleTimer (Some QuitIdleTime))) skip ;;
  stopPositioningIfNeeded.

(** ** Settings *)

(** [YandexProvider::getEnabled] (lines 698-716): the six output
    parameters, in the order of the signature. *)
Definition getEnabled (s : Settings) : bool * bool * bool * bool * bool * bool :=
  let positioningEnabled := location_enabled s in
  let cellPositioningEnabled :=
    positioningEnabled
    && (location_mls_enabled s || location_cell_id_positioning_enabled s) in
  let onlinePositioningEnabled :=
    cellPositioningEnabled && location_mls_online_enabled s in
  (positioningEnabled, cellPositioningEnabled, onlinePositioningEnabled,
   allowed_online s, allowed_cell_data s, allowed_wlan_data s).

(** [YandexProvider::updatePositioningEnabled] (lines 543-622). *)
Definition updatePositioningEnabled (env : Env) : Handler :=
  let '(positioningEnabled, cellPositioningEnabled, onlinePositioningEnabled,
        onlineDataAllowed, cellDataAllowed, wlanDataAllowed) :=
    getEnabled (settings env) in
  modify (set_m_onlinePositioningEnabled onlinePositioningEnabled) ;;
  modify (set_m_onlineDataAllowed onlineDataAllowed) ;;
  branch (λ p, negb (Bool.eqb (m_cellDataAllowed p) cellDataAllowed))
    (modify (set_m_cellDataAllowed cellDataAllowed) ;;
     modify (λ p, if negb (m_cellWatcher p) && m_cellDataAllowed p
                  then set_m_cellWatcher true p
                  else if m_cellWatcher p && negb (m_cellDataAllowed p)
                  then set_m_cellWatcher false p
                  else p))
    skip ;;
  modify (set_m_wlanDataAllowed wlanDataAllowed) ;;
  modify (λ p, match m_mlsdbOnlineLocator p with
               | Some _ => set_m_mlsdbOnlineLocator (Some (m_wlanDataAllowed p)) p
               | None => p
               end) ;;
  let enabled := positioningEnabled && cellPositioningEnabled in
  branch (λ p, Bool.eqb (m_positioningEnabled p) enabled)
    skip
    (if enabled then
       modify (set_m_positioningEnabled true) ;;
       startPositioningIfNeeded env
     else
       modify (set_m_positioningEnabled false) ;;
       setLocation Location_default ;;
       stopPositioningIfNeeded).

(** ** Timers *)

(** The three timers of the object; [OtherTimer] is any other timer id. *)
Inductive Timer : Type :=
  | IdleTimer
  | FixLostTimer
  | RecalculatePositionTimer
  | OtherTimer.

(** [event->timerId() == t.timerId()]: an event carries the id of an active
    timer, and an inactive [QBasicTimer] has id 0. *)
Definition isActive (t : option Z) : bool :=
  match t with Some _ => true | None => false end.

(** The condition of lines 298-300. *)
Definition recalculates (now : Z) (p : YandexProvider) : bool :=
  bool_decide (timestamp (m_currentLocation p) = 0)
  || (ReuseInterval <? to_qint64 (now - timestamp (m_currentLocation p)))
  || m_signalUpdateCell p || m_signalUpdateWlan p.

(** [YandexProvider::timerEvent] (lines 285-312). *)
Definition timerEvent (env : Env) (t : Timer) : Handler :=
  λ p,
    match t with
    | IdleTimer =>
        if isActive (m_idleTimer p) then
          (modify (set_m_idleTimer None) ;; emit (λ _, Quit)) p
        else skip p
    | FixLostTimer =>
        if isActive (m_fixLostTimer p) then
          (modify (set_m_fixLostTimer None) ;; setStatus StatusAcquiring) p
        else skip p
    | RecalculatePositionTimer =>
        if isActive (m_recalculatePositionTimer p) then
          if negb (m_positioningEnabled p) then skip p
          else if recalculates (clock_event env) p then
            (modify (set_m_signalUpdateCell false) ;;
             modify (set_m_signalUpdateWlan false) ;;
             calculatePositionAndEmitLocation env) p
          else setLocation (m_currentLocation p) p
        else skip p
    | OtherTimer => skip p
    end.

(** ** Construction and events *)

(** The member initialisers of lines 79-91 and the default-constructed
    members. *)
Definition initial : YandexProvider :=
  {| m_positioningEnabled := false;
     m_cellDataAllowed := false;
     m_positioningStarted := false;
     m_status := StatusUnavailable;
     m_mlsdbOnlineLocator := None;
     m_onlinePositioningEnabled := false;
     m_onlineDataAllowed := false;
     m_wlanDataAllowed := false;
     m_cellWatcher := false;
     m_signalUpdateCell := false;
     m_signalUpdateWlan := false;
     m_watchedServices := ∅;
     m_watcher := [];
     m_idleTimer := None;
     m_fixLostTimer := None;
     m_recalculatePositionTimer := None;
     m_currentLocation := Location_default;
     m_lastLocation := Location_default;
     m_uniqueCellIdToLocation := ∅;
     m_knownCellIdsWithUnknownLocations := ∅;
     m_previousQuery := 0 |}.

(** The body of the constructor (lines 92-129). *)
Definition construct (env : Env) : Handler :=
  updatePositioningEnabled env ;;
  branch noWatchedServices (modify (set_m_idleTimer (Some QuitIdleTime))) skip ;;
  branch (λ p, m_positioningEnabled p) cellularNetworkRegistrationChanged skip.

(** Everything that can make the object run: the D-Bus methods, the timer
    events and the notifications it is connected to. *)
Inductive Event : Type :=
  | CallAddReference (service : string)
  | CallRemoveReference (service : string)
  | CallSetOptions (service : string) (option_UpdateInterval : option Z)
  | CallGetStatus
  | CallGetPosition
  | TimerEvent (t : Timer)
  | OnlineWlanChanged
  | OnlineLocationFound (latitude longitude accuracy : double)
  | OnlineLocationError
  | ServiceUnregistered (service : string)
  | SettingsChanged
  | CellsChanged.

Definition handle (env : Env) (ev : Event) : Handler :=
  match ev with
  | CallAddReference service => AddReference env service
  | CallRemoveReference service => RemoveReference service
  | CallSetOptions service o => SetOptions service o
  | CallGetStatus => skip
  | CallGetPosition => skip
  | TimerEvent t => timerEvent env t
  | OnlineWlanChanged => onlineWlanChanged
  | OnlineLocationFound la lo ac => onlineLocationFound env la lo ac
  | OnlineLocationError => onlineLocationError env
  | ServiceUnregistered service => serviceUnregistered service
  | SettingsChanged => updatePositioningEnabled env
  | CellsChanged => cellularNetworkRegistrationChanged
  end.

(** The states the object can be in: after construction, and after any
    event handled in a reachable state, whatever the environment holds. *)
Inductive reachable : YandexProvider → Prop :=
  | reachable_construct (env : Env) :
      reachable (fst (construct env initial))
  | reachable_handle (env : Env) (ev : Event) (p : YandexProvider) :
      reachable p → reachable (fst (handle env ev p)).

(** ** Vocabulary of the properties *)

(** Handling a sequence of events, each in its own environment. *)
Definition run (trace : list (Env * Event)) (p : YandexProvider) : YandexProvider :=
  fold_left (λ q step, fst (handle (fst step) (snd step) q)) trace p.

(** The data set probes among a list of effects. *)
Definition lookups (e : list Effect) : list MlsdbUniqueCellId :=
  omap (λ x, match x with DatasetLookup id => Some id | _ => None end) e.

(** No identity is in both caches. *)
Definition disjointCaches (pos : gmap MlsdbUniqueCellId MlsdbCoords)
    (neg : gset MlsdbUniqueCellId) : Prop :=
  ∀ id, ¬ (is_Some (pos !! id) ∧ id ∈ neg).

Definition exclusive (p : YandexProvider) : Prop :=
  disjointCaches (m_uniqueCellIdToLocation p) (m_knownCellIdsWithUnknownLocations p).

(** The answer the caches alone give for [id]: [Some (Some c)] from the
    positive cache, [Some None] from the negative cache, [None] when [id]
    is in neither. *)
Definition cachedIn (id : MlsdbUniqueCellId)
    (pos : gmap MlsdbUniqueCellId MlsdbCoords) (neg : gset MlsdbUniqueCellId)
  : option (option MlsdbCoords) :=
  match pos !! id with
  | Some c => Some (Some c)
  | None => if bool_decide (id ∈ neg) then Some None else None
  end.

Definition cached (id : MlsdbUniqueCellId) (p : YandexProvider)
  : option (option MlsdbCoords) :=
  cachedIn id (m_uniqueCellIdToLocation p) (m_knownCellIdsWithUnknownLocations p).

(** A handler keeps a property of the object. *)
Definition preserves (P : YandexProvider → Prop) (h : Handler) : Prop :=
  ∀ p, P p → P (fst (h p)).

(** The part of the object the invariants below are about: the status, the
    fix-lost timer and the two caches. *)
Definition fusionState (p : YandexProvider)
  : Status * option Z * gmap MlsdbUniqueCellId MlsdbCoords * gset MlsdbUniqueCellId :=
  (m_status p, m_fixLostTimer p, m_uniqueCellIdToLocation p,
   m_knownCellIdsWithUnknownLocations p).

(** The last three steps of [stopPositioningIfNeeded] (lines 680-682). *)
Definition stopTail : Handler :=
  setStatus StatusUnavailable ;;
  modify (set_m_fixLostTimer None) ;;
  modify (set_m_recalculatePositionTimer None).

(** The fix-lost branch of [timerEvent] (lines 292-293). *)
Definition fixLostBranch : Handler :=
  modify (set_m_fixLostTimer None) ;; setStatus StatusAcquiring.

(** A property of the two caches, as a property of the object. *)
Definition onCaches
    (Q : gmap MlsdbUniqueCellId MlsdbCoords → gset MlsdbUniqueCellId → Prop)
    (p : YandexProvider) : Prop :=
  Q (m_uniqueCellIdToLocation p) (m_knownCellIdsWithUnknownLocations p).

(** What resolving [id] gives in state [p] with data files [files]: the
    cached answer, or the answer of the data set for an identity that is in
    neither cache. *)
Definition resolution (files : list DataFile) (p : YandexProvider)
    (id : MlsdbUniqueCellId) : option MlsdbCoords :=
  match cached id p with
  | Some r => r
  | None => searchForCellIdLocation files id
  end.

(** The resolved observations of a list of cells: the coordinates and the
    signal strength of every cell that resolves, in list order. *)
Definition observation (files : list DataFile) (p : YandexProvider)
    (cell : CellPositioningData) : option (MlsdbCoords * Z) :=
  (λ c, (c, signalStrength cell)) <$> resolution files p (uniqueCellId cell).

Definition resolvedObservations (files : list DataFile) (p : YandexProvider)
    (cells : list CellPositioningData) : list (MlsdbCoords * Z) :=
  omap (observation files p) cells.

(** The total signal strength of the spec: the sum of the strengths, added
    as doubles in list order. *)
Definition sumStrength (obs : list (MlsdbCoords * Z)) : double :=
  fold_left (λ t o, (t + 1 * double_of_Z o.2)%float) obs 0%float.

(** The weighted centroid of the spec, one coordinate: the sum over the
    observations of (strength / total) * coordinate, in doubles and in list
    order. *)
Definition weightedCentroid (coord : MlsdbCoords → double) (total : double)
    (obs : list (MlsdbCoords * Z)) : double :=
  fold_left (λ a o, (a + (double_of_Z o.2 / total) * coord o.1)%float) obs 0%float.

(** The signal [emitLocationChanged] emits for a current location [l]. *)
Definition positionChanged (l : Location) : Effect :=
  PositionChanged (positionFields l) (to_int (Z.quot (timestamp l) 1000))
    (latitude l) (longitude l) (altitude l) (accuracy l).

(** The non-zero requested intervals of a list of subscribers. *)
Definition requestedIntervals (l : list ServiceData) : list Z :=
  filter (λ v, v ≠ 0) (updateInterval <$> l).



(** ** Example data: three cells, at (0,0), (0,10) and (10,0) *)

Definition example_id (n : Z) : MlsdbUniqueCellId :=
  mkUniqueCellId MLSDB_CELL_TYPE_LTE n 100 250 1.

Definition example_file : DataFile :=
  {| fname := "/usr/share/geoclue-provider-mlsdb/ru/1/mlsdb.data";
     file_magic := 0xc710cdb;
     file_version := 3;
     perLcCellIdToLocations :=
       <[ example_id 1 := mkCoords 0 0 ]>
         (<[ example_id 2 := mkCoords 0 10 ]>
            (<[ example_id 3 := mkCoords 10 0 ]> ∅)) |}.

Definition example_settings : Settings :=
  {| location_enabled := true;
     location_mls_enabled := true;
     location_cell_id_positioning_enabled := false;
     location_mls_online_enabled := true;
     allowed_online := true;
     allowed_cell_data := true;
     allowed_wlan_data := true |}.

(** A reported LTE cell with the identity [example_id n]. *)
Definition example_watched (n strength : Z) : QOfonoExtCell :=
  {| cell_type := CellLTE;
     cell_mcc := 250;
     cell_mnc := 1;
     cell_cid := InvalidValue;
     cell_lac := InvalidValue;
     cell_ci := n;
     cell_tac := 100;
     cell_signalStrength := strength |}.

(** An environment whose clock reads [now] throughout, with the modem
    reporting [watched], the example data file, and an online locator that
    refuses every query. *)
Definition example_env_watching (now : Z) (watched : list QOfonoExtCell) : Env :=
  {| clock_event := now;
     clock_stamp := now;
     clock_check := now;
     cells := watched;
     files := [example_file];
     built_query := 0;
     findLocation := false;
     settings := example_settings |}.

(** The same with no cell reported. *)
Definition example_env (now : Z) : Env := example_env_watching now [].

(** The three cells observed with the same signal strength [s]. *)
Definition three_cells (s : Z) : list CellPositioningData :=
  [mkCell (example_id 1) s; mkCell (example_id 2) s; mkCell (example_id 3) s].


(** The double nearest below 10/3: 7505999378950826 * 2^-51. *)
Definition ten_thirds_below : double := 0x1.aaaaaaaaaaaaap+1%float.

(** What the example of the spec says of a fix. *)
Definition near_ten_thirds (l : Location) : Prop :=
  latitude l = ten_thirds_below
  ∧ longitude l = ten_thirds_below
  ∧ (Qabs (Q_of_double (latitude l) - (10 # 3)) < 1 # 2251799813685248)%Q
  ∧ (Qabs (Q_of_double (longitude l) - (10 # 3)) < 1 # 2251799813685248)%Q
  ∧ horizontal (accuracy l) = 7000%float.

(** The object one second after the epoch: constructed with positioning
    enabled, it has just adopted an online fix of accuracy 2500. *)
Definition holding_online_fix : YandexProvider :=
  run [(example_env 1000, OnlineLocationFound 55 37 2500)]
    (construct (example_env 0) initial).1.

(** The object after one client has taken a reference. *)
Definition one_client : YandexProvider :=
  run [(example_env 1000, CallAddReference ":1.42")]
    (construct (example_env 0) initial).1.

(** The object after one client has taken a reference and asked for an
    update every 4294967295 ms. *)
Definition patient_client : YandexProvider :=
  run [(example_env 1000, CallAddReference ":1.42");
       (example_env 2000, CallSetOptions ":1.42" (Some 4294967295))]
    (construct (example_env 0) initial).1.


(** The object after one client has taken a reference while the modem
    reports the cell at (0,10) and a cell the data set does not know. *)
Definition after_first_scan : YandexProvider :=
  run [(example_env_watching 1000 [example_watched 2 20; example_watched 9 20],
        CallAddReference ":1.42")]
    (construct (example_env 0) initial).1.

(** ** Vocabulary of the session and configuration properties *)

(** The part of the object that records the subscribers and the scheduling:
    the table, the watched services, the idle timer, whether positioning is
    started, and the recalculation timer. *)
Definition sessionState (p : YandexProvider)
  : gmap string ServiceData * list string * option Z * bool * option Z :=
  (m_watchedServices p, m_watcher p, m_idleTimer p, m_positioningStarted p,
   m_recalculatePositionTimer p).

(** The part of the object that records the settings. *)
Definition configState (p : YandexProvider) : bool * bool * bool * bool * bool * bool :=
  (m_positioningEnabled p, m_cellDataAllowed p, m_cellWatcher p,
   m_onlinePositioningEnabled p, m_onlineDataAllowed p, m_wlanDataAllowed p).

(** [n] calls of [AddReference] by [service], each in its own environment. *)
Definition addReferences (service : string) (envs : list Env) : list (Env * Event) :=
  (λ env, (env, CallAddReference service)) <$> envs.

(** [n] calls of [RemoveReference] by [service]. *)
Definition removeReferences (service : string) (envs : list Env) : list (Env * Event) :=
  (λ env, (env, CallRemoveReference service)) <$> envs.

(** The online locator after [calculatePositionAndEmitLocation]: the one
    there was, or a new one with the current wlan permission when online
    positioning is enabled. *)
Definition locatorAfterCalculation (p : YandexProvider) : option bool :=
  match m_mlsdbOnlineLocator p with
  | Some w => Some w
  | None => if m_onlinePositioningEnabled p then Some (m_wlanDataAllowed p) else None
  end.

(** The condition under which [startPositioningIfNeeded] starts. *)
Definition starts (p : YandexProvider) : bool :=
  negb (m_positioningStarted p) && negb (noWatchedServices p) && m_positioningEnabled p.

(** The condition under which [stopPositioningIfNeeded] stops. *)
Definition stops (p : YandexProvider) : bool :=
  m_positioningStarted p && negb (m_positioningEnabled p && negb (noWatchedServices p)).

(** The table after [AddReference] by [service]. *)
Definition tableAfterAdd (service : string) (p : YandexProvider)
  : gmap string ServiceData :=
  <[ service := {| referenceCount := to_int (referenceCount (serviceEntry service p) + 1);
                   updateInterval := updateInterval (serviceEntry service p) |} ]>
    (m_watchedServices p).

(** The reference count [RemoveReference] leaves for [service]. *)
Definition countAfterRemove (service : string) (p : YandexProvider) : Z :=
  if 0 <? referenceCount (serviceEntry service p)
  then to_int (referenceCount (serviceEntry service p) - 1)
  else referenceCount (serviceEntry service p).

(** The table after [RemoveReference] by [service]. *)
Definition tableAfterRemove (service : string) (p : YandexProvider)
  : gmap string ServiceData :=
  if countAfterRemove service p =? 0 then delete service (m_watchedServices p)
  else <[ service := {| referenceCount := countAfterRemove service p;
                        updateInterval := updateInterval (serviceEntry service p) |} ]>
         (m_watchedServices p).

(** An [int] the recalculation timer is started with: the conversion of a
    [quint32] between [MinimumInterval] and [UINT_MAX]. *)
Definition startedInterval (t : Z) : Prop :=
  ∃ m, MinimumInterval ≤ m ≤ UINT_MAX ∧ t = to_int m.

(** What holds of the timers of the session whatever the stage of a handler:
    the idle timer runs, with [QuitIdleTime], only while the table is empty;
    while positioning is started the last call on the recalculation timer is
    a start; and that timer is only started with a [startedInterval]. *)
Definition sessionTimers (p : YandexProvider) : Prop :=
  (m_idleTimer p = None
   ∨ (m_idleTimer p = Some QuitIdleTime ∧ m_watchedServices p = ∅))
  ∧ (m_positioningStarted p = true → ∃ t, m_recalculatePositionTimer p = Some t)
  ∧ (∀ t, m_recalculatePositionTimer p = Some t → startedInterval t).

(** The invariant of the session: positioning is started exactly when it is
    enabled and some client holds a reference, and [sessionTimers] holds. *)
Definition sessionInvariant (p : YandexProvider) : Prop :=
  m_positioningStarted p = m_positioningEnabled p && negb (noWatchedServices p)
  ∧ sessionTimers p.

(** What [startPositioningIfNeeded] needs to establish the invariant. *)
Definition startReady (p : YandexProvider) : Prop :=
  (m_positioningStarted p = true →
   m_positioningEnabled p = true ∧ noWatchedServices p = false)
  ∧ sessionTimers p.

(** What [stopPositioningIfNeeded] needs to establish the invariant. *)
Definition stopReady (p : YandexProvider) : Prop :=
  (m_positioningStarted p = false →
   m_positioningEnabled p && negb (noWatchedServices p) = false)
  ∧ sessionTimers p.

(** The invariant of the settings: the cell watcher exists exactly when cell
    data is allowed, online positioning is enabled only when positioning is,
    and an existing online locator has the current wlan permission. *)
Definition configInvariant (p : YandexProvider) : Prop :=
  m_cellWatcher p = m_cellDataAllowed p
  ∧ (m_onlinePositioningEnabled p = true → m_positioningEnabled p = true)
  ∧ (∀ w, m_mlsdbOnlineLocator p = Some w → w = m_wlanDataAllowed p).

(** A handler run in a state with [P] ends in a state with [Q]. *)
Definition hoare (P Q : YandexProvider → Prop) (h : Handler) : Prop :=
  ∀ p, P p → Q (h p).1.

(** The part of the object its signals and its probes of the data set are
    about: the status, the current location and the two caches. *)
Definition signalState (p : YandexProvider)
  : Status * Location * gmap MlsdbUniqueCellId MlsdbCoords * gset MlsdbUniqueCellId :=
  (m_status p, m_currentLocation p, m_uniqueCellIdToLocation p,
   m_knownCellIdsWithUnknownLocations p).

(** A handler relates the object before it to the object after it and to
    the effects it produces. *)
Definition relates (G : YandexProvider → YandexProvider → list Effect → Prop)
    (h : Handler) : Prop :=
  ∀ p, G p (h p).1 (h p).2.

(** The last two steps of [setLocation] (lines 527-528). *)
Definition adoptLocation (l : Location) : Handler :=
  modify (set_m_currentLocation l) ;; emitLocationChanged.

(** The effects of handling a sequence of events, in the order produced. *)
Fixpoint runEffects (trace : list (Env * Event)) (p : YandexProvider) : list Effect :=
  match trace with
  | [] => []
  | step :: rest =>
      (handle step.1 step.2 p).2 ++ runEffects rest (handle step.1 step.2 p).1
  end.

(** What a client that starts from status [s] and follows the
    [StatusChanged] signals among [e] ends with; [None] if a signal repeats
    the status the client already has. *)
Fixpoint statusAfter (s : Status) (e : list Effect) : option Status :=
  match e with
  | [] => Some s
  | StatusChanged s' :: rest =>
      if bool_decide (s' = s) then None else statusAfter s' rest
  | _ :: rest => statusAfter s rest
  end.

(** The [PositionChanged] signals among a list of effects. *)
Definition positionSignals (e : list Effect) : list Effect :=
  omap (λ x, match x with PositionChanged _ _ _ _ _ _ => Some x | _ => None end) e.

(** What [GetPosition] returns, as the signal that carries the same values. *)
Definition reportedPosition (p : YandexProvider) : Effect :=
  let '(fields, (timestamp, latitude, longitude, altitude, accuracy)) := GetPosition p in
  PositionChanged fields timestamp latitude longitude altitude accuracy.

(** The last position signal among [e] is what [GetPosition] returns in [q];
    with no position signal, the current location of [q] is that of [p]. *)
Definition positionFollows (p q : YandexProvider) (e : list Effect) : Prop :=
  match last (positionSignals e) with
  | Some x => x = reportedPosition q
  | None => m_currentLocation q = m_currentLocation p
  end.

(** The probes among [e] are of distinct identities, each in neither cache
    in [p] and in one of them in [q]; and what [p] has cached, [q] has. *)
Definition probesOnce (p q : YandexProvider) (e : list Effect) : Prop :=
  NoDup (lookups e)
  ∧ (∀ id, id ∈ lookups e → cached id p = None ∧ cached id q ≠ None)
  ∧ (∀ id r, cached id p = Some r → cached id q = Some r).

(** A directory entry [searchForCellIdLocation] reads for [id]: its path
    ends with the bucket of [id], and it starts with the magic number and
    the version (lines 146-162). *)
Definition searched (id : MlsdbUniqueCellId) (f : DataFile) : bool :=
  endsWith_ci (fname f) (bucket_suffix (firstDigit (locationCode id)))
  && bool_decide (file_magic f = 0xc710cdb)
  && bool_decide (file_version f = 3).

(** The observation a reported cell gives when it is the first with its
    identity (lines 405-409). *)
Definition report (c : QOfonoExtCell) : option CellPositioningData :=
  (λ id, mkCell id (to_quint32 (cell_signalStrength c))) <$> cell_identity c.

(** The intervals [minimumRequestedUpdateInterval] takes the minimum of:
    those of the entries with a positive reference count and an interval
    other than 0 (lines 724-731). *)
Definition activeRequests (services : gmap string ServiceData) : list Z :=
  updateInterval <$>
    List.filter (λ d, (0 <? referenceCount d) && negb (updateInterval d =? 0))
      (snd <$> map_to_list services).

(** What the object holds of the fix: the current and the previous location,
    the status and the fix-lost timer. *)
Definition fixState (p : YandexProvider) : Location * Location * Status * option Z :=
  (m_currentLocation p, m_lastLocation p, m_status p, m_fixLostTimer p).

(** The settings file with location switched off. *)
Definition example_env_disabled (now : Z) : Env :=
  {| clock_event := now;
     clock_stamp := now;
     clock_check := now;
     cells := [];
     files := [example_file];
     built_query := 0;
     findLocation := false;
     settings :=
       {| location_enabled := false;
          location_mls_enabled := true;
          location_cell_id_positioning_enabled := false;
          location_mls_online_enabled := true;
          allowed_online := true;
          allowed_cell_data := true;
          allowed_wlan_data := true |} |}.

(** With no watched service, the idle timer runs. *)
Definition idleArmed (p : YandexProvider) : Prop :=
  m_watchedServices p = ∅ → m_idleTimer p = Some QuitIdleTime.

(** The two flags that ask for a recalculation at the next timer event. *)
Definition signalFlags (p : YandexProvider) : bool * bool :=
  (m_signalUpdateCell p, m_signalUpdateWlan p).





(** * Properties *)

(** ** Handlers that keep a property of the object *)

Section Preservation.
Variable P : YandexProvider → Prop.

Lemma preserves_skip : preserves P skip.
Proof. intros p Hp. exact Hp. Qed.

Lemma preserves_emit (e : YandexProvider → Effect) : preserves P (emit e).
Proof. intros p Hp. exact Hp. Qed.

Lemma preserves_modify (f : YandexProvider → YandexProvider) :
  (∀ p, P p → P (f p)) → preserves P (modify f).
Proof. intros Hf p Hp. apply Hf, Hp. Qed.

Lemma preserves_seq (h1 h2 : Handler) :
  preserves P h1 → preserves P h2 → preserves P (h1 ;; h2).
Proof.
  intros H1 H2 p Hp. unfold seq.
  specialize (H1 p Hp). destruct (h1 p) as [p1 e1]. simpl in H1.
  specialize (H2 p1 H1). destruct (h2 p1) as [p2 e2]. exact H2.
Qed.

Lemma preserves_branch (c : YandexProvider → bool) (h1 h2 : Handler) :
  preserves P h1 → preserves P h2 → preserves P (branch c h1 h2).
Proof.
  intros H1 H2 p Hp. unfold branch. destruct (c p); [apply H1 | apply H2]; exact Hp.
Qed.

Lemma preserves_if (b : bool) (h1 h2 : Handler) :
  preserves P h1 → preserves P h2 → preserves P (if b then h1 else h2).
Proof. destruct b; tauto. Qed.
End Preservation.

(** ** Invariants of the object

    A property that depends on [fusionState] alone and is kept by the
    resolution of a cell, by [setLocation], by the tail of
    [stopPositioningIfNeeded] and by the fix-lost branch of [timerEvent] is
    kept by every handler. *)

Create HintDb handlers.

Ltac same_fusionState :=
  unfold fusionState; cbv beta zeta;
  repeat
    match goal with
    | |- context [match ?x with _ => _ end] => destruct x
    end;
  reflexivity.

Section Invariant.
Variable P : YandexProvider → Prop.
Hypothesis P_frame : ∀ p q, fusionState p = fusionState q → P p → P q.
Hypothesis P_resolveCell : ∀ files id p, P p → P (resolveCell files id p).1.2.
Hypothesis P_setLocation : ∀ l, preserves P (setLocation l).
Hypothesis P_stop : preserves P stopTail.
Hypothesis P_fixLost : preserves P fixLostBranch.

Lemma inv_modify (f : YandexProvider → YandexProvider) :
  (∀ p, fusionState p = fusionState (f p)) → preserves P (modify f).
Proof. intros Hf. apply preserves_modify. intros p. apply P_frame, Hf. Qed.

Local Hint Resolve preserves_skip preserves_emit preserves_seq
  preserves_branch preserves_if P_setLocation : handlers.
Local Hint Extern 1 (preserves _ (modify _)) =>
  (apply inv_modify; intros ?; same_fusionState) : handlers.

Lemma inv_arbitrate check candidate : preserves P (arbitrate check candidate).
Proof.
  intros p Hp. unfold arbitrate, branch.
  destruct (keepsCurrent _ _ _); apply P_setLocation, Hp.
Qed.

Lemma inv_locate files cells acc :
  P (loop_provider acc) →
  P (loop_provider (fold_left (locate_step files) cells acc)).
Proof.
  revert acc. induction cells as [|c cells IH]; intros acc Hacc; [exact Hacc|].
  simpl. apply IH. unfold locate_step.
  pose proof (P_resolveCell files (uniqueCellId c) (loop_provider acc) Hacc) as H.
  destruct (resolveCell files (uniqueCellId c) (loop_provider acc)) as [[r p'] e].
  destruct r; exact H.
Qed.

Lemma inv_updateLocationFromCells env cells :
  preserves P (updateLocationFromCells env cells).
Proof.
  intros p Hp. unfold updateLocationFromCells.
  assert (P (loop_provider (locate (files env) cells p))) as H
    by (apply inv_locate; exact Hp).
  case_bool_decide; [exact H|].
  pose proof (inv_arbitrate (clock_check env)
    (deviceLocation (clock_stamp env)
       (totalSignalStrength (locate (files env) cells p))
       (cellLocations (locate (files env) cells p)) cells) _ H) as H'.
  destruct (arbitrate _ _ _) as [p' e]. exact H'.
Qed.

Lemma inv_calculatePositionAndEmitLocation env :
  preserves P (calculatePositionAndEmitLocation env).
Proof.
  intros p Hp. unfold calculatePositionAndEmitLocation.
  destruct (m_onlinePositioningEnabled p);
    [|apply inv_updateLocationFromCells, Hp].
  set (p1 := match m_mlsdbOnlineLocator p with
             | Some _ => p
             | None => set_m_mlsdbOnlineLocator (Some (m_wlanDataAllowed p)) p
             end).
  assert (P p1) as H1.
  { apply (P_frame p); [|exact Hp]. subst p1. same_fusionState. }
  destruct (findLocation env).
  - simpl. apply (P_frame p1); [reflexivity | exact H1].
  - pose proof (inv_updateLocationFromCells env
      (seenCellIds (m_cellDataAllowed p) (cells env)) p1 H1) as H.
    destruct (updateLocationFromCells _ _ _) as [p2 e]. exact H.
Qed.

Lemma inv_stopPositioningIfNeeded : preserves P stopPositioningIfNeeded.
Proof.
  unfold stopPositioningIfNeeded.
  change (setStatus StatusUnavailable;;
          modify (set_m_fixLostTimer None);;
          modify (set_m_recalculatePositionTimer None)) with stopTail.
  auto 10 with handlers.
Qed.

Lemma inv_startPositioningIfNeeded env :
  preserves P (startPositioningIfNeeded env).
Proof.
  pose proof inv_calculatePositionAndEmitLocation.
  unfold startPositioningIfNeeded. auto 10 with handlers.
Qed.

Lemma inv_updatePositioningEnabled env :
  preserves P (updatePositioningEnabled env).
Proof.
  pose proof inv_startPositioningIfNeeded.
  pose proof inv_stopPositioningIfNeeded.
  unfold updatePositioningEnabled.
  destruct (getEnabled (settings env)) as [[[[[a b] c] d] e] f].
  auto 20 with handlers.
Qed.

Lemma inv_timerEvent_other env t :
  t ≠ FixLostTimer → preserves P (timerEvent env t).
Proof.
  pose proof inv_calculatePositionAndEmitLocation.
  intros Ht p Hp. unfold timerEvent.
  destruct t; [| done | |exact Hp].
  - destruct (isActive _); [|exact Hp]. revert p Hp.
    change (preserves P (modify (set_m_idleTimer None);; emit (λ _, Quit))).
    auto with handlers.
  - destruct (isActive _); [|exact Hp].
    destruct (negb _); [exact Hp|].
    destruct (recalculates _ _); [|apply P_setLocation, Hp].
    revert p Hp.
    change (preserves P (modify (set_m_signalUpdateCell false);;
                         modify (set_m_signalUpdateWlan false);;
                         calculatePositionAndEmitLocation env)).
    auto with handlers.
Qed.

Lemma inv_timerEvent env t : preserves P (timerEvent env t).
Proof.
  destruct t; try (apply inv_timerEvent_other; discriminate).
  intros p Hp. unfold timerEvent.
  destruct (isActive _); [|exact Hp]. apply P_fixLost, Hp.
Qed.

Lemma inv_handle_other env ev :
  ev ≠ TimerEvent FixLostTimer → preserves P (handle env ev).
Proof.
  pose proof inv_startPositioningIfNeeded.
  pose proof inv_stopPositioningIfNeeded.
  intros Hev. destruct ev; simpl.
  - intros p Hp. unfold AddReference.
    set (w := noWatchedServices p). clearbody w. revert p Hp.
    change (preserves P
      (modify (λ p, set_m_watcher (m_watcher p ++ [service]) p);;
       modify (λ p, let d := serviceEntry service p in
                set_m_watchedServices
                  (<[ service := {| referenceCount := to_int (referenceCount d + 1);
                                    updateInterval := updateInterval d |} ]>
                     (m_watchedServices p)) p);;
       (if w then modify (set_m_idleTimer None) else skip);;
       startPositioningIfNeeded env)).
    auto 10 with handlers.
  - unfold RemoveReference. auto 10 with handlers.
  - unfold SetOptions. destruct option_UpdateInterval; auto 10 with handlers.
  - apply preserves_skip.
  - apply preserves_skip.
  - apply inv_timerEvent_other. congruence.
  - unfold onlineWlanChanged. auto with handlers.
  - apply P_setLocation.
  - intros p Hp. apply inv_updateLocationFromCells, Hp.
  - unfold serviceUnregistered. auto 10 with handlers.
  - apply inv_updatePositioningEnabled.
  - unfold cellularNetworkRegistrationChanged. auto with handlers.
Qed.

Lemma inv_handle env ev : preserves P (handle env ev).
Proof.
  destruct ev; try (apply inv_handle_other; discriminate).
  apply inv_timerEvent.
Qed.

Lemma inv_construct env : preserves P (construct env).
Proof.
  pose proof inv_updatePositioningEnabled.
  unfold construct, cellularNetworkRegistrationChanged. auto 10 with handlers.
Qed.

Lemma inv_run trace p : P p → P (run trace p).
Proof.
  revert p. induction trace as [|[env ev] trace IH]; intros p Hp; [exact Hp|].
  simpl. apply IH, inv_handle, Hp.
Qed.

Lemma inv_reachable p : P initial → reachable p → P p.
Proof.
  intros H0. induction 1 as [env|env ev p Hr IH].
  - apply inv_construct, H0.
  - apply inv_handle, IH.
Qed.
End Invariant.

(** ** Properties of the two caches

    Only the resolution of a cell writes to the caches. *)

Ltac unfold_handlers :=
  unfold stopTail, fixLostBranch, setLocation, emitLocationChanged, setStatus,
    seq, branch, modify, emit, skip.

Lemma setLocation_caches l p :
  m_uniqueCellIdToLocation (setLocation l p).1 = m_uniqueCellIdToLocation p
  ∧ m_knownCellIdsWithUnknownLocations (setLocation l p).1
      = m_knownCellIdsWithUnknownLocations p.
Proof. unfold_handlers. repeat case_bool_decide; done. Qed.

Lemma stopTail_caches p :
  m_uniqueCellIdToLocation (stopTail p).1 = m_uniqueCellIdToLocation p
  ∧ m_knownCellIdsWithUnknownLocations (stopTail p).1
      = m_knownCellIdsWithUnknownLocations p.
Proof. unfold_handlers. repeat case_bool_decide; done. Qed.

Lemma fixLostBranch_caches p :
  m_uniqueCellIdToLocation (fixLostBranch p).1 = m_uniqueCellIdToLocation p
  ∧ m_knownCellIdsWithUnknownLocations (fixLostBranch p).1
      = m_knownCellIdsWithUnknownLocations p.
Proof. unfold_handlers. repeat case_bool_decide; done. Qed.

Section Caches.
Variable Q : gmap MlsdbUniqueCellId MlsdbCoords → gset MlsdbUniqueCellId → Prop.
Hypothesis Q_resolveCell :
  ∀ files id p, onCaches Q p → onCaches Q (resolveCell files id p).1.2.

Lemma onCaches_frame p q : fusionState p = fusionState q → onCaches Q p → onCaches Q q.
Proof. unfold fusionState, onCaches. intros [= _ _ -> ->]. done. Qed.

Lemma onCaches_setLocation l : preserves (onCaches Q) (setLocation l).
Proof.
  intros p. unfold onCaches.
  by destruct (setLocation_caches l p) as [-> ->].
Qed.

Lemma onCaches_stopTail : preserves (onCaches Q) stopTail.
Proof.
  intros p. unfold onCaches. by destruct (stopTail_caches p) as [-> ->].
Qed.

Lemma onCaches_fixLostBranch : preserves (onCaches Q) fixLostBranch.
Proof.
  intros p. unfold onCaches. by destruct (fixLostBranch_caches p) as [-> ->].
Qed.

Lemma caches_handle env ev : preserves (onCaches Q) (handle env ev).
Proof.
  apply inv_handle;
    first [exact onCaches_frame | exact Q_resolveCell | exact onCaches_setLocation
          | exact onCaches_stopTail | exact onCaches_fixLostBranch].
Qed.

Lemma caches_run trace p : onCaches Q p → onCaches Q (run trace p).
Proof.
  apply inv_run;
    first [exact onCaches_frame | exact Q_resolveCell | exact onCaches_setLocation
          | exact onCaches_stopTail | exact onCaches_fixLostBranch].
Qed.

Lemma caches_reachable p : onCaches Q initial → reachable p → onCaches Q p.
Proof.
  apply inv_reachable;
    first [exact onCaches_frame | exact Q_resolveCell | exact onCaches_setLocation
          | exact onCaches_stopTail | exact onCaches_fixLostBranch].
Qed.
End Caches.

(** ** The cell location cache *)

Lemma resolveCell_cached files id p r :
  cached id p = Some r → resolveCell files id p = (r, p, []).
Proof.
  unfold cached, cachedIn, resolveCell.
  destruct (m_uniqueCellIdToLocation p !! id) as [c|]; [congruence|].
  case_bool_decide; congruence.
Qed.

Lemma resolveCell_unseen files id p :
  cached id p = None →
  resolveCell files id p =
    (searchForCellIdLocation files id,
     match searchForCellIdLocation files id with
     | Some c =>
         set_m_uniqueCellIdToLocation (<[ id := c ]> (m_uniqueCellIdToLocation p)) p
     | None =>
         set_m_knownCellIdsWithUnknownLocations
           ({[ id ]} ∪ m_knownCellIdsWithUnknownLocations p) p
     end,
     [DatasetLookup id]).
Proof.
  unfold cached, cachedIn, resolveCell.
  destruct (m_uniqueCellIdToLocation p !! id) as [c|]; [congruence|].
  case_bool_decide; [congruence|].
  destruct (searchForCellIdLocation files id); reflexivity.
Qed.

Lemma resolveCell_then_cached files id p :
  cached id (resolveCell files id p).1.2 = Some (resolveCell files id p).1.1.
Proof.
  destruct (cached id p) as [r|] eqn:Hc.
  - rewrite (resolveCell_cached _ _ _ _ Hc). exact Hc.
  - rewrite (resolveCell_unseen _ _ _ Hc). unfold cached, cachedIn in *. simpl.
    destruct (m_uniqueCellIdToLocation p !! id) as [c|] eqn:Hpos; [congruence|].
    destruct (searchForCellIdLocation files id) as [c|]; simpl.
    + by rewrite lookup_insert_eq.
    + rewrite Hpos. rewrite bool_decide_eq_true_2; [done | set_solver].
Qed.

Lemma resolveCell_keeps_cached files id' id r p :
  cached id p = Some r → cached id (resolveCell files id' p).1.2 = Some r.
Proof.
  intros Hc. destruct (cached id' p) as [r'|] eqn:Hc'.
  - rewrite (resolveCell_cached _ _ _ _ Hc'). exact Hc.
  - rewrite (resolveCell_unseen _ _ _ Hc').
    assert (id' ≠ id) as Hne by (intros ->; congruence).
    unfold cached, cachedIn in *. simpl.
    destruct (searchForCellIdLocation files id') as [c|]; simpl.
    + rewrite lookup_insert_ne; [exact Hc | exact Hne].
    + destruct (m_uniqueCellIdToLocation p !! id); [exact Hc|].
      destruct (decide (id ∈ m_knownCellIdsWithUnknownLocations p)) as [Hin|Hin].
      * rewrite bool_decide_eq_true_2 in Hc by exact Hin.
        rewrite bool_decide_eq_true_2; [exact Hc | set_solver].
      * rewrite bool_decide_eq_false_2 in Hc by exact Hin. discriminate.
Qed.

Lemma resolveCell_exclusive files id p :
  exclusive p → exclusive (resolveCell files id p).1.2.
Proof.
  intros Hex. destruct (cached id p) as [r|] eqn:Hc.
  - by rewrite (resolveCell_cached _ _ _ _ Hc).
  - rewrite (resolveCell_unseen _ _ _ Hc). unfold cached, cachedIn in Hc.
    destruct (m_uniqueCellIdToLocation p !! id) as [c|] eqn:Hpos; [congruence|].
    case_bool_decide as Hin; [congruence|].
    destruct (searchForCellIdLocation files id) as [c|];
      intros id2 [Hsome Hneg]; simpl in Hsome, Hneg.
    + destruct (decide (id = id2)) as [Heq|Hne]; [congruence|].
      rewrite lookup_insert_ne in Hsome by exact Hne.
      apply (Hex id2). split; assumption.
    + destruct (decide (id = id2)) as [Heq|Hne].
      * rewrite <- Heq, Hpos in Hsome. by destruct Hsome.
      * apply (Hex id2). split; [assumption|].
        apply elem_of_union in Hneg as [Hs|Hn]; [|exact Hn].
        apply elem_of_singleton in Hs. congruence.
Qed.

Lemma run_keeps_cached trace id r p :
  cached id p = Some r → cached id (run trace p) = Some r.
Proof.
  apply (caches_run (λ pos neg, cachedIn id pos neg = Some r)).
  intros files id' q. apply resolveCell_keeps_cached.
Qed.

Lemma reachable_run trace p : reachable p → reachable (run trace p).
Proof.
  revert p. induction trace as [|[env ev] trace IH]; intros p Hp; [exact Hp|].
  simpl. apply IH. constructor. exact Hp.
Qed.

(** C5.  Resolving a cell identity a second time, after a first resolution
    with any outcome and after any events handled in between, probes the
    data set no more, changes nothing and returns what the first resolution
    returned, whatever the data files then hold.  The first resolution of
    an identity that is in neither cache makes exactly one probe and returns
    its result; a found location is inserted into the positive cache, a
    failure inserts the identity into the negative cache; an identity that
    is in a cache is resolved without a probe. *)
Theorem resolve_twice :
  ∀ (files1 files2 : list DataFile) (id : MlsdbUniqueCellId)
    (p : YandexProvider) (trace : list (Env * Event)),
    let first := resolveCell files1 id p in
    let between := run trace first.1.2 in
    let second := resolveCell files2 id between in
    (second.1.1 = first.1.1 ∧ lookups second.2 = [] ∧ second.1.2 = between)
    ∧ (cached id p = None →
       first.2 = [DatasetLookup id]
       ∧ first.1.1 = searchForCellIdLocation files1 id
       ∧ match searchForCellIdLocation files1 id with
         | Some c =>
             m_uniqueCellIdToLocation first.1.2
               = <[ id := c ]> (m_uniqueCellIdToLocation p)
             ∧ m_knownCellIdsWithUnknownLocations first.1.2
                 = m_knownCellIdsWithUnknownLocations p
         | None =>
             m_knownCellIdsWithUnknownLocations first.1.2
               = {[ id ]} ∪ m_knownCellIdsWithUnknownLocations p
             ∧ m_uniqueCellIdToLocation first.1.2 = m_uniqueCellIdToLocation p
         end)
    ∧ (cached id p ≠ None → first.2 = [] ∧ first.1.2 = p).
Proof.
  intros files1 files2 id p trace first between second.
  split; [|split].
  - assert (cached id between = Some first.1.1) as Hc.
    { apply run_keeps_cached, resolveCell_then_cached. }
    subst second. rewrite (resolveCell_cached _ _ _ _ Hc). done.
  - intros Hc. subst first. rewrite (resolveCell_unseen _ _ _ Hc). simpl.
    split; [done|]. split; [done|].
    destruct (searchForCellIdLocation files1 id); done.
  - intros Hc. destruct (cached id p) as [r|] eqn:Hr; [|done].
    subst first. rewrite (resolveCell_cached _ _ _ _ Hr). done.
Qed.

Lemma resolve_twice_witness :
  (resolveCell [] (example_id 2)
     (run [(example_env 1000, CallAddReference ":1.42")]
        (resolveCell [example_file] (example_id 2) initial).1.2)).1.1
  = (resolveCell [example_file] (example_id 2) initial).1.1.
Proof.
  exact (proj1 (proj1
    (resolve_twice [example_file] [] (example_id 2) initial
       [(example_env 1000, CallAddReference ":1.42")]))).
Defined.

(** C6.  In every state the object can reach, no cell identity is in both
    the positive and the negative cache, and every event handled in a state
    with that property leads to a state with that property. *)
Theorem caches_exclusive :
  (∀ p : YandexProvider, reachable p → exclusive p)
  ∧ (∀ (env : Env) (ev : Event) (p : YandexProvider),
       exclusive p → exclusive (fst (handle env ev p))).
Proof.
  assert (∀ files id p,
    onCaches disjointCaches p →
    onCaches disjointCaches (resolveCell files id p).1.2) as Hstep.
  { intros files id p. apply resolveCell_exclusive. }
  split.
  - intros p Hr.
    apply (caches_reachable _ Hstep p); [|exact Hr].
    intros id [Hsome _]. simpl in Hsome. rewrite lookup_empty in Hsome.
    by destruct Hsome.
  - intros env ev p. apply (caches_handle _ Hstep env ev p).
Qed.

Lemma caches_exclusive_witness : exclusive after_first_scan.
Proof.
  exact (proj1 caches_exclusive after_first_scan
           (reachable_run _ _ (reachable_construct (example_env 0)))).
Defined.

(** ** Triangulation *)

Lemma resolveCell_resolution files id p :
  (resolveCell files id p).1.1 = resolution files p id.
Proof.
  unfold resolution. destruct (cached id p) as [r|] eqn:Hc.
  - by rewrite (resolveCell_cached _ _ _ _ Hc).
  - by rewrite (resolveCell_unseen _ _ _ Hc).
Qed.

Lemma resolveCell_other files id' id p :
  id' ≠ id → cached id (resolveCell files id' p).1.2 = cached id p.
Proof.
  intros Hne. destruct (cached id' p) as [r'|] eqn:Hc'.
  - by rewrite (resolveCell_cached _ _ _ _ Hc').
  - rewrite (resolveCell_unseen _ _ _ Hc'). unfold cached, cachedIn.
    destruct (searchForCellIdLocation files id') as [c|]; simpl.
    + by rewrite lookup_insert_ne.
    + destruct (m_uniqueCellIdToLocation p !! id); [done|].
      apply f_equal with (f := λ b : bool, if b then Some None else None).
      apply bool_decide_ext. rewrite elem_of_union, elem_of_singleton.
      split; [intros [Heq|Hin]; [congruence | exact Hin] | tauto].
Qed.

Lemma resolution_resolveCell files id' id p :
  resolution files (resolveCell files id' p).1.2 id = resolution files p id.
Proof.
  destruct (decide (id' = id)) as [->|Hne].
  - unfold resolution at 1. rewrite resolveCell_then_cached.
    apply resolveCell_resolution.
  - unfold resolution. by rewrite resolveCell_other.
Qed.

(** What the first loop of [updateLocationFromCells] computes. *)
Lemma locate_spec files p cells :
  let r := locate files cells p in
  (∀ id, resolution files (loop_provider r) id = resolution files p id)
  ∧ totalSignalStrength r = sumStrength (resolvedObservations files p cells)
  ∧ (∀ id, cellLocations r !! id =
           if bool_decide (id ∈ uniqueCellId <$> cells)
           then resolution files p id else None)
  ∧ (NoDup (uniqueCellId <$> cells) →
     size (cellLocations r) = length (resolvedObservations files p cells)).
Proof.
  unfold locate, resolvedObservations, sumStrength.
  induction cells as [|cell cells IH] using rev_ind.
  - simpl. repeat split; done.
  - rewrite fold_left_app, omap_app, fold_left_app, fmap_app. simpl.
    set (r := fold_left (locate_step files) cells (mkLocateLoop 0 ∅ p [])) in *.
    simpl in IH. destruct IH as (Hres & Htot & Hloc & Hsize).
    unfold locate_step.
    pose proof (resolveCell_resolution files (uniqueCellId cell) (loop_provider r)) as Hr.
    pose proof (λ id, resolution_resolveCell files (uniqueCellId cell) id (loop_provider r))
      as Hafter.
    destruct (resolveCell files (uniqueCellId cell) (loop_provider r)) as [[res p'] e].
    simpl in Hr, Hafter. rewrite Hres in Hr.
    assert (observation files p cell = (λ c, (c, signalStrength cell)) <$> res)
      as Hobs by (unfold observation; by rewrite Hr).
    rewrite Hobs. clear Hobs.
    destruct res as [c|]; simpl.
    + split; [intros id; by rewrite Hafter|].
      split; [by rewrite Htot|].
      split.
      * intros id. destruct (decide (uniqueCellId cell = id)) as [<-|Hne].
        -- rewrite lookup_insert_eq.
           rewrite bool_decide_eq_true_2 by set_solver. by rewrite <- Hr.
        -- rewrite lookup_insert_ne by exact Hne. rewrite Hloc.
           apply f_equal with (f := λ b : bool, if b then resolution files p id else None).
           apply bool_decide_ext. set_solver.
      * intros Hnd. apply NoDup_app in Hnd as (Hnd & Hnotin & _).
        rewrite length_app. simpl.
        rewrite map_size_insert_None.
        -- rewrite Hsize by exact Hnd. lia.
        -- rewrite Hloc. rewrite bool_decide_eq_false_2; [done|].
           intros Hin. apply (Hnotin _ Hin). set_solver.
    + split; [intros id; by rewrite Hafter|].
      split; [exact Htot|].
      split.
      * intros id. rewrite Hloc.
        destruct (decide (uniqueCellId cell = id)) as [<-|Hne].
        -- rewrite <- Hr. rewrite (bool_decide_eq_true_2 (_ ∈ _ ++ _)) by set_solver.
           by destruct (bool_decide _).
        -- apply f_equal with (f := λ b : bool, if b then resolution files p id else None).
           apply bool_decide_ext. set_solver.
      * intros Hnd. apply NoDup_app in Hnd as (Hnd & _ & _).
        rewrite length_app. simpl. rewrite Hsize by exact Hnd. lia.
Qed.

Lemma triangulate_fold files p total locations cells (a b : double) :
  (∀ cell, cell ∈ cells →
     locations !! uniqueCellId cell = resolution files p (uniqueCellId cell)) →
  fold_left (triangulate_step total locations) cells (a, b) =
    (fold_left (λ a o, (a + (double_of_Z o.2 / total) * lat o.1)%float)
       (resolvedObservations files p cells) a,
     fold_left (λ a o, (a + (double_of_Z o.2 / total) * lon o.1)%float)
       (resolvedObservations files p cells) b).
Proof.
  unfold resolvedObservations.
  revert a b. induction cells as [|cell cells IH]; intros a b Hloc; [done|].
  assert (∀ cell', cell' ∈ cells →
    locations !! uniqueCellId cell' = resolution files p (uniqueCellId cell')) as Hloc'.
  { intros cell' Hin. apply Hloc. apply elem_of_cons. by right. }
  assert (locations !! uniqueCellId cell = resolution files p (uniqueCellId cell))
    as Hcell by (apply Hloc, elem_of_cons; by left).
  assert (observation files p cell =
          (λ c, (c, signalStrength cell)) <$> locations !! uniqueCellId cell)
    as Hobs by (unfold observation; by rewrite Hcell).
  simpl. rewrite Hobs. unfold triangulate_step at 2.
  destruct (locations !! uniqueCellId cell) as [c|]; simpl; by apply IH.
Qed.

(** What the second loop computes, given a map that answers like the
    resolution for every cell of the list. *)
Lemma triangulate_spec files p total locations cells :
  (∀ cell, cell ∈ cells →
     locations !! uniqueCellId cell = resolution files p (uniqueCellId cell)) →
  triangulate total locations cells =
    (weightedCentroid lat total (resolvedObservations files p cells),
     weightedCentroid lon total (resolvedObservations files p cells)).
Proof. apply triangulate_fold. Qed.

Lemma calculatedAccuracy_spec (n : Z) :
  0 ≤ n ≤ 2147483 →
  calculatedAccuracy n = Z.max MinimumCalculatedAccuracy (10000 - 1000 * n).
Proof.
  intros Hn. unfold calculatedAccuracy, to_int.
  rewrite (Z.mod_small (1000 * n + 2147483648)) by lia.
  rewrite Z.mod_small by lia. f_equal. lia.
Qed.

Lemma locate_nonempty files p cells :
  resolvedObservations files p cells ≠ [] →
  size (cellLocations (locate files cells p)) ≠ 0%nat.
Proof.
  intros Hobs Hsize. apply map_size_empty_iff in Hsize.
  destruct (resolvedObservations files p cells) as [|o obs] eqn:Ho; [done|].
  assert (o ∈ resolvedObservations files p cells) as Hin
    by (rewrite Ho; apply elem_of_cons; by left).
  apply list_elem_of_omap in Hin as (cell & Hcell & Hsome).
  destruct (locate_spec files p cells) as (_ & _ & Hloc & _).
  specialize (Hloc (uniqueCellId cell)). rewrite Hsize, lookup_empty in Hloc.
  rewrite bool_decide_eq_true_2 in Hloc
    by (by apply list_elem_of_fmap_2).
  unfold observation in Hsome. rewrite <- Hloc in Hsome. discriminate.
Qed.

(** The candidate fix of [updateLocationFromCells] in terms of the resolved
    observations. *)
Lemma deviceLocation_spec files p cells stamp :
  let obs := resolvedObservations files p cells in
  let r := locate files cells p in
  obs ≠ [] →
  deviceLocation stamp (totalSignalStrength r) (cellLocations r) cells =
    {| timestamp := stamp;
       latitude := weightedCentroid lat (sumStrength obs) obs;
       longitude := weightedCentroid lon (sumStrength obs) obs;
       altitude := PrimFloat.nan;
       accuracy :=
         {| horizontal :=
              double_of_Z (calculatedAccuracy (Z.of_nat (size (cellLocations r))));
            vertical := PrimFloat.nan |} |}.
Proof.
  intros obs r Hobs. unfold deviceLocation.
  rewrite bool_decide_eq_true_2 by (by apply locate_nonempty).
  destruct (locate_spec files p cells) as (_ & Htot & Hloc & _).
  fold r in Htot, Hloc.
  rewrite (triangulate_spec files p).
  - simpl. by rewrite Htot.
  - intros cell Hin. rewrite Hloc.
    rewrite bool_decide_eq_true_2; [done|].
    by apply list_elem_of_fmap_2.
Qed.

Lemma updateLocationFromCells_arbitrates env p cells :
  resolvedObservations (files env) p cells ≠ [] →
  updateLocationFromCells env cells p =
    let r := locate (files env) cells p in
    let fix_ := arbitrate (clock_check env)
      (deviceLocation (clock_stamp env) (totalSignalStrength r) (cellLocations r) cells)
      (loop_provider r) in
    (fix_.1, loop_effects r ++ fix_.2).
Proof.
  intros Hobs. unfold updateLocationFromCells.
  rewrite bool_decide_eq_false_2 by (by apply locate_nonempty).
  simpl. by destruct (arbitrate _ _ _).
Qed.

(** ** The example of the spec *)

Lemma example_three_cells_range :
  Forall (λ s, near_ten_thirds
                 (m_currentLocation
                    (fst (updateLocationFromCells (example_env 5000) (three_cells s) initial))))
    (seqZ 1 100).
Proof.
  repeat (constructor; [vm_compute; repeat split; reflexivity|]).
  constructor.
Qed.

(** C1.  For every list of cell observations with pairwise distinct
    identities of which at least one resolves (and at most 2147483, the
    range in which the [int] expression of the accuracy does not overflow),
    the fix that [updateLocationFromCells] computes and hands to the
    arbitration has, as latitude, the sum over the resolved cells of
    (signalStrength / totalSignalStrength) * cellLatitude, the longitude
    likewise, and the horizontal accuracy max(2500, 10000 - 1000 * count).
    The sums, quotients and products are those of doubles, taken in list
    order.  For the three cells at (0,0), (0,10) and (10,0) observed with
    any equal strength from 1 to 100 the adopted fix has latitude and
    longitude 3.333333333333333, the double 7505999378950826 * 2^-51, which
    is less than 2^-51 away from 10/3, and accuracy 7000. *)
Theorem triangulation_weighted_centroid :
  (∀ (env : Env) (p : YandexProvider) (cells : list CellPositioningData),
     let obs := resolvedObservations (files env) p cells in
     let r := locate (files env) cells p in
     let candidate :=
       deviceLocation (clock_stamp env) (totalSignalStrength r) (cellLocations r) cells in
     NoDup (uniqueCellId <$> cells) →
     obs ≠ [] →
     Z.of_nat (length obs) ≤ 2147483 →
     updateLocationFromCells env cells p =
       ((arbitrate (clock_check env) candidate (loop_provider r)).1,
        loop_effects r ++ (arbitrate (clock_check env) candidate (loop_provider r)).2)
     ∧ timestamp candidate = clock_stamp env
     ∧ latitude candidate = weightedCentroid lat (sumStrength obs) obs
     ∧ longitude candidate = weightedCentroid lon (sumStrength obs) obs
     ∧ horizontal (accuracy candidate) =
         double_of_Z (Z.max 2500 (10000 - 1000 * Z.of_nat (length obs))))
  ∧ (∀ s : Z, 1 ≤ s ≤ 100 →
       near_ten_thirds
         (m_currentLocation
            (fst (updateLocationFromCells (example_env 5000) (three_cells s) initial)))).
Proof.
  split.
  - intros env p cells obs r candidate Hnd Hobs Hlen.
    split; [by apply updateLocationFromCells_arbitrates|].
    subst candidate r. rewrite deviceLocation_spec by exact Hobs. simpl.
    repeat split.
    destruct (locate_spec (files env) p cells) as (_ & _ & _ & Hsize).
    rewrite (Hsize Hnd). fold obs.
    rewrite calculatedAccuracy_spec by lia. reflexivity.
  - intros s Hs.
    pose proof example_three_cells_range as Hall.
    rewrite Forall_forall in Hall. apply Hall.
    apply elem_of_seqZ. lia.
Qed.

Lemma triangulation_weighted_centroid_witness :
  latitude
    (deviceLocation 5000
       (totalSignalStrength (locate [example_file] (three_cells 7) initial))
       (cellLocations (locate [example_file] (three_cells 7) initial))
       (three_cells 7))
  = weightedCentroid lat
      (sumStrength (resolvedObservations [example_file] initial (three_cells 7)))
      (resolvedObservations [example_file] initial (three_cells 7)).
Proof.
  refine (proj1 (proj2 (proj2
    (proj1 triangulation_weighted_centroid (example_env 5000) initial (three_cells 7)
       _ _ _)))).
  - vm_compute. repeat constructor; set_solver.
  - vm_compute. discriminate.
  - vm_compute. discriminate.
Defined.

(** ** Zero total signal strength *)





(** ** Adopting a fix *)

Lemma setLocation_spec (l : Location) (p : YandexProvider) :
  let r := setLocation l p in
  m_currentLocation r.1 = l
  ∧ m_status r.1 = (if bool_decide (timestamp l ≠ 0) then StatusAvailable else m_status p)
  ∧ m_fixLostTimer r.1
      = (if bool_decide (timestamp l ≠ 0) then Some FixTimeout else m_fixLostTimer p)
  ∧ m_lastLocation r.1
      = (if bool_decide (timestamp l ≠ 0) then m_currentLocation p else Location_default)
  ∧ r.2 = (if bool_decide (timestamp l ≠ 0) && negb (bool_decide (m_status p = StatusAvailable))
           then [StatusChanged StatusAvailable] else [])
          ++ [positionChanged l].
Proof. unfold_handlers. repeat case_bool_decide; done. Qed.

Lemma arbitrate_spec (check : Z) (candidate : Location) (p : YandexProvider) :
  arbitrate check candidate p =
    setLocation (if keepsCurrent check (m_currentLocation p) candidate
                 then m_currentLocation p else candidate) p.
Proof. unfold arbitrate, branch. by destruct (keepsCurrent _ _ _). Qed.


(** ** Zero total signal strength: the fix *)




(** ** The boundary of the arbitration *)

(** C2, at the input where the code leaves the claim.  The held fix is
    valid, stamped 1000 ms, with accuracy 2500.  At clock 121000 ms, when
    its age is exactly [FallbackInterval] and so does not exceed it, the
    online lookup fails and the offline candidate from one cell has accuracy
    9000, which is not less than or equal to 2500.  The candidate is adopted
    all the same; one millisecond earlier the held fix is retained and
    emitted again. *)
Theorem arbitration_at_fallback_boundary :
  let at_boundary :=
    handle (example_env_watching 121000 [example_watched 2 20]) OnlineLocationError
      holding_online_fix in
  let before :=
    handle (example_env_watching 120999 [example_watched 2 20]) OnlineLocationError
      holding_online_fix in
  timestamp (m_currentLocation holding_online_fix) = 1000
  ∧ horizontal (accuracy (m_currentLocation holding_online_fix)) = 2500%float
  ∧ to_qint64 (121000 - timestamp (m_currentLocation holding_online_fix)) = FallbackInterval
  ∧ (9000 <=? 2500)%float = false
  ∧ m_currentLocation at_boundary.1
      = {| timestamp := 121000; latitude := 0; longitude := 10;
           altitude := PrimFloat.nan;
           accuracy := {| horizontal := 9000; vertical := PrimFloat.nan |} |}
  ∧ m_currentLocation before.1 = m_currentLocation holding_online_fix
  ∧ last before.2 = Some (positionChanged (m_currentLocation holding_online_fix)).
Proof. vm_compute. repeat split; reflexivity. Qed.




(** ** The recomputation interval *)

Lemma minimumInterval_fold (l : list ServiceData) (a : Z) :
  Forall (λ d, 0 < referenceCount d) l →
  fold_left minimumInterval_step l a = fold_left Z.min (requestedIntervals l) a.
Proof.
  unfold requestedIntervals.
  intros Hall. revert a. induction Hall as [|d l Hd _ IH]; intros a; [done|].
  simpl. unfold minimumInterval_step at 2.
  rewrite (proj2 (Z.leb_gt _ _) Hd).
  rewrite filter_cons. destruct (decide (updateInterval d ≠ 0)) as [Hnz|Hz].
  - rewrite (proj2 (Z.eqb_neq _ _) Hnz). simpl. apply IH.
  - assert (updateInterval d = 0) as -> by lia. simpl. apply IH.
Qed.

Lemma fold_min_le (l : list Z) (a : Z) :
  fold_left Z.min l a ≤ a ∧ Forall (λ x, fold_left Z.min l a ≤ x) l.
Proof.
  revert a. induction l as [|x l IH]; intros a; simpl; [split; [lia | constructor]|].
  destruct (IH (Z.min a x)) as [Hle Hall]. split; [lia|].
  constructor; [lia | exact Hall].
Qed.

Lemma fold_min_in (l : list Z) (a : Z) :
  fold_left Z.min l a = a ∨ fold_left Z.min l a ∈ l.
Proof.
  revert a. induction l as [|x l IH]; intros a; simpl; [by left|].
  destruct (IH (Z.min a x)) as [Heq|Hin].
  - rewrite Heq. destruct (Z.min_spec a x) as [[_ ->]|[_ ->]];
      [by left | right; apply elem_of_cons; by left].
  - right. apply elem_of_cons. by right.
Qed.

(** On a table whose entries all have a positive reference count and a
    requested interval below [UINT_MAX], the function returns
    [MinimumInterval] when no interval is requested, and otherwise the least
    requested non-zero interval, raised to [MinimumInterval]. *)
Lemma minimumRequestedUpdateInterval_spec (services : gmap string ServiceData) :
  let requested := requestedIntervals (snd <$> map_to_list services) in
  map_Forall (λ _ d, 0 < referenceCount d ∧ updateInterval d < UINT_MAX) services →
  (requested = [] → minimumRequestedUpdateInterval services = MinimumInterval)
  ∧ (requested ≠ [] →
     ∃ m, m ∈ requested ∧ Forall (λ x, m ≤ x) requested
          ∧ minimumRequestedUpdateInterval services = Z.max m MinimumInterval).
Proof.
  intros requested Hall.
  assert (Forall (λ d, 0 < referenceCount d ∧ updateInterval d < UINT_MAX)
            (snd <$> map_to_list services)) as Hl.
  { apply Forall_fmap, Forall_forall. intros [k d] Hin.
    apply elem_of_map_to_list in Hin. exact (Hall k d Hin). }
  unfold minimumRequestedUpdateInterval, minimumInterval_loop.
  rewrite minimumInterval_fold by (eapply Forall_impl; [exact Hl | by intros d [? _]]).
  fold requested.
  assert (Forall (λ x, x < UINT_MAX) requested) as Hlt.
  { subst requested. unfold requestedIntervals.
    apply Forall_forall. intros x Hx.
    apply list_elem_of_filter in Hx as [_ Hx].
    apply list_elem_of_fmap in Hx as (d & -> & Hd).
    rewrite Forall_forall in Hl. by destruct (Hl d Hd). }
  split.
  - intros ->. reflexivity.
  - intros Hne. destruct (fold_min_in requested UINT_MAX) as [Heq|Hin].
    + destruct requested as [|x l]; [done|].
      destruct (fold_min_le (x :: l) UINT_MAX) as [_ Hle].
      apply Forall_cons in Hle as [Hle _]. apply Forall_cons in Hlt as [Hlt _]. lia.
    + exists (fold_left Z.min requested UINT_MAX).
      split; [exact Hin|]. split; [apply fold_min_le|].
      rewrite Forall_forall in Hlt. specialize (Hlt _ Hin).
      by rewrite (proj2 (Z.eqb_neq _ _)) by lia.
Qed.

(** The example of the spec: requests of 0, 5000 and 50000 ms. *)
Lemma interval_floor_example :
  minimumRequestedUpdateInterval
    (<[ "a" := mkServiceData 1 0 ]>
       (<[ "b" := mkServiceData 1 5000 ]>
          (<[ "c" := mkServiceData 1 50000 ]> ∅)))
  = 10000.
Proof. vm_compute. reflexivity. Qed.

(** C7, at the input where the code leaves the claim.  The only subscriber
    requests 4294967295 ms, which is not zero; the minimum of the non-zero
    requests floored at [MinimumInterval] is 4294967295, and the function
    returns 10000: the value is the one the loop starts from, and line 736
    takes it for the absence of a request. *)
Theorem interval_of_largest_request :
  m_watchedServices patient_client
    = {[ ":1.42" := {| referenceCount := 1; updateInterval := 4294967295 |} ]}
  ∧ requestedIntervals (snd <$> map_to_list (m_watchedServices patient_client))
      = [4294967295]
  ∧ Z.max 4294967295 MinimumInterval = 4294967295
  ∧ minimumRequestedUpdateInterval (m_watchedServices patient_client) = 10000
  ∧ m_recalculatePositionTimer patient_client = Some 10000.
Proof.
  assert (m_watchedServices patient_client
    = {[ ":1.42" := {| referenceCount := 1; updateInterval := 4294967295 |} ]}) as H.
  { apply map_eq. intros k.
    destruct (decide (k = ":1.42")) as [->|Hne].
    - rewrite lookup_singleton_eq. vm_compute. reflexivity.
    - rewrite lookup_singleton_ne by done.
      change (m_watchedServices patient_client)
        with (<[ ":1.42" := {| referenceCount := 1; updateInterval := 4294967295 |} ]>
                (<[ ":1.42" := {| referenceCount := 1; updateInterval := 0 |} ]>
                   (∅ : gmap string ServiceData))).
      by rewrite !lookup_insert_ne, lookup_empty by done. }
  split; [exact H|].
  split; [vm_compute; reflexivity|].
  split; [reflexivity|].
  split; vm_compute; reflexivity.
Qed.

(** ** SetOptions *)


Lemma to_int_quint32 (m : Z) :
  0 ≤ m ≤ UINT_MAX →
  (m ≤ INT_MAX → to_int m = m)
  ∧ (INT_MAX < m → to_int m = m - 4294967296 ∧ to_int m < 0).
Proof.
  unfold UINT_MAX, INT_MAX, to_int. intros Hm. split; intros H.
  - rewrite Z.mod_small by lia. lia.
  - assert ((m + 2147483648) mod 4294967296 = m + 2147483648 - 4294967296) as ->
      by (symmetry; apply (Z.mod_unique_pos _ _ 1); lia).
    lia.
Qed.

Lemma minimumInterval_step_le (l : list ServiceData) (a : Z) :
  fold_left minimumInterval_step l a ≤ a.
Proof.
  revert a. induction l as [|d l IH]; intros a; [simpl; lia|].
  simpl. etrans; [apply IH|]. unfold minimumInterval_step.
  destruct (referenceCount d <=? 0); [lia|].
  destruct (updateInterval d =? 0); lia.
Qed.

(** The value [minimumRequestedUpdateInterval] returns is between
    [MinimumInterval] and [UINT_MAX]. *)
Lemma minimumRequestedUpdateInterval_range (services : gmap string ServiceData) :
  MinimumInterval ≤ minimumRequestedUpdateInterval services ≤ UINT_MAX.
Proof.
  unfold minimumRequestedUpdateInterval, minimumInterval_loop.
  pose proof (minimumInterval_step_le (snd <$> map_to_list services) UINT_MAX) as Hle.
  destruct (_ =? UINT_MAX); [done|].
  split; [apply Z.le_max_r | apply Z.max_lub; [exact Hle | done]].
Qed.



(** ** The fix-lost timer *)



Lemma fixLostBranch_spec p :
  fixLostBranch p =
    (set_m_status StatusAcquiring (set_m_fixLostTimer None p),
     if bool_decide (m_status p = StatusAcquiring) then []
     else [StatusChanged StatusAcquiring]).
Proof.
  unfold_handlers. simpl. case_bool_decide as H; [|done].
  f_equal. destruct p. simpl in *. by rewrite H.
Qed.








(** ** Gathering the observations *)

Lemma seenCellIds_loop (watched : list QOfonoExtCell) :
  let acc := fold_left seenCellIds_step watched (mkSeenLoop [] 1 ∅) in
  NoDup (uniqueCellId <$> loop_cells acc)
  ∧ (∀ id, id ∈ (uniqueCellId <$> loop_cells acc) ↔ id ∈ loop_seenCellIds acc)
  ∧ (∀ id, id ∈ loop_seenCellIds acc ↔ ∃ c, c ∈ watched ∧ cell_identity c = Some id).
Proof.
  induction watched as [|c watched IH] using rev_ind.
  - simpl. split; [constructor|]. split.
    + intros id. split; [intros H; by apply elem_of_nil in H | intros H; set_solver].
    + intros id. split; [intros H; set_solver|].
      intros (c & Hc & _). by apply elem_of_nil in Hc.
  - rewrite fold_left_app. simpl.
    set (acc := fold_left seenCellIds_step watched (mkSeenLoop [] 1 ∅)) in *.
    simpl in IH. destruct IH as (Hnd & Hcells & Hseen).
    assert (∀ id, (∃ c', c' ∈ watched ++ [c] ∧ cell_identity c' = Some id)
                  ↔ id ∈ loop_seenCellIds acc ∨ cell_identity c = Some id) as Hext.
    { intros id. rewrite Hseen. split.
      - intros (c' & Hin & Hid). apply elem_of_app in Hin as [Hin|Hin].
        + left. by exists c'.
        + apply list_elem_of_singleton in Hin as ->. by right.
      - intros [(c' & Hin & Hid)|Hid].
        + exists c'. split; [apply elem_of_app; by left | exact Hid].
        + exists c. split; [apply elem_of_app; right; by apply list_elem_of_singleton
                           | exact Hid]. }
    unfold seenCellIds_step.
    destruct (cell_identity c) as [id|] eqn:Hid.
    + case_bool_decide as Hin; simpl.
      * split; [exact Hnd|]. split; [exact Hcells|].
        intros id'. rewrite Hext. split; [tauto|].
        intros [H|[= <-]]; [exact H | exact Hin].
      * rewrite fmap_app. simpl. split.
        -- apply NoDup_app. split; [exact Hnd|]. split; [|apply NoDup_singleton].
           intros id' Hin' Heq. apply list_elem_of_singleton in Heq as ->.
           by apply Hin, Hcells.
        -- split.
           ++ intros id'. rewrite elem_of_app, list_elem_of_singleton, Hcells.
              rewrite elem_of_union, elem_of_singleton. tauto.
           ++ intros id'. rewrite Hext, elem_of_union, elem_of_singleton.
              split; [intros [->|H]; [by right | by left]
                     | intros [H|[= <-]]; [by right | by left]].
    + split; [exact Hnd|]. split; [exact Hcells|].
      intros id'. rewrite Hext. split; [tauto | intros [H|H]; [exact H | discriminate]].
Qed.

(** A reported cell has no identity exactly when both its cell ids are the
    invalid value or 0, or its mobile country code is 0 as a [quint16]. *)
Lemma cell_identity_None (c : QOfonoExtCell) :
  cell_identity c = None
  ↔ ((cell_cid c = InvalidValue ∨ cell_cid c = 0)
     ∧ (cell_ci c = InvalidValue ∨ cell_ci c = 0))
    ∨ to_quint16 (cell_mcc c) = 0.
Proof.
  unfold cell_identity.
  destruct (decide (cell_cid c = InvalidValue));
    destruct (decide (cell_cid c = 0));
    destruct (decide (cell_ci c = InvalidValue));
    destruct (decide (cell_ci c = 0));
    destruct (decide (to_quint16 (cell_mcc c) = 0));
    repeat (rewrite ?bool_decide_eq_true_2, ?bool_decide_eq_false_2 by tauto);
    simpl; split; try discriminate; try tauto.
Qed.

(** A reported cell without an identity changes nothing of the list. *)
Lemma seenCellIds_without_identity (c : QOfonoExtCell) (before after : list QOfonoExtCell)
    (allowed : bool) :
  cell_identity c = None →
  seenCellIds allowed (before ++ c :: after) = seenCellIds allowed (before ++ after).
Proof.
  intros Hnone. unfold seenCellIds. destruct allowed; simpl; [|done].
  rewrite !fold_left_app. simpl. unfold seenCellIds_step at 2. by rewrite Hnone.
Qed.

(** A cell that reports a cell id and no mobile country code is observed,
    with the country code 65535. *)
Lemma seenCellIds_without_mcc (c : QOfonoExtCell) :
  cell_mcc c = InvalidValue → cell_cid c ≠ InvalidValue → cell_cid c ≠ 0 →
  seenCellIds true [c]
  = [mkCell (mkUniqueCellId (cellType_of c) (to_quint32 (cell_cid c))
               (to_quint32 (cell_lac c)) 65535 (to_quint16 (cell_mnc c)))
       (to_quint32 (cell_signalStrength c))].
Proof.
  intros Hmcc Hcid Hzero. unfold seenCellIds. simpl.
  unfold seenCellIds_step, cell_identity. rewrite Hmcc.
  rewrite (bool_decide_eq_true_2 _ Hcid), (bool_decide_eq_true_2 _ Hzero).
  change (to_quint16 InvalidValue) with 65535. simpl.
  rewrite bool_decide_eq_false_2 by set_solver. reflexivity.
Qed.

(** C10, at the input where the code leaves the claim.  The modem reports
    one GSM cell with cell id 5, location area code 7, network code 1 and
    no mobile country code: its [mcc()] is [QOfonoExtCell::InvalidValue],
    the value that lines 393 and 396 take for an absent cell id.  Line 384
    converts it to the [quint16] 65535, which is not 0: the cell passes the
    test of line 393 and is observed, with the country code 65535, where the
    claim leaves it out.  It is so for every reported cell that has a cell
    id and no country code.  The rest of the claim holds: the identities of
    the observations are pairwise distinct and are those of the reported
    cells that have one, a reported cell whose [cid] and [ci] are both the
    invalid value or 0 changes nothing of the list, as does one whose
    country code is 0, and the list is empty when cell data is not
    allowed. *)
Theorem seenCellIds_keeps_absent_mcc :
  let c := {| cell_type := CellGSM; cell_mcc := InvalidValue; cell_mnc := 1;
              cell_cid := 5; cell_lac := 7; cell_ci := InvalidValue;
              cell_tac := InvalidValue; cell_signalStrength := 20 |} in
  cell_mcc c = InvalidValue
  ∧ seenCellIds true [c]
    = [mkCell (mkUniqueCellId MLSDB_CELL_TYPE_GSM 5 7 65535 1) 20]
  ∧ (∀ c' : QOfonoExtCell,
       cell_mcc c' = InvalidValue → cell_cid c' ≠ InvalidValue → cell_cid c' ≠ 0 →
       seenCellIds true [c']
       = [mkCell (mkUniqueCellId (cellType_of c') (to_quint32 (cell_cid c'))
                    (to_quint32 (cell_lac c')) 65535 (to_quint16 (cell_mnc c')))
            (to_quint32 (cell_signalStrength c'))])
  ∧ (∀ (allowed : bool) (watched : list QOfonoExtCell),
       NoDup (uniqueCellId <$> seenCellIds allowed watched)
       ∧ (∀ id, id ∈ (uniqueCellId <$> seenCellIds allowed watched)
                ↔ allowed = true ∧ ∃ c', c' ∈ watched ∧ cell_identity c' = Some id)
       ∧ (allowed = false → seenCellIds allowed watched = []))
  ∧ (∀ (allowed : bool) (c' : QOfonoExtCell) (before after : list QOfonoExtCell),
       ((cell_cid c' = InvalidValue ∨ cell_cid c' = 0)
        ∧ (cell_ci c' = InvalidValue ∨ cell_ci c' = 0))
       ∨ cell_mcc c' = 0 →
       seenCellIds allowed (before ++ c' :: after) = seenCellIds allowed (before ++ after)).
Proof.
  split; [reflexivity|]. split; [by apply seenCellIds_without_mcc|].
  split; [intros c'; apply seenCellIds_without_mcc|]. split.
  - intros allowed watched.
    destruct (seenCellIds_loop watched) as (Hnd & Hcells & Hseen).
    cbv zeta in Hnd, Hcells, Hseen.
    unfold seenCellIds. destruct allowed; simpl.
    + split; [exact Hnd|]. split; [|discriminate].
      intros id. rewrite Hcells, Hseen. tauto.
    + split; [constructor|]. split; [|done].
      intros id. split; [intros H; by apply elem_of_nil in H | by intros [? _]].
  - intros allowed c' before after Hc.
    apply seenCellIds_without_identity, cell_identity_None.
    destruct Hc as [Hc | ->]; [by left | by right].
Qed.

(** * Further properties *)

(** ** What the positioning handlers leave alone *)

Lemma setLocation_outside l p :
  sessionState (setLocation l p).1 = sessionState p
  ∧ configState (setLocation l p).1 = configState p
  ∧ m_mlsdbOnlineLocator (setLocation l p).1 = m_mlsdbOnlineLocator p.
Proof. unfold_handlers. repeat case_bool_decide; done. Qed.

Lemma resolveCell_outside files id p :
  sessionState (resolveCell files id p).1.2 = sessionState p
  ∧ configState (resolveCell files id p).1.2 = configState p
  ∧ m_mlsdbOnlineLocator (resolveCell files id p).1.2 = m_mlsdbOnlineLocator p.
Proof.
  unfold resolveCell.
  destruct (m_uniqueCellIdToLocation p !! id); [done|].
  case_bool_decide; [done|].
  by destruct (searchForCellIdLocation files id).
Qed.

Lemma locate_outside files cells p :
  sessionState (loop_provider (locate files cells p)) = sessionState p
  ∧ configState (loop_provider (locate files cells p)) = configState p
  ∧ m_mlsdbOnlineLocator (loop_provider (locate files cells p)) = m_mlsdbOnlineLocator p.
Proof.
  unfold locate.
  induction cells as [|cell cells IH] using rev_ind; [done|].
  rewrite fold_left_app. simpl. unfold locate_step at 1 3 5.
  destruct (resolveCell_outside files (uniqueCellId cell)
    (loop_provider (fold_left (locate_step files) cells (mkLocateLoop 0 ∅ p []))))
    as (Hs & Hc & Hl).
  destruct (resolveCell files (uniqueCellId cell) _) as [[r q] e].
  simpl in Hs, Hc, Hl. destruct IH as (IHs & IHc & IHl).
  destruct r; simpl; rewrite Hs, Hc, Hl; done.
Qed.

Lemma updateLocationFromCells_outside env cells p :
  sessionState (updateLocationFromCells env cells p).1 = sessionState p
  ∧ configState (updateLocationFromCells env cells p).1 = configState p
  ∧ m_mlsdbOnlineLocator (updateLocationFromCells env cells p).1 = m_mlsdbOnlineLocator p.
Proof.
  unfold updateLocationFromCells.
  destruct (locate_outside (files env) cells p) as (Hs & Hc & Hl).
  case_bool_decide; [done|].
  rewrite arbitrate_spec.
  destruct (setLocation_outside
    (if keepsCurrent (clock_check env)
          (m_currentLocation (loop_provider (locate (files env) cells p)))
          (deviceLocation (clock_stamp env)
             (totalSignalStrength (locate (files env) cells p))
             (cellLocations (locate (files env) cells p)) cells)
     then m_currentLocation (loop_provider (locate (files env) cells p))
     else deviceLocation (clock_stamp env)
            (totalSignalStrength (locate (files env) cells p))
            (cellLocations (locate (files env) cells p)) cells)
    (loop_provider (locate (files env) cells p))) as (Hs' & Hc' & Hl').
  destruct (setLocation _ _) as [q e]. simpl in *.
  rewrite Hs', Hc', Hl'. done.
Qed.

(** [calculatePositionAndEmitLocation] changes nothing of the session and
    of the settings; it creates the online locator when online positioning
    is enabled and there is none, with the current wlan permission. *)
Lemma calculatePosition_outside env p :
  sessionState (calculatePositionAndEmitLocation env p).1 = sessionState p
  ∧ configState (calculatePositionAndEmitLocation env p).1 = configState p
  ∧ m_mlsdbOnlineLocator (calculatePositionAndEmitLocation env p).1
      = match m_mlsdbOnlineLocator p with
        | Some w => Some w
        | None => if m_onlinePositioningEnabled p then Some (m_wlanDataAllowed p)
                  else None
        end.
Proof.
  unfold calculatePositionAndEmitLocation.
  destruct (m_onlinePositioningEnabled p) eqn:Hon.
  - set (p1 := match m_mlsdbOnlineLocator p with
               | Some _ => p
               | None => set_m_mlsdbOnlineLocator (Some (m_wlanDataAllowed p)) p
               end).
    assert (sessionState p1 = sessionState p ∧ configState p1 = configState p
            ∧ m_mlsdbOnlineLocator p1
              = match m_mlsdbOnlineLocator p with
                | Some w => Some w
                | None => Some (m_wlanDataAllowed p)
                end) as (Hs & Hc & Hl)
      by (subst p1; destruct (m_mlsdbOnlineLocator p) eqn:Hloc; done).
    destruct (findLocation env); [simpl; done|].
    destruct (updateLocationFromCells_outside env
      (seenCellIds (m_cellDataAllowed p) (cells env)) p1) as (Hs' & Hc' & Hl').
    destruct (updateLocationFromCells _ _ _) as [q e]. simpl in *.
    rewrite Hs', Hc', Hl'. done.
  - destruct (updateLocationFromCells_outside env
      (seenCellIds (m_cellDataAllowed p) (cells env)) p) as (Hs & Hc & Hl).
    rewrite Hs, Hc, Hl. by destruct (m_mlsdbOnlineLocator p).
Qed.

(** ** What the session handlers do to the session *)

Lemma stopPositioningIfNeeded_outside p :
  sessionState (stopPositioningIfNeeded p).1
    = (if stops p
       then (m_watchedServices p, m_watcher p, m_idleTimer p, false, None)
       else sessionState p)
  ∧ configState (stopPositioningIfNeeded p).1 = configState p
  ∧ m_mlsdbOnlineLocator (stopPositioningIfNeeded p).1 = m_mlsdbOnlineLocator p.
Proof.
  unfold stopPositioningIfNeeded, stops. unfold_handlers.
  destruct (m_positioningStarted p) eqn:Hst; simpl; [|done].
  destruct (m_positioningEnabled p && negb (noWatchedServices p)); simpl; [done|].
  unfold sessionState, configState. by case_bool_decide.
Qed.

Lemma startPositioningIfNeeded_outside env p :
  sessionState (startPositioningIfNeeded env p).1
    = (if starts p
       then (m_watchedServices p, m_watcher p, None, true,
             Some (to_int (minimumRequestedUpdateInterval (m_watchedServices p))))
       else sessionState p)
  ∧ configState (startPositioningIfNeeded env p).1 = configState p
  ∧ m_mlsdbOnlineLocator (startPositioningIfNeeded env p).1
      = (if starts p then locatorAfterCalculation p else m_mlsdbOnlineLocator p).
Proof.
  unfold startPositioningIfNeeded, starts, branch.
  destruct (m_positioningStarted p) eqn:Hst; simpl; [done|].
  destruct (noWatchedServices p) eqn:Hno; simpl; [done|].
  destruct (m_positioningEnabled p) eqn:Hen; simpl; [|done].
  unfold seq, modify.
  destruct (calculatePosition_outside env
    (set_m_positioningStarted true (set_m_idleTimer None p))) as (Hs & Hc & Hl).
  destruct (calculatePositionAndEmitLocation env _) as [q e].
  unfold sessionState, configState in *. simpl in *.
  injection Hs as -> -> -> -> _. injection Hc as -> -> -> -> -> ->.
  rewrite Hl. done.
Qed.

Lemma AddReference_outside env service p :
  let p1 := set_m_watchedServices (tableAfterAdd service p)
              (set_m_watcher (m_watcher p ++ [service]) p) in
  let p2 := if noWatchedServices p then set_m_idleTimer None p1 else p1 in
  (AddReference env service p).1 = (startPositioningIfNeeded env p2).1.
Proof.
  unfold AddReference, seq, modify, skip, tableAfterAdd, serviceEntry. cbv zeta.
  destruct (noWatchedServices p); simpl;
    match goal with
    | |- context [startPositioningIfNeeded env ?x] =>
        by destruct (startPositioningIfNeeded env x)
    end.
Qed.

Lemma RemoveReference_outside service p :
  let p1 := if countAfterRemove service p =? 0
            then set_m_watchedServices (tableAfterRemove service p)
                   (set_m_watcher (removeOne service (m_watcher p)) p)
            else set_m_watchedServices (tableAfterRemove service p) p in
  let p2 := if noWatchedServices p1 then set_m_idleTimer (Some QuitIdleTime) p1 else p1 in
  (RemoveReference service p).1 = (stopPositioningIfNeeded p2).1.
Proof.
  unfold RemoveReference, seq, modify, branch, skip, tableAfterRemove, countAfterRemove.
  cbv zeta.
  destruct ((if 0 <? referenceCount (serviceEntry service p)
             then to_int (referenceCount (serviceEntry service p) - 1)
             else referenceCount (serviceEntry service p)) =? 0); simpl;
    match goal with
    | |- context [noWatchedServices ?x] => destruct (noWatchedServices x)
    end; simpl;
    match goal with
    | |- context [stopPositioningIfNeeded ?x] => by destruct (stopPositioningIfNeeded x)
    end.
Qed.

Lemma serviceUnregistered_outside service p :
  let p1 := set_m_watcher (removeOne service (m_watcher p))
              (set_m_watchedServices (delete service (m_watchedServices p)) p) in
  let p2 := if noWatchedServices p1 then set_m_idleTimer (Some QuitIdleTime) p1 else p1 in
  (serviceUnregistered service p).1 = (stopPositioningIfNeeded p2).1.
Proof.
  unfold serviceUnregistered, seq, modify, branch, skip. cbv zeta. simpl.
  match goal with
  | |- context [noWatchedServices ?x] => destruct (noWatchedServices x)
  end; simpl;
    match goal with
    | |- context [stopPositioningIfNeeded ?x] => by destruct (stopPositioningIfNeeded x)
    end.
Qed.

(** ** Reference counting *)

Lemma AddReference_table env service p :
  m_watchedServices (AddReference env service p).1 = tableAfterAdd service p.
Proof.
  rewrite AddReference_outside.
  match goal with
  | |- context [startPositioningIfNeeded env ?x] =>
      destruct (startPositioningIfNeeded_outside env x) as (Hs & _)
  end.
  unfold sessionState in Hs.
  destruct (starts _); injection Hs as -> _ _ _ _;
    by destruct (noWatchedServices p).
Qed.

Lemma RemoveReference_table service p :
  m_watchedServices (RemoveReference service p).1 = tableAfterRemove service p
  ∧ (tableAfterRemove service p = ∅ →
     m_idleTimer (RemoveReference service p).1 = Some QuitIdleTime).
Proof.
  rewrite RemoveReference_outside.
  match goal with
  | |- context [stopPositioningIfNeeded ?x] =>
      destruct (stopPositioningIfNeeded_outside x) as (Hs & _);
      set (p2 := x) in *
  end.
  assert (m_watchedServices p2 = tableAfterRemove service p) as Htable.
  { subst p2. destruct (countAfterRemove service p =? 0);
      match goal with
      | |- context [noWatchedServices ?x] => by destruct (noWatchedServices x)
      end. }
  assert (tableAfterRemove service p = ∅ → m_idleTimer p2 = Some QuitIdleTime) as Hidle.
  { intros Hempty. subst p2.
    destruct (countAfterRemove service p =? 0);
      match goal with
      | |- context [noWatchedServices ?x] =>
          assert (noWatchedServices x = true) as ->
            by (unfold noWatchedServices; simpl; by rewrite Hempty, bool_decide_eq_true_2)
      end; done. }
  unfold sessionState in Hs.
  destruct (stops p2); injection Hs as -> _ -> _ _; done.
Qed.

Lemma to_int_small (z : Z) : -2147483648 ≤ z ≤ 2147483647 → to_int z = z.
Proof. intros Hz. unfold to_int. rewrite Z.mod_small by lia. lia. Qed.

Lemma run_app (t1 t2 : list (Env * Event)) (p : YandexProvider) :
  run (t1 ++ t2) p = run t2 (run t1 p).
Proof. unfold run. apply fold_left_app. Qed.

Lemma addReferences_table service (envs : list Env) (p : YandexProvider) :
  0 ≤ referenceCount (serviceEntry service p) →
  referenceCount (serviceEntry service p) + Z.of_nat (length envs) ≤ INT_MAX →
  envs ≠ [] →
  let q := run (addReferences service envs) p in
  m_watchedServices q !! service
    = Some {| referenceCount :=
                referenceCount (serviceEntry service p) + Z.of_nat (length envs);
              updateInterval := updateInterval (serviceEntry service p) |}
  ∧ ∀ other, other ≠ service →
      m_watchedServices q !! other = m_watchedServices p !! other.
Proof.
  revert p. induction envs as [|env envs IH]; intros p Hlo Hhi Hne; [done|].
  cbv zeta.
  change (run (addReferences service (env :: envs)) p)
    with (run (addReferences service envs) (AddReference env service p).1).
  set (p1 := (AddReference env service p).1).
  assert (m_watchedServices p1 = tableAfterAdd service p) as Htable
    by apply AddReference_table.
  assert (serviceEntry service p1
          = {| referenceCount := referenceCount (serviceEntry service p) + 1;
               updateInterval := updateInterval (serviceEntry service p) |}) as Hentry.
  { unfold serviceEntry at 1. rewrite Htable. unfold tableAfterAdd.
    rewrite lookup_insert_eq. simpl. rewrite to_int_small; [done|].
    unfold INT_MAX in Hhi. simpl length in Hhi. lia. }
  assert (∀ other, other ≠ service →
            m_watchedServices p1 !! other = m_watchedServices p !! other) as Hother.
  { intros other Hneq. rewrite Htable. unfold tableAfterAdd.
    by rewrite lookup_insert_ne. }
  destruct envs as [|env' envs].
  - change (run (addReferences service []) p1) with p1.
    split; [|exact Hother].
    rewrite Htable. unfold tableAfterAdd. rewrite lookup_insert_eq.
    f_equal. rewrite to_int_small; [done|].
    unfold INT_MAX in Hhi. simpl length in Hhi. lia.
  - destruct (IH p1) as [Hq Hq']; [rewrite Hentry; simpl; lia | | done |].
    + rewrite Hentry. simpl. simpl length in *. lia.
    + split.
      * rewrite Hq, Hentry. simpl.
        f_equal. f_equal. simpl length. lia.
      * intros other Hneq. rewrite (Hq' other Hneq). by apply Hother.
Qed.

Lemma removeReferences_table service (envs : list Env) (p : YandexProvider) count interval :
  m_watchedServices p !! service
    = Some {| referenceCount := count; updateInterval := interval |} →
  Z.of_nat (length envs) ≤ count ≤ INT_MAX →
  0 < count →
  let q := run (removeReferences service envs) p in
  m_watchedServices q !! service
    = (if bool_decide (Z.of_nat (length envs) = count) then None
       else Some {| referenceCount := count - Z.of_nat (length envs);
                    updateInterval := interval |})
  ∧ (∀ other, other ≠ service →
       m_watchedServices q !! other = m_watchedServices p !! other)
  ∧ (envs ≠ [] → m_watchedServices q = ∅ → m_idleTimer q = Some QuitIdleTime).
Proof.
  revert p count. induction envs as [|env envs IH]; intros p count Hp Hk Hpos.
  - cbv zeta. change (run (removeReferences service []) p) with p.
    simpl length. rewrite bool_decide_eq_false_2 by lia.
    rewrite Hp. split; [f_equal; f_equal; lia|]. split; done.
  - cbv zeta.
    change (run (removeReferences service (env :: envs)) p)
      with (run (removeReferences service envs) (RemoveReference service p).1).
    set (p1 := (RemoveReference service p).1).
    destruct (RemoveReference_table service p) as [Htable Hidle].
    fold p1 in Htable, Hidle.
    assert (serviceEntry service p
            = {| referenceCount := count; updateInterval := interval |}) as Hentry
      by (unfold serviceEntry; by rewrite Hp).
    assert (countAfterRemove service p = count - 1) as Hcount.
    { unfold countAfterRemove. rewrite Hentry. simpl.
      rewrite (proj2 (Z.ltb_lt _ _) Hpos). apply to_int_small.
      unfold INT_MAX in Hk. lia. }
    assert (∀ other, other ≠ service →
              m_watchedServices p1 !! other = m_watchedServices p !! other) as Hother.
    { intros other Hneq. rewrite Htable. unfold tableAfterRemove.
      destruct (_ =? 0); [by rewrite lookup_delete_ne | by rewrite lookup_insert_ne]. }
    simpl length in Hk.
    destruct (decide (count = 1)) as [->|Hne1].
    + assert (envs = []) as -> by (destruct envs; [done | simpl in Hk; lia]).
      change (run (removeReferences service []) p1) with p1.
      rewrite bool_decide_eq_true_2 by done.
      assert (tableAfterRemove service p = delete service (m_watchedServices p)) as Hdel
        by (unfold tableAfterRemove; by rewrite Hcount).
      split; [by rewrite Htable, Hdel, lookup_delete_eq|].
      split; [exact Hother|].
      intros _ Hempty. apply Hidle. by rewrite <- Htable.
    + assert (m_watchedServices p1 !! service
              = Some {| referenceCount := count - 1; updateInterval := interval |}) as Hp1.
      { rewrite Htable. unfold tableAfterRemove. rewrite Hcount.
        rewrite (proj2 (Z.eqb_neq _ _)) by lia.
        rewrite lookup_insert_eq, Hentry. done. }
      destruct (IH p1 (count - 1) Hp1) as (Hq & Hq' & Hq''); [lia | lia |].
      split.
      * rewrite Hq.
        destruct (decide (Z.of_nat (length envs) = count - 1)).
        -- by rewrite !bool_decide_eq_true_2 by (simpl length; lia).
        -- rewrite !bool_decide_eq_false_2 by (simpl length; lia).
           f_equal. f_equal. simpl length. lia.
      * split.
        -- intros other Hneq. rewrite (Hq' other Hneq). by apply Hother.
        -- intros _ Hempty. destruct envs as [|env' envs].
           ++ change (run (removeReferences service []) p1) with p1 in Hempty.
              exfalso. rewrite Hempty, lookup_empty in Hp1. discriminate.
           ++ by apply Hq''.
Qed.

(** ** Invariants of the session *)

Lemma minimumRequestedUpdateInterval_floor (services : gmap string ServiceData) :
  MinimumInterval ≤ minimumRequestedUpdateInterval services.
Proof.
  unfold minimumRequestedUpdateInterval.
  destruct (minimumInterval_loop services =? UINT_MAX); lia.
Qed.

Lemma startedInterval_minimum (services : gmap string ServiceData) :
  startedInterval (to_int (minimumRequestedUpdateInterval services)).
Proof.
  exists (minimumRequestedUpdateInterval services).
  split; [apply minimumRequestedUpdateInterval_range | reflexivity].
Qed.

Lemma sessionTimers_ext p q :
  sessionState p = sessionState q → sessionTimers p → sessionTimers q.
Proof. unfold sessionState, sessionTimers. by intros [= -> _ -> -> ->]. Qed.

Lemma sessionInvariant_ext p q :
  sessionState p = sessionState q → m_positioningEnabled p = m_positioningEnabled q →
  sessionInvariant p → sessionInvariant q.
Proof.
  intros Hs Hc [H1 Ht]. split; [|by apply (sessionTimers_ext p)].
  unfold sessionState, noWatchedServices in *.
  injection Hs as <- _ _ <- _. by rewrite <- Hc.
Qed.

Lemma stopReady_ext p q :
  sessionState p = sessionState q → m_positioningEnabled p = m_positioningEnabled q →
  stopReady p → stopReady q.
Proof.
  intros Hs Hc [H1 Ht]. split; [|by apply (sessionTimers_ext p)].
  unfold sessionState, noWatchedServices in *.
  injection Hs as <- _ _ <- _. by rewrite <- Hc.
Qed.

Lemma startPositioningIfNeeded_invariant env p :
  startReady p → sessionInvariant (startPositioningIfNeeded env p).1.
Proof.
  intros [Hst (Hidle & Hrun & Hfloor)].
  destruct (startPositioningIfNeeded_outside env p) as (Hs & Hc & _).
  unfold sessionInvariant, sessionTimers, noWatchedServices in *.
  unfold sessionState, configState, starts, noWatchedServices in *.
  injection Hc as -> _ _ _ _ _.
  destruct (m_positioningStarted p) eqn:Hstarted; simpl in Hs.
  - injection Hs as -> _ -> -> ->. destruct Hst as [-> ->]; done.
  - destruct (bool_decide (m_watchedServices p = ∅)) eqn:Hempty; simpl in Hs.
    + injection Hs as -> _ -> -> ->. rewrite Hempty, andb_false_r. done.
    + destruct (m_positioningEnabled p) eqn:Hen; simpl in Hs.
      * injection Hs as -> _ -> -> ->. rewrite Hempty. simpl.
        split; [done|]. split; [by left|]. split; [by eexists|].
        intros t [= <-]. apply startedInterval_minimum.
      * injection Hs as -> _ -> -> ->. done.
Qed.

Lemma stopPositioningIfNeeded_invariant p :
  stopReady p → sessionInvariant (stopPositioningIfNeeded p).1.
Proof.
  intros [Hst (Hidle & Hrun & Hfloor)].
  destruct (stopPositioningIfNeeded_outside p) as (Hs & Hc & _).
  unfold sessionInvariant, sessionTimers, noWatchedServices in *.
  unfold sessionState, configState, stops, noWatchedServices in *.
  injection Hc as -> _ _ _ _ _.
  destruct (m_positioningStarted p) eqn:Hstarted; simpl in Hs.
  - destruct (m_positioningEnabled p && negb (bool_decide (m_watchedServices p = ∅)))
      eqn:Hcond; simpl in Hs.
    + injection Hs as -> _ -> -> ->. rewrite Hcond. done.
    + injection Hs as -> _ -> -> ->. rewrite Hcond.
      split; [done|]. split; [done|]. split; done.
  - injection Hs as -> _ -> -> ->. rewrite Hst by done. done.
Qed.

Lemma tableAfterRemove_empty service p :
  m_watchedServices p = ∅ → tableAfterRemove service p = ∅.
Proof.
  intros Hempty. unfold tableAfterRemove, countAfterRemove, serviceEntry.
  rewrite Hempty, lookup_empty. simpl. apply delete_empty.
Qed.

Lemma sessionInvariant_AddReference env service p :
  sessionInvariant p → sessionInvariant (AddReference env service p).1.
Proof.
  intros [H1 (Hidle & Hrun & Hfloor)].
  rewrite AddReference_outside. apply startPositioningIfNeeded_invariant.
  assert (tableAfterAdd service p ≠ ∅) as Hne
    by (unfold tableAfterAdd; apply insert_non_empty).
  unfold startReady, sessionTimers, noWatchedServices in *.
  destruct (bool_decide (m_watchedServices p = ∅)) eqn:Hempty; simpl;
    rewrite (bool_decide_eq_false_2 _ Hne).
  - split; [intros Hst; rewrite Hst in H1; by rewrite andb_false_r in H1|].
    split; [by left|]. split; assumption.
  - split; [intros Hst; rewrite Hst in H1;
            symmetry in H1; apply andb_true_iff in H1 as [-> _]; done|].
    split; [|split; assumption].
    apply bool_decide_eq_false in Hempty.
    destruct Hidle as [Hnone|[_ Hcontra]]; [by left | done].
Qed.

Lemma sessionInvariant_afterRemoval p (table : gmap string ServiceData)
    (watcher : list string) :
  (m_watchedServices p = ∅ → table = ∅) →
  sessionInvariant p →
  let p1 := set_m_watchedServices table (set_m_watcher watcher p) in
  stopReady (if noWatchedServices p1 then set_m_idleTimer (Some QuitIdleTime) p1 else p1).
Proof.
  intros Hsub [H1 (Hidle & Hrun & Hfloor)] p1.
  unfold stopReady, sessionTimers, noWatchedServices in *. subst p1. simpl.
  destruct (decide (table = ∅)) as [Hempty|Hne].
  - rewrite (bool_decide_eq_true_2 _ Hempty). simpl.
    rewrite (bool_decide_eq_true_2 _ Hempty), andb_false_r.
    split; [done|]. split; [by right|]. split; assumption.
  - rewrite (bool_decide_eq_false_2 _ Hne). simpl.
    rewrite (bool_decide_eq_false_2 _ Hne).
    assert (m_watchedServices p ≠ ∅) as Hne' by (intros H; by apply Hne, Hsub).
    rewrite (bool_decide_eq_false_2 _ Hne') in H1.
    split; [intros Hst; by rewrite Hst in H1|].
    split; [|split; assumption].
    destruct Hidle as [Hnone|[_ Hcontra]]; [by left | done].
Qed.

Lemma sessionInvariant_RemoveReference service p :
  sessionInvariant p → sessionInvariant (RemoveReference service p).1.
Proof.
  intros HJ. rewrite RemoveReference_outside.
  apply stopPositioningIfNeeded_invariant.
  destruct (countAfterRemove service p =? 0).
  - apply (sessionInvariant_afterRemoval p); [apply tableAfterRemove_empty | exact HJ].
  - pose proof (sessionInvariant_afterRemoval p (tableAfterRemove service p)
      (m_watcher p) (tableAfterRemove_empty service p) HJ) as H.
    exact H.
Qed.

Lemma sessionInvariant_serviceUnregistered service p :
  sessionInvariant p → sessionInvariant (serviceUnregistered service p).1.
Proof.
  intros HJ. rewrite serviceUnregistered_outside.
  apply stopPositioningIfNeeded_invariant.
  pose proof (sessionInvariant_afterRemoval p (delete service (m_watchedServices p))
    (removeOne service (m_watcher p))) as H.
  apply H; [|exact HJ]. intros ->. apply delete_empty.
Qed.

Lemma hoare_seq (P Q R : YandexProvider → Prop) (h1 h2 : Handler) :
  hoare P Q h1 → hoare Q R h2 → hoare P R (h1 ;; h2).
Proof.
  intros H1 H2 p Hp. unfold seq.
  specialize (H1 p Hp). destruct (h1 p) as [p1 e1]. simpl in H1.
  specialize (H2 p1 H1). by destruct (h2 p1) as [p2 e2].
Qed.

Lemma hoare_modify (P Q : YandexProvider → Prop) (f : YandexProvider → YandexProvider) :
  (∀ p, P p → Q (f p)) → hoare P Q (modify f).
Proof. intros Hf p Hp. by apply Hf. Qed.

Lemma configEnabled p q : configState p = configState q →
  m_positioningEnabled p = m_positioningEnabled q.
Proof. unfold configState. by intros [= -> _ _ _ _ _]. Qed.

Lemma sessionInvariant_setLocation l : preserves sessionInvariant (setLocation l).
Proof.
  intros p. destruct (setLocation_outside l p) as (Hs & Hc & _).
  apply sessionInvariant_ext; [done | by apply configEnabled].
Qed.

Lemma sessionInvariant_updateLocationFromCells env cells :
  preserves sessionInvariant (updateLocationFromCells env cells).
Proof.
  intros p. destruct (updateLocationFromCells_outside env cells p) as (Hs & Hc & _).
  apply sessionInvariant_ext; [done | by apply configEnabled].
Qed.

Lemma sessionInvariant_calculatePosition env :
  preserves sessionInvariant (calculatePositionAndEmitLocation env).
Proof.
  intros p. destruct (calculatePosition_outside env p) as (Hs & Hc & _).
  apply sessionInvariant_ext; [done | by apply configEnabled].
Qed.

Lemma sessionInvariant_SetOptions service o :
  preserves sessionInvariant (SetOptions service o).
Proof.
  intros p HJ. unfold SetOptions, branch.
  case_bool_decide as Hknown; [exact HJ|].
  destruct o as [v|]; [|exact HJ].
  destruct HJ as [H1 (Hidle & Hrun & Hfloor)].
  assert (m_watchedServices p ≠ ∅) as Hne
    by (intros Hempty; apply Hknown; by rewrite Hempty, lookup_empty).
  unfold seq, modify. simpl.
  unfold sessionInvariant, sessionTimers, noWatchedServices in *. simpl.
  rewrite (bool_decide_eq_false_2 _ Hne) in H1.
  rewrite bool_decide_eq_false_2 by apply insert_non_empty.
  split; [exact H1|].
  split; [destruct Hidle as [Hnone|[_ Hcontra]]; [by left | done]|].
  split; [intros _; by eexists|].
  intros t [= <-]. apply startedInterval_minimum.
Qed.

Lemma sessionInvariant_updatePositioningEnabled env :
  preserves sessionInvariant (updatePositioningEnabled env).
Proof.
  unfold updatePositioningEnabled.
  destruct (getEnabled (settings env)) as [[[[[a b] c] d] e] f].
  assert (∀ g : YandexProvider → YandexProvider,
            (∀ p, sessionState (g p) = sessionState p
                  ∧ m_positioningEnabled (g p) = m_positioningEnabled p) →
            preserves sessionInvariant (modify g)) as Hframe.
  { intros g Hg. apply preserves_modify. intros p.
    destruct (Hg p) as [Hs Hc]. by apply sessionInvariant_ext. }
  repeat apply preserves_seq;
    try (apply Hframe; intros p; done).
  - apply preserves_branch; [|apply preserves_skip].
    apply preserves_seq; apply Hframe; intros p; [done|].
    by repeat match goal with
              | |- context [if ?x then _ else _] => destruct x
              end.
  - apply Hframe. intros p. by destruct (m_mlsdbOnlineLocator p).
  - apply preserves_branch; [apply preserves_skip|].
    destruct (a && b).
    + apply (hoare_seq sessionInvariant startReady sessionInvariant).
      * apply hoare_modify. intros p [H1 Ht]. split; [|exact Ht].
        simpl. intros Hst. rewrite Hst in H1. symmetry in H1.
        apply andb_true_iff in H1 as [_ H1]. by apply negb_true_iff in H1.
      * intros p. apply startPositioningIfNeeded_invariant.
    + apply (hoare_seq sessionInvariant stopReady sessionInvariant).
      * apply hoare_modify. intros p [H1 Ht]. split; [|exact Ht]. done.
      * apply (hoare_seq stopReady stopReady sessionInvariant).
        -- intros p. destruct (setLocation_outside Location_default p) as (Hs & Hc & _).
           apply stopReady_ext; [done | by apply configEnabled].
        -- intros p. apply stopPositioningIfNeeded_invariant.
Qed.

Lemma fixLostBranch_outside p :
  sessionState (fixLostBranch p).1 = sessionState p
  ∧ configState (fixLostBranch p).1 = configState p
  ∧ m_mlsdbOnlineLocator (fixLostBranch p).1 = m_mlsdbOnlineLocator p.
Proof. by rewrite fixLostBranch_spec. Qed.

Lemma sessionInvariant_timerEvent env t :
  preserves sessionInvariant (timerEvent env t).
Proof.
  intros p HJ. unfold timerEvent. destruct t.
  - destruct (isActive _); [|exact HJ].
    destruct HJ as [H1 (Hidle & Hrun & Hfloor)].
    split; [exact H1|]. split; [by left|]. split; assumption.
  - destruct (isActive _); [|exact HJ].
    change ((modify (set_m_fixLostTimer None);; setStatus StatusAcquiring) p)
      with (fixLostBranch p).
    destruct (fixLostBranch_outside p) as (Hs & Hc & _).
    by apply (sessionInvariant_ext p); [| apply configEnabled |].
  - destruct (isActive _); [|exact HJ].
    destruct (negb _); [exact HJ|].
    destruct (recalculates _ _); [|by apply sessionInvariant_setLocation].
    unfold seq, modify.
    pose proof (sessionInvariant_calculatePosition env
      (set_m_signalUpdateWlan false (set_m_signalUpdateCell false p))) as H.
    destruct (calculatePositionAndEmitLocation env _) as [q e]. apply H.
    by apply (sessionInvariant_ext p).
  - exact HJ.
Qed.

Lemma sessionInvariant_handle env ev : preserves sessionInvariant (handle env ev).
Proof.
  destruct ev; simpl.
  - intros p. apply sessionInvariant_AddReference.
  - intros p. apply sessionInvariant_RemoveReference.
  - apply sessionInvariant_SetOptions.
  - apply preserves_skip.
  - apply preserves_skip.
  - apply sessionInvariant_timerEvent.
  - apply preserves_modify. intros p. by apply sessionInvariant_ext.
  - apply sessionInvariant_setLocation.
  - intros p. apply sessionInvariant_updateLocationFromCells.
  - intros p. apply sessionInvariant_serviceUnregistered.
  - apply sessionInvariant_updatePositioningEnabled.
  - apply preserves_modify. intros p. by apply sessionInvariant_ext.
Qed.

Lemma updatePositioningEnabled_table env p :
  m_watchedServices p = ∅ →
  m_watchedServices (updatePositioningEnabled env p).1 = ∅.
Proof.
  revert p.
  change (hoare (λ p, m_watchedServices p = ∅) (λ p, m_watchedServices p = ∅)
            (updatePositioningEnabled env)).
  unfold updatePositioningEnabled.
  destruct (getEnabled (settings env)) as [[[[[a b] c] d] e] f].
  assert (∀ g : YandexProvider → YandexProvider,
            (∀ p, m_watchedServices (g p) = m_watchedServices p) →
            preserves (λ p, m_watchedServices p = ∅) (modify g)) as Hframe.
  { intros g Hg. apply preserves_modify. intros p. by rewrite Hg. }
  assert (∀ h : Handler,
            (∀ p, ∃ v w x, sessionState (h p).1
                           = (m_watchedServices p, m_watcher p, v, w, x)) →
            preserves (λ p, m_watchedServices p = ∅) h) as Hsession.
  { intros h Hh p Hp. unfold sessionState in Hh.
    destruct (Hh p) as (v & w & x & [= -> _ _ _ _]). done. }
  repeat apply preserves_seq;
    try (apply Hframe; intros p; done).
  - apply preserves_branch; [|apply preserves_skip].
    apply preserves_seq; apply Hframe; intros p; [done|].
    by repeat match goal with
              | |- context [if ?x then _ else _] => destruct x
              end.
  - apply Hframe. intros p. by destruct (m_mlsdbOnlineLocator p).
  - apply preserves_branch; [apply preserves_skip|].
    destruct (a && b).
    + apply preserves_seq; [apply Hframe; done|].
      apply Hsession. intros p.
      destruct (startPositioningIfNeeded_outside env p) as (Hs & _).
      rewrite Hs. destruct (starts p); by eexists _, _, _.
    + apply preserves_seq; [apply Hframe; done|].
      apply preserves_seq.
      * apply Hsession. intros p.
        destruct (setLocation_outside Location_default p) as (Hs & _).
        rewrite Hs. by eexists _, _, _.
      * apply Hsession. intros p.
        destruct (stopPositioningIfNeeded_outside p) as (Hs & _).
        rewrite Hs. destruct (stops p); by eexists _, _, _.
Qed.

Lemma sessionInvariant_reachable p : reachable p → sessionInvariant p.
Proof.
  induction 1 as [env|env ev p Hr IH]; [|by apply sessionInvariant_handle].
  unfold construct, seq, branch, modify, skip, cellularNetworkRegistrationChanged.
  assert (sessionInvariant initial) as H0.
  { split; [done|]. split; [by left|]. split; done. }
  pose proof (sessionInvariant_updatePositioningEnabled env initial H0) as HJ.
  pose proof (updatePositioningEnabled_table env initial eq_refl) as Htable.
  destruct (updatePositioningEnabled env initial) as [q e]. simpl in *.
  unfold noWatchedServices. rewrite (bool_decide_eq_true_2 _ Htable). simpl.
  destruct HJ as [H1 (Hidle & Hrun & Hfloor)].
  assert (sessionInvariant (set_m_idleTimer (Some QuitIdleTime) q)) as HJ'.
  { split; [exact H1|]. split; [by right|]. split; assumption. }
  destruct (m_positioningEnabled q); simpl; [|exact HJ'].
  by apply (sessionInvariant_ext (set_m_idleTimer (Some QuitIdleTime) q)).
Qed.

(** ** Relations between a handler's input, output and effects

    A relation that holds of a step that leaves [signalState] alone and
    produces nothing, that composes along sequences, and that holds of the
    resolution of a cell, of [setLocation], of the two other places where
    the status is set and of the warnings and online requests, holds of
    every handler that does not quit. *)

Create HintDb relations.

Ltac same_signalState :=
  unfold signalState; cbv beta zeta;
  repeat
    match goal with
    | |- context [match ?x with _ => _ end] => destruct x
    end;
  reflexivity.

Section Relations.
Variable G : YandexProvider → YandexProvider → list Effect → Prop.
Hypothesis G_frame : ∀ p q, signalState p = signalState q → G p q [].
Hypothesis G_trans : ∀ p q r e1 e2, G p q e1 → G q r e2 → G p r (e1 ++ e2).

Lemma rel_skip : relates G skip.
Proof. intros p. by apply G_frame. Qed.

Lemma rel_modify (f : YandexProvider → YandexProvider) :
  (∀ p, signalState p = signalState (f p)) → relates G (modify f).
Proof. intros Hf p. apply G_frame, Hf. Qed.

Lemma rel_seq (h1 h2 : Handler) :
  relates G h1 → relates G h2 → relates G (h1 ;; h2).
Proof.
  intros H1 H2 p. unfold seq.
  specialize (H1 p). destruct (h1 p) as [p1 e1].
  specialize (H2 p1). destruct (h2 p1) as [p2 e2].
  by apply (G_trans _ p1).
Qed.

Lemma rel_branch (c : YandexProvider → bool) (h1 h2 : Handler) :
  relates G h1 → relates G h2 → relates G (branch c h1 h2).
Proof. intros H1 H2 p. unfold branch. destruct (c p); [apply H1 | apply H2]. Qed.

Lemma rel_if (b : bool) (h1 h2 : Handler) :
  relates G h1 → relates G h2 → relates G (if b then h1 else h2).
Proof. destruct b; tauto. Qed.

Hypothesis G_resolveCell :
  ∀ files id p, G p (resolveCell files id p).1.2 (resolveCell files id p).2.
Hypothesis G_setLocation : ∀ l, relates G (setLocation l).
Hypothesis G_unavailable : relates G (setStatus StatusUnavailable).
Hypothesis G_fixLost : relates G fixLostBranch.
Hypothesis G_warning : ∀ msg p, G p p [Warning msg].
Hypothesis G_online : ∀ query accepted p, G p p [OnlineRequest query accepted].
Hypothesis G_quit : ∀ p, G p p [Quit].

Lemma rel_warning msg : relates G (emit (λ _, Warning msg)).
Proof. intros p. apply G_warning. Qed.

Local Hint Resolve rel_skip rel_seq rel_branch rel_if rel_warning
  G_setLocation G_unavailable : relations.
Local Hint Extern 1 (relates _ (modify _)) =>
  (apply rel_modify; intros ?; same_signalState) : relations.

Lemma rel_arbitrate check candidate : relates G (arbitrate check candidate).
Proof.
  intros p. unfold arbitrate, branch.
  destruct (keepsCurrent _ _ _); apply G_setLocation.
Qed.

Lemma rel_locate files cells p acc :
  G p (loop_provider acc) (loop_effects acc) →
  G p (loop_provider (fold_left (locate_step files) cells acc))
      (loop_effects (fold_left (locate_step files) cells acc)).
Proof.
  revert acc. induction cells as [|c cells IH]; intros acc Hacc; [exact Hacc|].
  simpl. apply IH. unfold locate_step.
  pose proof (G_resolveCell files (uniqueCellId c) (loop_provider acc)) as H.
  destruct (resolveCell files (uniqueCellId c) (loop_provider acc)) as [[r p'] e].
  destruct r; simpl; by apply (G_trans _ (loop_provider acc)).
Qed.

Lemma rel_updateLocationFromCells env cells :
  relates G (updateLocationFromCells env cells).
Proof.
  intros p. unfold updateLocationFromCells.
  assert (G p (loop_provider (locate (files env) cells p))
              (loop_effects (locate (files env) cells p))) as H
    by (apply rel_locate; by apply G_frame).
  case_bool_decide; [exact H|].
  pose proof (rel_arbitrate (clock_check env)
    (deviceLocation (clock_stamp env)
       (totalSignalStrength (locate (files env) cells p))
       (cellLocations (locate (files env) cells p)) cells)
    (loop_provider (locate (files env) cells p))) as H'.
  destruct (arbitrate _ _ _) as [p' e]. by apply (G_trans _ _ _ _ _ H).
Qed.

Lemma rel_calculatePositionAndEmitLocation env :
  relates G (calculatePositionAndEmitLocation env).
Proof.
  intros p. unfold calculatePositionAndEmitLocation.
  destruct (m_onlinePositioningEnabled p); [|apply rel_updateLocationFromCells].
  set (p1 := match m_mlsdbOnlineLocator p with
             | Some _ => p
             | None => set_m_mlsdbOnlineLocator (Some (m_wlanDataAllowed p)) p
             end).
  assert (signalState p = signalState p1) as H1 by (subst p1; same_signalState).
  destruct (findLocation env).
  - simpl. apply (G_trans p p _ [OnlineRequest (built_query env) true] []);
      [apply G_online | apply G_frame; by rewrite H1].
  - pose proof (rel_updateLocationFromCells env
      (seenCellIds (m_cellDataAllowed p) (cells env)) p1) as H.
    destruct (updateLocationFromCells _ _ _) as [p2 e]. simpl in *.
    apply (G_trans p p1 _ [OnlineRequest (built_query env) false] e); [|exact H].
    apply (G_trans p p _ [OnlineRequest (built_query env) false] []);
      [apply G_online | by apply G_frame].
Qed.

Lemma rel_stopPositioningIfNeeded : relates G stopPositioningIfNeeded.
Proof. unfold stopPositioningIfNeeded. auto 10 with relations. Qed.

Lemma rel_startPositioningIfNeeded env : relates G (startPositioningIfNeeded env).
Proof.
  pose proof rel_calculatePositionAndEmitLocation.
  unfold startPositioningIfNeeded. auto 10 with relations.
Qed.

Lemma rel_updatePositioningEnabled env : relates G (updatePositioningEnabled env).
Proof.
  pose proof rel_startPositioningIfNeeded.
  pose proof rel_stopPositioningIfNeeded.
  unfold updatePositioningEnabled.
  destruct (getEnabled (settings env)) as [[[[[a b] c] d] e] f].
  auto 20 with relations.
Qed.

Lemma rel_timerEvent_plain env t :
  t ≠ IdleTimer → t ≠ FixLostTimer → relates G (timerEvent env t).
Proof.
  pose proof rel_calculatePositionAndEmitLocation.
  intros Ht Ht' p. unfold timerEvent.
  destruct t; [done | done | |apply rel_skip].
  destruct (isActive _); [|apply rel_skip].
  destruct (negb _); [apply rel_skip|].
  destruct (recalculates _ _); [|apply G_setLocation].
  revert p.
  change (relates G (modify (set_m_signalUpdateCell false);;
                     modify (set_m_signalUpdateWlan false);;
                     calculatePositionAndEmitLocation env)).
  auto with relations.
Qed.

Lemma rel_handle_plain env ev :
  ev ≠ TimerEvent IdleTimer → ev ≠ TimerEvent FixLostTimer →
  relates G (handle env ev).
Proof.
  pose proof rel_startPositioningIfNeeded.
  pose proof rel_stopPositioningIfNeeded.
  intros Hev Hev'. destruct ev; simpl.
  - intros p. unfold AddReference.
    set (w := noWatchedServices p). clearbody w. revert p.
    change (relates G
      (modify (λ p, set_m_watcher (m_watcher p ++ [service]) p);;
       modify (λ p, let d := serviceEntry service p in
                set_m_watchedServices
                  (<[ service := {| referenceCount := to_int (referenceCount d + 1);
                                    updateInterval := updateInterval d |} ]>
                     (m_watchedServices p)) p);;
       (if w then modify (set_m_idleTimer None) else skip);;
       startPositioningIfNeeded env)).
    auto 10 with relations.
  - unfold RemoveReference. auto 10 with relations.
  - unfold SetOptions. destruct option_UpdateInterval; auto 10 with relations.
  - apply rel_skip.
  - apply rel_skip.
  - apply rel_timerEvent_plain; congruence.
  - unfold onlineWlanChanged. auto with relations.
  - apply G_setLocation.
  - intros p. apply rel_updateLocationFromCells.
  - unfold serviceUnregistered. auto 10 with relations.
  - apply rel_updatePositioningEnabled.
  - unfold cellularNetworkRegistrationChanged. auto with relations.
Qed.

Lemma rel_handle_other env ev :
  ev ≠ TimerEvent IdleTimer → relates G (handle env ev).
Proof.
  intros Hev.
  destruct ev as [| | | | |t| | | | | |];
    try (apply rel_handle_plain; [exact Hev | discriminate]).
  destruct t; try (apply rel_handle_plain; [exact Hev | discriminate]).
  intros p. simpl. unfold timerEvent.
  destruct (isActive _); [apply G_fixLost | apply rel_skip].
Qed.

Lemma rel_handle env ev : relates G (handle env ev).
Proof.
  destruct ev as [| | | | |t| | | | | |]; try (apply rel_handle_other; discriminate).
  destruct t; try (apply rel_handle_other; discriminate).
  intros p. simpl. unfold timerEvent.
  destruct (isActive _); [|apply rel_skip].
  unfold seq, modify, emit. simpl.
  apply (G_trans p (set_m_idleTimer None p) _ [] [Quit]);
    [by apply G_frame | apply G_quit].
Qed.

Lemma rel_run trace p : G p (run trace p) (runEffects trace p).
Proof.
  revert p. induction trace as [|[env ev] trace IH]; intros p; [by apply G_frame|].
  simpl. apply (G_trans _ (handle env ev p).1); [apply rel_handle | apply IH].
Qed.
End Relations.

(** The same for a relation that holds of every call of [setStatus] and of
    the last two steps of [setLocation]. *)

Section RelationsOfSteps.
Variable G : YandexProvider → YandexProvider → list Effect → Prop.
Hypothesis G_frame : ∀ p q, signalState p = signalState q → G p q [].
Hypothesis G_trans : ∀ p q r e1 e2, G p q e1 → G q r e2 → G p r (e1 ++ e2).
Hypothesis G_resolveCell :
  ∀ files id p, G p (resolveCell files id p).1.2 (resolveCell files id p).2.
Hypothesis G_setStatus : ∀ s, relates G (setStatus s).
Hypothesis G_adopt : ∀ l, relates G (adoptLocation l).
Hypothesis G_warning : ∀ msg p, G p p [Warning msg].
Hypothesis G_online : ∀ query accepted p, G p p [OnlineRequest query accepted].
Hypothesis G_quit : ∀ p, G p p [Quit].

Lemma steps_setLocation l : relates G (setLocation l).
Proof.
  unfold setLocation.
  change (modify (set_m_currentLocation l);; emitLocationChanged)
    with (adoptLocation l).
  repeat first
    [ exact (G_setStatus _) | exact (G_adopt _) | exact G_frame | exact G_trans
    | (apply rel_modify; [exact G_frame | intros ?; same_signalState])
    | apply rel_seq | apply rel_branch ].
Qed.

Lemma steps_fixLost : relates G fixLostBranch.
Proof.
  unfold fixLostBranch.
  apply rel_seq; [exact G_trans | | apply G_setStatus].
  apply rel_modify; [exact G_frame | intros ?; same_signalState].
Qed.

Lemma steps_handle_other env ev :
  ev ≠ TimerEvent IdleTimer → relates G (handle env ev).
Proof.
  apply rel_handle_other;
    first [exact G_frame | exact G_trans | exact G_resolveCell | exact steps_setLocation
          | exact (G_setStatus StatusUnavailable) | exact steps_fixLost
          | exact G_warning | exact G_online].
Qed.

Lemma steps_run trace p : G p (run trace p) (runEffects trace p).
Proof.
  apply rel_run;
    first [exact G_frame | exact G_trans | exact G_resolveCell | exact steps_setLocation
          | exact (G_setStatus StatusUnavailable) | exact steps_fixLost
          | exact G_warning | exact G_online | exact G_quit].
Qed.
End RelationsOfSteps.

(** ** The status signals *)

Lemma statusAfter_app s e1 e2 :
  statusAfter s (e1 ++ e2) = statusAfter s e1 ≫= λ s', statusAfter s' e2.
Proof.
  revert s. induction e1 as [|x e1 IH]; intros s; [done|].
  destruct x; simpl; try apply IH.
  case_bool_decide; [done | apply IH].
Qed.

Lemma statusAfter_run trace p :
  statusAfter (m_status p) (runEffects trace p) = Some (m_status (run trace p)).
Proof.
  apply (steps_run (λ p q e, statusAfter (m_status p) e = Some (m_status q))).
  - unfold signalState. by intros p0 q [= -> _ _ _].
  - intros p0 q r e1 e2 H1 H2. by rewrite statusAfter_app, H1.
  - intros files id p0. unfold resolveCell.
    repeat (case_match; simpl; try done).
  - intros s p0. unfold_handlers. case_bool_decide as Hs; simpl; [done|].
    rewrite bool_decide_eq_false_2; done.
  - intros l p0. done.
  - done.
  - done.
  - done.
Qed.

(** ** The position signals *)

Lemma positionFollows_frame p q :
  signalState p = signalState q → positionFollows p q [].
Proof. unfold signalState, positionFollows. by intros [= _ -> _ _]. Qed.

Lemma positionFollows_trans p q r e1 e2 :
  positionFollows p q e1 → positionFollows q r e2 → positionFollows p r (e1 ++ e2).
Proof.
  unfold positionFollows, positionSignals. rewrite omap_app, last_app.
  intros H1 H2. destruct (last (omap _ e2)); [exact H2|].
  destruct (last (omap _ e1)).
  - rewrite H1. unfold reportedPosition, GetPosition. by rewrite H2.
  - by rewrite H2.
Qed.

Lemma positionFollows_run trace p :
  positionFollows p (run trace p) (runEffects trace p).
Proof.
  apply (steps_run positionFollows).
  - apply positionFollows_frame.
  - apply positionFollows_trans.
  - intros files id p0. unfold resolveCell, positionFollows.
    repeat (case_match; simpl; try done).
  - intros s p0. unfold positionFollows. unfold_handlers.
    case_bool_decide; done.
  - intros l p0. done.
  - done.
  - done.
  - done.
Qed.

(** ** The probes of the data set *)

Lemma lookups_app e1 e2 : lookups (e1 ++ e2) = lookups e1 ++ lookups e2.
Proof. apply omap_app. Qed.

Lemma probesOnce_frame p q : signalState p = signalState q → probesOnce p q [].
Proof.
  unfold signalState, probesOnce, cached. intros [= _ _ -> ->].
  split; [constructor|]. split; [|done]. intros id Hin. by apply elem_of_nil in Hin.
Qed.

Lemma probesOnce_trans p q r e1 e2 :
  probesOnce p q e1 → probesOnce q r e2 → probesOnce p r (e1 ++ e2).
Proof.
  intros (Hd1 & Hin1 & Hk1) (Hd2 & Hin2 & Hk2). unfold probesOnce.
  rewrite lookups_app. split; [|split].
  - apply NoDup_app. split; [exact Hd1|]. split; [|exact Hd2].
    intros id H1 H2. destruct (Hin1 id H1) as [_ Hq]. by destruct (Hin2 id H2).
  - intros id Hin. apply elem_of_app in Hin as [Hin|Hin].
    + destruct (Hin1 id Hin) as [Hp Hq]. split; [exact Hp|].
      destruct (cached id q) as [x|] eqn:Hc; [|done]. by rewrite (Hk2 _ _ Hc).
    + destruct (Hin2 id Hin) as [Hq Hr]. split; [|exact Hr].
      destruct (cached id p) as [x|] eqn:Hc; [|done]. by rewrite (Hk1 _ _ Hc) in Hq.
  - intros id x Hc. by apply Hk2, Hk1.
Qed.

Lemma probesOnce_resolveCell files id p :
  probesOnce p (resolveCell files id p).1.2 (resolveCell files id p).2.
Proof.
  split; [|split].
  - destruct (cached id p) as [x|] eqn:Hc.
    + rewrite (resolveCell_cached _ _ _ _ Hc). constructor.
    + rewrite (resolveCell_unseen _ _ _ Hc). apply NoDup_singleton.
  - intros id' Hin. destruct (cached id p) as [x|] eqn:Hc.
    + rewrite (resolveCell_cached _ _ _ _ Hc) in Hin. by apply elem_of_nil in Hin.
    + pose proof (resolveCell_then_cached files id p) as Hthen.
      rewrite (resolveCell_unseen _ _ _ Hc) in Hin. simpl in Hin.
      apply list_elem_of_singleton in Hin as ->. split; [exact Hc|].
      by rewrite Hthen.
  - intros id' x. apply resolveCell_keeps_cached.
Qed.

Lemma probesOnce_same p q e :
  lookups e = [] →
  m_uniqueCellIdToLocation q = m_uniqueCellIdToLocation p →
  m_knownCellIdsWithUnknownLocations q = m_knownCellIdsWithUnknownLocations p →
  probesOnce p q e.
Proof.
  intros He Hpos Hneg. unfold probesOnce, cached. rewrite He, Hpos, Hneg.
  split; [constructor|]. split; [|done]. intros id Hin. by apply elem_of_nil in Hin.
Qed.

Lemma probesOnce_run trace p : probesOnce p (run trace p) (runEffects trace p).
Proof.
  apply (steps_run probesOnce).
  - apply probesOnce_frame.
  - apply probesOnce_trans.
  - apply probesOnce_resolveCell.
  - intros s p0. apply probesOnce_same; unfold_handlers; by case_bool_decide.
  - intros l p0. by apply probesOnce_same.
  - intros msg p0. by apply probesOnce_same.
  - intros query accepted p0. by apply probesOnce_same.
  - intros p0. by apply probesOnce_same.
Qed.

(** ** Quitting *)

Lemma handle_other_never_quits env ev p :
  ev ≠ TimerEvent IdleTimer → Quit ∉ (handle env ev p).2.
Proof.
  intros Hev.
  apply (steps_handle_other (λ _ _ e, Quit ∉ e)); try done.
  - intros _ _ _. apply not_elem_of_nil.
  - intros _ _ _ e1 e2 H1 H2 Hin. apply elem_of_app in Hin as [Hin|Hin]; tauto.
  - intros files id p0. unfold resolveCell.
    repeat (case_match; simpl; try apply not_elem_of_nil);
      intros Hin; by apply list_elem_of_singleton in Hin.
  - intros s p0. unfold_handlers. case_bool_decide; simpl; [apply not_elem_of_nil|].
    intros Hin. by apply list_elem_of_singleton in Hin.
  - intros l p0 Hin. by apply list_elem_of_singleton in Hin.
  - intros msg _ Hin. by apply list_elem_of_singleton in Hin.
  - intros query accepted _ Hin. by apply list_elem_of_singleton in Hin.
Qed.

(** ** Invariants of the settings *)

Lemma configInvariant_ext p q :
  configState p = configState q → m_mlsdbOnlineLocator p = m_mlsdbOnlineLocator q →
  configInvariant p → configInvariant q.
Proof.
  unfold configState, configInvariant.
  intros [= <- <- <- <- _ <-] <-. done.
Qed.

Lemma configInvariant_setLocation l : preserves configInvariant (setLocation l).
Proof.
  intros p. destruct (setLocation_outside l p) as (_ & Hc & Hl).
  by apply configInvariant_ext.
Qed.

Lemma configInvariant_updateLocationFromCells env cells :
  preserves configInvariant (updateLocationFromCells env cells).
Proof.
  intros p. destruct (updateLocationFromCells_outside env cells p) as (_ & Hc & Hl).
  by apply configInvariant_ext.
Qed.

Lemma configInvariant_calculatePosition env :
  preserves configInvariant (calculatePositionAndEmitLocation env).
Proof.
  intros p (H1 & H2 & H3).
  destruct (calculatePosition_outside env p) as (_ & Hc & Hl).
  unfold configState, configInvariant in *.
  injection Hc as -> -> -> -> _ ->. rewrite Hl.
  split; [exact H1|]. split; [exact H2|].
  destruct (m_mlsdbOnlineLocator p) as [w0|]; [exact H3|].
  destruct (m_onlinePositioningEnabled p); [|done]. by intros w [= <-].
Qed.

Lemma configInvariant_stopPositioningIfNeeded :
  preserves configInvariant stopPositioningIfNeeded.
Proof.
  intros p. destruct (stopPositioningIfNeeded_outside p) as (_ & Hc & Hl).
  by apply configInvariant_ext.
Qed.

Lemma configInvariant_startPositioningIfNeeded env :
  preserves configInvariant (startPositioningIfNeeded env).
Proof.
  intros p (H1 & H2 & H3).
  destruct (startPositioningIfNeeded_outside env p) as (_ & Hc & Hl).
  unfold configState, configInvariant in *.
  injection Hc as -> -> -> -> _ ->. rewrite Hl.
  split; [exact H1|]. split; [exact H2|].
  destruct (starts p); [|exact H3]. unfold locatorAfterCalculation.
  destruct (m_mlsdbOnlineLocator p) as [w0|]; [exact H3|].
  destruct (m_onlinePositioningEnabled p); [|done]. by intros w [= <-].
Qed.

Lemma configInvariant_updatePositioningEnabled env :
  preserves configInvariant (updatePositioningEnabled env).
Proof.
  unfold updatePositioningEnabled.
  destruct (getEnabled (settings env)) as [[[[[a b] c] d] e] f] eqn:Hget.
  assert (c = true → a && b = true) as Hc.
  { unfold getEnabled in Hget. injection Hget as <- <- <- _ _ _.
    destruct (location_enabled _), (location_mls_enabled _),
      (location_cell_id_positioning_enabled _), (location_mls_online_enabled _); done. }
  set (P1 := λ p, m_cellWatcher p = m_cellDataAllowed p
                  ∧ m_onlinePositioningEnabled p = c).
  set (P5 := λ p, P1 p ∧ ∀ w, m_mlsdbOnlineLocator p = Some w → w = m_wlanDataAllowed p).
  apply (hoare_seq configInvariant P1 configInvariant);
    [apply hoare_modify; intros p (H1 & _); by split|].
  apply (hoare_seq P1 P1 configInvariant);
    [apply hoare_modify; intros p H; exact H|].
  apply (hoare_seq P1 P1 configInvariant).
  { intros p [H1 H2]. unfold branch, seq, modify, skip.
    destruct (m_cellDataAllowed p) eqn:Hcda, e, (m_cellWatcher p) eqn:Hw;
      simpl; rewrite ?Hcda, ?Hw; simpl; split; simpl; congruence. }
  apply (hoare_seq P1 P1 configInvariant);
    [apply hoare_modify; intros p H; exact H|].
  apply (hoare_seq P1 P5 configInvariant).
  { apply hoare_modify. intros p [H1 H2].
    destruct (m_mlsdbOnlineLocator p) eqn:Hl; (split; [by split|]);
      simpl; rewrite ?Hl; [by intros w [= <-] | done]. }
  intros p [[H1 H2] H3]. unfold branch.
  destruct (Bool.eqb (m_positioningEnabled p) (a && b)) eqn:Heq.
  - apply Bool.eqb_prop in Heq. split; [exact H1|]. split; [|exact H3].
    simpl. rewrite H2, Heq. exact Hc.
  - destruct (a && b) eqn:Hab.
    + assert (configInvariant (set_m_positioningEnabled true p)) as HK
        by (split; [exact H1|]; split; [done | exact H3]).
      unfold seq, modify.
      pose proof (configInvariant_startPositioningIfNeeded env _ HK) as H.
      by destruct (startPositioningIfNeeded env _).
    + assert (configInvariant (set_m_positioningEnabled false p)) as HK.
      { split; [exact H1|]. split; [|exact H3]. simpl. rewrite H2.
        intros ->. by specialize (Hc eq_refl). }
      unfold seq, modify.
      pose proof (configInvariant_setLocation Location_default _ HK) as H.
      destruct (setLocation Location_default _) as [q1 e1]. simpl in H.
      pose proof (configInvariant_stopPositioningIfNeeded _ H) as H'.
      by destruct (stopPositioningIfNeeded q1).
Qed.

Lemma configInvariant_timerEvent env t :
  preserves configInvariant (timerEvent env t).
Proof.
  intros p HK. unfold timerEvent. destruct t.
  - destruct (isActive _); [|exact HK]. by apply (configInvariant_ext p).
  - destruct (isActive _); [|exact HK].
    change ((modify (set_m_fixLostTimer None);; setStatus StatusAcquiring) p)
      with (fixLostBranch p).
    destruct (fixLostBranch_outside p) as (_ & Hc & Hl).
    by apply (configInvariant_ext p).
  - destruct (isActive _); [|exact HK].
    destruct (negb _); [exact HK|].
    destruct (recalculates _ _); [|by apply configInvariant_setLocation].
    unfold seq, modify.
    pose proof (configInvariant_calculatePosition env
      (set_m_signalUpdateWlan false (set_m_signalUpdateCell false p))) as H.
    destruct (calculatePositionAndEmitLocation env _) as [q e]. apply H.
    by apply (configInvariant_ext p).
  - exact HK.
Qed.

Lemma configInvariant_handle env ev : preserves configInvariant (handle env ev).
Proof.
  destruct ev; simpl.
  - intros p HK. rewrite AddReference_outside. cbv zeta.
    apply configInvariant_startPositioningIfNeeded.
    apply (configInvariant_ext p); [| |exact HK]; by destruct (noWatchedServices p).
  - intros p HK. rewrite RemoveReference_outside. cbv zeta.
    apply configInvariant_stopPositioningIfNeeded.
    apply (configInvariant_ext p); [| |exact HK];
      destruct (countAfterRemove service p =? 0);
      by match goal with
         | |- context [noWatchedServices ?x] => destruct (noWatchedServices x)
         end.
  - intros p HK. unfold SetOptions, branch.
    case_bool_decide; [exact HK|]. destruct option_UpdateInterval; [|exact HK].
    by apply (configInvariant_ext p).
  - apply preserves_skip.
  - apply preserves_skip.
  - apply configInvariant_timerEvent.
  - apply preserves_modify. intros p. by apply configInvariant_ext.
  - apply configInvariant_setLocation.
  - intros p. apply configInvariant_updateLocationFromCells.
  - intros p HK. rewrite serviceUnregistered_outside. cbv zeta.
    apply configInvariant_stopPositioningIfNeeded.
    apply (configInvariant_ext p); [| |exact HK];
      by match goal with
         | |- context [noWatchedServices ?x] => destruct (noWatchedServices x)
         end.
  - apply configInvariant_updatePositioningEnabled.
  - apply preserves_modify. intros p. by apply configInvariant_ext.
Qed.

Lemma configInvariant_reachable p : reachable p → configInvariant p.
Proof.
  induction 1 as [env|env ev p Hr IH]; [|by apply configInvariant_handle].
  assert (configInvariant initial) as H0 by (split; [done|]; split; done).
  unfold construct.
  pose proof (configInvariant_updatePositioningEnabled env initial H0) as HK.
  unfold seq. destruct (updatePositioningEnabled env initial) as [q e]. simpl in HK.
  unfold branch, modify, skip, cellularNetworkRegistrationChanged.
  destruct (noWatchedServices q); simpl;
    destruct (m_positioningEnabled q) eqn:Hen; simpl; rewrite ?Hen; simpl;
    by apply (configInvariant_ext q).
Qed.

(** ** The search of the data set *)

Lemma searchForCellIdLocation_cons f rest id :
  searchForCellIdLocation (f :: rest) id
  = if searched id f
    then match perLcCellIdToLocations f !! id with
         | Some coords => Some coords
         | None => searchForCellIdLocation rest id
         end
    else searchForCellIdLocation rest id.
Proof.
  unfold searched. simpl.
  destruct (endsWith_ci _ _); simpl; [|done].
  destruct (decide (file_magic f = 0xc710cdb)) as [Hm|Hm].
  - rewrite (bool_decide_eq_false_2 (file_magic f ≠ _)) by tauto.
    rewrite (bool_decide_eq_true_2 _ Hm). simpl.
    destruct (decide (file_version f = 3)) as [Hv|Hv].
    + rewrite (bool_decide_eq_false_2 (file_version f ≠ _)) by tauto.
      by rewrite (bool_decide_eq_true_2 _ Hv).
    + rewrite (bool_decide_eq_true_2 (file_version f ≠ _)) by done.
      by rewrite (bool_decide_eq_false_2 _ Hv).
  - rewrite (bool_decide_eq_true_2 (file_magic f ≠ _)) by done.
    by rewrite (bool_decide_eq_false_2 _ Hm).
Qed.

Lemma searchForCellIdLocation_skip before rest id :
  (∀ g, g ∈ before → searched id g = true → perLcCellIdToLocations g !! id = None) →
  searchForCellIdLocation (before ++ rest) id = searchForCellIdLocation rest id.
Proof.
  induction before as [|g before IH]; intros Hb; [done|].
  rewrite <- app_comm_cons, searchForCellIdLocation_cons.
  assert (g ∈ g :: before) as Hg by (apply elem_of_cons; by left).
  destruct (searched id g) eqn:Hs.
  - rewrite (Hb g Hg Hs). apply IH. intros g' Hin. apply Hb, elem_of_cons. by right.
  - apply IH. intros g' Hin. apply Hb, elem_of_cons. by right.
Qed.

Lemma searchForCellIdLocation_found files id c :
  searchForCellIdLocation files id = Some c →
  ∃ before f after,
    files = before ++ f :: after
    ∧ searched id f = true
    ∧ perLcCellIdToLocations f !! id = Some c
    ∧ ∀ g, g ∈ before → searched id g = true → perLcCellIdToLocations g !! id = None.
Proof.
  induction files as [|f files IH]; [done|].
  rewrite searchForCellIdLocation_cons.
  destruct (searched id f) eqn:Hs.
  - destruct (perLcCellIdToLocations f !! id) as [c'|] eqn:Hl.
    + intros [= ->]. exists [], f, files. repeat split; try done.
      intros g Hin. by apply elem_of_nil in Hin.
    + intros H. destruct (IH H) as (before & f' & after & -> & Hs' & Hl' & Hb).
      exists (f :: before), f', after. repeat split; try done.
      intros g Hin. apply elem_of_cons in Hin as [->|Hin]; [done | by apply Hb].
  - intros H. destruct (IH H) as (before & f' & after & -> & Hs' & Hl' & Hb).
    exists (f :: before), f', after. repeat split; try done.
    intros g Hin. apply elem_of_cons in Hin as [->|Hin]; [congruence | by apply Hb].
Qed.

(** ** The first report of a cell *)

Lemma snoc_split {A : Type} (before after watched : list A) (x c : A) :
  before ++ x :: after = watched ++ [c] →
  (after = [] ∧ x = c ∧ before = watched)
  ∨ ∃ after', after = after' ++ [c] ∧ watched = before ++ x :: after'.
Proof.
  destruct after as [|y after' _] using rev_ind.
  - intros H. apply app_inj_tail in H as [-> ->]. by left.
  - intros H. right. exists after'.
    change (before ++ x :: after' ++ [y]) with (before ++ (x :: after') ++ [y]) in H.
    rewrite app_assoc in H. apply app_inj_tail in H as [<- ->]. done.
Qed.

Lemma seenCellIds_loop_first (watched : list QOfonoExtCell) (cell : CellPositioningData) :
  cell ∈ loop_cells (fold_left seenCellIds_step watched (mkSeenLoop [] 1 ∅))
  ↔ ∃ before c after,
      watched = before ++ c :: after
      ∧ report c = Some cell
      ∧ ∀ c', c' ∈ before → cell_identity c' ≠ Some (uniqueCellId cell).
Proof.
  induction watched as [|c watched IH] using rev_ind.
  - simpl. split; [intros H; by apply elem_of_nil in H|].
    intros (before & c & after & H & _). by destruct before.
  - destruct (seenCellIds_loop watched) as (_ & Hcells & Hseen).
    cbv zeta in Hcells, Hseen.
    rewrite fold_left_app. simpl.
    set (acc := fold_left seenCellIds_step watched (mkSeenLoop [] 1 ∅)) in *.
    assert ((∃ before c0 after,
               watched ++ [c] = before ++ c0 :: after
               ∧ report c0 = Some cell
               ∧ ∀ c', c' ∈ before → cell_identity c' ≠ Some (uniqueCellId cell))
            ↔ cell ∈ loop_cells acc
              ∨ (report c = Some cell
                 ∧ ∀ c', c' ∈ watched → cell_identity c' ≠ Some (uniqueCellId cell)))
      as Hext.
    { rewrite IH. split.
      - intros (before & c0 & after & Heq & Hrep & Hb).
        symmetry in Heq. apply snoc_split in Heq as [(-> & -> & ->)|(after' & -> & ->)].
        + by right.
        + left. by exists before, c0, after'.
      - intros [(before & c0 & after & -> & Hrep & Hb)|[Hrep Hb]].
        + exists before, c0, (after ++ [c]). by rewrite <- app_assoc.
        + by exists watched, c, []. }
    rewrite Hext. clear Hext IH.
    assert (∀ id, id ∉ loop_seenCellIds acc
                  ↔ ∀ c', c' ∈ watched → cell_identity c' ≠ Some id) as Hnew.
    { intros id. rewrite Hseen. split.
      - intros Hn c' Hin Hid. apply Hn. by exists c'.
      - intros Hn (c' & Hin & Hid). by apply (Hn c'). }
    unfold seenCellIds_step, report.
    destruct (cell_identity c) as [id|] eqn:Hid; simpl.
    + case_bool_decide as Hin; simpl.
      * split; [by left|]. intros [H|[[= <-] Hb]]; [exact H|].
        simpl in Hb. by apply Hnew in Hb.
      * rewrite elem_of_app, list_elem_of_singleton. split.
        -- intros [H| ->]; [by left|]. right. split; [done|]. by apply Hnew.
        -- intros [H|[[= <-] _]]; [by left | by right].
    + split; [by left | by intros [H|[? _]]].
Qed.

Lemma seenCellIds_loop_prefix (w1 w2 : list QOfonoExtCell) (acc : SeenLoop) :
  ∃ more, loop_cells (fold_left seenCellIds_step w2 acc) = loop_cells acc ++ more.
Proof.
  revert acc. induction w2 as [|c w2 IH]; intros acc.
  - exists []. by rewrite app_nil_r.
  - simpl. destruct (IH (seenCellIds_step acc c)) as [more ->].
    unfold seenCellIds_step. destruct (cell_identity c) as [id|]; [|by exists more].
    case_bool_decide; [by exists more|]. simpl.
    eexists. by rewrite <- app_assoc.
Qed.

Lemma searchForCellIdLocation_None files id :
  searchForCellIdLocation files id = None
  ↔ ∀ f, f ∈ files → searched id f = true → perLcCellIdToLocations f !! id = None.
Proof.
  induction files as [|f files IH].
  - split; [|done]. intros _ f Hin. by apply elem_of_nil in Hin.
  - rewrite searchForCellIdLocation_cons. split.
    + intros H g Hin Hs. apply elem_of_cons in Hin as [->|Hin].
      * rewrite Hs in H. by destruct (perLcCellIdToLocations f !! id).
      * destruct (searched id f); [destruct (perLcCellIdToLocations f !! id); [done|]|];
          by apply (proj1 IH H).
    + intros H.
      assert (searchForCellIdLocation files id = None) as Hrest.
      { apply IH. intros g Hin. apply H, elem_of_cons. by right. }
      destruct (searched id f) eqn:Hs; [|exact Hrest].
      rewrite (H f); [exact Hrest | apply elem_of_cons; by left | exact Hs].
Qed.

(** * The properties of the session, the signals and the data set *)

(** X1.  In every state the object can reach, positioning is started
    exactly when positioning is enabled and the table of watched services is
    not empty: [startPositioningIfNeeded] and [stopPositioningIfNeeded] are
    called wherever one of the two conditions changes. *)
Theorem positioning_started_iff_enabled_and_used :
  ∀ p : YandexProvider,
    reachable p →
    m_positioningStarted p = m_positioningEnabled p && negb (noWatchedServices p).
Proof. intros p Hr. exact (proj1 (sessionInvariant_reachable p Hr)). Qed.

Lemma positioning_started_iff_enabled_and_used_witness :
  m_positioningStarted one_client
  = m_positioningEnabled one_client && negb (noWatchedServices one_client).
Proof.
  exact (positioning_started_iff_enabled_and_used one_client
           (reachable_run _ _ (reachable_construct (example_env 0)))).
Defined.

(** X2.  In every state the object can reach, the idle timer, when it runs,
    runs with the interval [QuitIdleTime] and the table of watched services
    is empty. *)
Theorem idle_timer_runs_only_without_clients :
  ∀ p : YandexProvider,
    reachable p →
    ∀ t, m_idleTimer p = Some t → t = QuitIdleTime ∧ m_watchedServices p = ∅.
Proof.
  intros p Hr t Ht.
  destruct (sessionInvariant_reachable p Hr) as (_ & [Hnone|[Hsome Hempty]] & _);
    [congruence|]. split; [congruence | exact Hempty].
Qed.

Lemma idle_timer_runs_only_without_clients_witness :
  30000 = QuitIdleTime ∧ m_watchedServices (construct (example_env 0) initial).1 = ∅.
Proof.
  apply (idle_timer_runs_only_without_clients (construct (example_env 0) initial).1
           (reachable_construct (example_env 0))).
  vm_compute. reflexivity.
Defined.

(** X3.  In every state the object can reach, while positioning is started
    the last call on the recalculation timer is a [start], and the [int]
    that [start] was given is the conversion of a [quint32] between
    [MinimumInterval] and [UINT_MAX]: that value itself, at least
    [MinimumInterval], when it is at most [INT_MAX], and negative when the
    value is larger.  The second case is reached: after the only client has
    requested 3000000000 ms, the timer was started with -1294967296. *)
Theorem recalculation_timer_started_with_int :
  (∀ p : YandexProvider,
     reachable p →
     (m_positioningStarted p = true → ∃ t, m_recalculatePositionTimer p = Some t)
     ∧ (∀ t, m_recalculatePositionTimer p = Some t →
          ∃ m, MinimumInterval ≤ m ≤ UINT_MAX
               ∧ t = to_int m
               ∧ (m ≤ INT_MAX → t = m)
               ∧ (INT_MAX < m → t = m - 4294967296 ∧ t < 0)))
  ∧ (let p := run [(example_env 2000, CallSetOptions ":1.42" (Some 3000000000))]
                one_client in
     m_positioningStarted p = true
     ∧ m_recalculatePositionTimer p = Some (-1294967296)).
Proof.
  split; [|vm_compute; split; reflexivity].
  intros p Hr. destruct (sessionInvariant_reachable p Hr) as (_ & _ & Hrun & Hint).
  split; [exact Hrun|].
  intros t Ht. destruct (Hint t Ht) as (m & Hm & ->).
  exists m. split; [exact Hm|]. split; [reflexivity|].
  apply to_int_quint32. unfold MinimumInterval in Hm. lia.
Qed.

Lemma recalculation_timer_started_with_int_witness :
  ∃ t, m_recalculatePositionTimer one_client = Some t.
Proof.
  apply (proj1 (proj1 recalculation_timer_started_with_int one_client
                  (reachable_run _ _ (reachable_construct (example_env 0))))).
  vm_compute. reflexivity.
Defined.

(** X4.  An event whose handling makes the program quit is the event of the
    idle timer, handled while that timer runs; and in a state the object can
    reach, the table of watched services is then empty and positioning is
    not started. *)
Theorem quits_only_when_idle :
  ∀ (env : Env) (ev : Event) (p : YandexProvider),
    reachable p →
    Quit ∈ (handle env ev p).2 →
    ev = TimerEvent IdleTimer
    ∧ m_idleTimer p = Some QuitIdleTime
    ∧ m_watchedServices p = ∅
    ∧ m_positioningStarted p = false.
Proof.
  intros env ev p Hr Hq.
  assert (ev = TimerEvent IdleTimer) as ->.
  { destruct ev as [| | | | |t| | | | | |];
      try (exfalso; revert Hq; apply handle_other_never_quits; discriminate).
    destruct t; try (exfalso; revert Hq; apply handle_other_never_quits; discriminate).
    reflexivity. }
  split; [reflexivity|].
  simpl in Hq. unfold timerEvent in Hq.
  destruct (m_idleTimer p) as [t|] eqn:Ht; [|by apply elem_of_nil in Hq].
  destruct (sessionInvariant_reachable p Hr) as (Hst & [Hnone|[Hsome Hempty]] & _);
    [congruence|].
  split; [congruence|]. split; [exact Hempty|].
  rewrite Hst. unfold noWatchedServices.
  rewrite (bool_decide_eq_true_2 _ Hempty). apply andb_false_r.
Qed.

Lemma quits_only_when_idle_witness :
  TimerEvent IdleTimer = TimerEvent IdleTimer
  ∧ m_idleTimer (construct (example_env 0) initial).1 = Some QuitIdleTime
  ∧ m_watchedServices (construct (example_env 0) initial).1 = ∅
  ∧ m_positioningStarted (construct (example_env 0) initial).1 = false.
Proof.
  apply (quits_only_when_idle (example_env 30000) (TimerEvent IdleTimer)
           (construct (example_env 0) initial).1 (reachable_construct (example_env 0))).
  vm_compute. constructor.
Defined.

(** X5.  Over any sequence of events handled from any state, a client that
    knows the status at the start and follows the [StatusChanged] signals
    knows what [GetStatus] returns at the end; and no [StatusChanged] signal
    carries the status the client already has. *)
Theorem status_signals_follow_status :
  ∀ (trace : list (Env * Event)) (p : YandexProvider),
    statusAfter (GetStatus p) (runEffects trace p) = Some (GetStatus (run trace p)).
Proof. intros trace p. apply statusAfter_run. Qed.

(** X6.  Over any sequence of events handled from any state, the last
    [PositionChanged] signal carries the values [GetPosition] returns at the
    end; and when no such signal was emitted, the current location, and so
    what [GetPosition] returns, is what it was at the start. *)
Theorem position_signals_follow_position :
  ∀ (trace : list (Env * Event)) (p : YandexProvider),
    match last (positionSignals (runEffects trace p)) with
    | Some signal => signal = reportedPosition (run trace p)
    | None => m_currentLocation (run trace p) = m_currentLocation p
              ∧ GetPosition (run trace p) = GetPosition p
    end.
Proof.
  intros trace p. pose proof (positionFollows_run trace p) as H.
  unfold positionFollows in H.
  destruct (last (positionSignals (runEffects trace p))); [exact H|].
  split; [exact H|]. unfold GetPosition. by rewrite H.
Qed.

(** X7.  Over any sequence of events handled from any state, the data set
    is probed at most once for a cell identity, and never for an identity
    that one of the two caches held at the start; every identity probed is
    in one of the caches at the end. *)
Theorem data_set_probed_once :
  ∀ (trace : list (Env * Event)) (p : YandexProvider),
    NoDup (lookups (runEffects trace p))
    ∧ ∀ id, id ∈ lookups (runEffects trace p) →
            cached id p = None ∧ cached id (run trace p) ≠ None.
Proof.
  intros trace p. destruct (probesOnce_run trace p) as (Hnd & Hin & _).
  split; assumption.
Qed.

(** X8.  In every state the object can reach, the cell watcher exists
    exactly when the use of cell data is allowed: where [seenCellIds] goes
    past the test of line 373, the pointer it dereferences at lines 377 and
    380 is not null. *)
Theorem cell_watcher_exists_when_allowed :
  ∀ p : YandexProvider, reachable p → m_cellWatcher p = m_cellDataAllowed p.
Proof. intros p Hr. exact (proj1 (configInvariant_reachable p Hr)). Qed.

Lemma cell_watcher_exists_when_allowed_witness :
  m_cellWatcher one_client = m_cellDataAllowed one_client.
Proof.
  exact (cell_watcher_exists_when_allowed one_client
           (reachable_run _ _ (reachable_construct (example_env 0)))).
Defined.

(** X9.  In every state the object can reach, an online locator that exists
    was last given the current permission to use wlan data, and online
    positioning is enabled only if positioning is enabled. *)
Theorem online_locator_has_current_permission :
  ∀ p : YandexProvider,
    reachable p →
    (∀ w, m_mlsdbOnlineLocator p = Some w → w = m_wlanDataAllowed p)
    ∧ (m_onlinePositioningEnabled p = true → m_positioningEnabled p = true).
Proof.
  intros p Hr. destruct (configInvariant_reachable p Hr) as (_ & Hon & Hloc).
  split; assumption.
Qed.

Lemma online_locator_has_current_permission_witness :
  true = m_wlanDataAllowed one_client.
Proof.
  apply (proj1 (online_locator_has_current_permission one_client
                  (reachable_run _ _ (reachable_construct (example_env 0))))).
  vm_compute. reflexivity.
Defined.

(** X10.  [searchForCellIdLocation] returns the coordinates the first
    directory entry gives among those that are read for the identity (the
    path ends, whatever the case, with the bucket of the first digit of the
    location code, and the file has the magic number and version 3) and
    hold the identity; it fails exactly when no entry that is read holds the
    identity.  Entries that are not read, and entries read that do not hold the
    identity, are passed over. *)
Theorem first_searched_file_wins :
  ∀ (files : list DataFile) (id : MlsdbUniqueCellId),
    (∀ c, searchForCellIdLocation files id = Some c
          ↔ ∃ before f after,
              files = before ++ f :: after
              ∧ searched id f = true
              ∧ perLcCellIdToLocations f !! id = Some c
              ∧ ∀ g, g ∈ before → searched id g = true →
                     perLcCellIdToLocations g !! id = None)
    ∧ (searchForCellIdLocation files id = None
       ↔ ∀ f, f ∈ files → searched id f = true →
              perLcCellIdToLocations f !! id = None).
Proof.
  intros files id. split; [|apply searchForCellIdLocation_None].
  intros c. split; [apply searchForCellIdLocation_found|].
  intros (before & f & after & -> & Hs & Hl & Hb).
  rewrite (searchForCellIdLocation_skip _ _ _ Hb), searchForCellIdLocation_cons.
  by rewrite Hs, Hl.
Qed.

(** X11.  With cell data allowed, an observation is in the list
    [seenCellIds] returns exactly when it is the observation of a reported
    cell that no earlier reported cell shares its identity with: an identity
    reported several times is observed with the signal strength of its first
    report.  The observations are in the order of these first reports: the
    list for a prefix of the reported cells is a prefix of the list. *)
Theorem first_report_wins :
  (∀ (watched : list QOfonoExtCell) (cell : CellPositioningData),
     cell ∈ seenCellIds true watched
     ↔ ∃ before c after,
         watched = before ++ c :: after
         ∧ report c = Some cell
         ∧ ∀ c', c' ∈ before → cell_identity c' ≠ Some (uniqueCellId cell))
  ∧ (∀ w1 w2 : list QOfonoExtCell,
       ∃ more, seenCellIds true (w1 ++ w2) = seenCellIds true w1 ++ more).
Proof.
  split.
  - intros watched cell. apply seenCellIds_loop_first.
  - intros w1 w2. unfold seenCellIds. simpl. rewrite fold_left_app.
    apply (seenCellIds_loop_prefix w1).
Qed.

(** ** References *)

(** X12.  A client that is not in the table and calls [AddReference] n > 0
    times, and then [RemoveReference] k <= n times, is in the table with
    reference count n - k and no requested interval when k < n, and is not
    in the table when k = n; the entries of the other clients are what they
    were.  When the last reference is given back and the table is empty,
    the idle timer runs with [QuitIdleTime]. *)
Theorem references_are_counted :
  ∀ (service : string) (adds removes : list Env) (p : YandexProvider),
    m_watchedServices p !! service = None →
    adds ≠ [] →
    (length removes ≤ length adds)%nat →
    Z.of_nat (length adds) ≤ INT_MAX →
    let q := run (addReferences service adds ++ removeReferences service removes) p in
    m_watchedServices q !! service
      = (if bool_decide (length removes = length adds) then None
         else Some {| referenceCount := Z.of_nat (length adds) - Z.of_nat (length removes);
                      updateInterval := 0 |})
    ∧ (∀ other, other ≠ service →
         m_watchedServices q !! other = m_watchedServices p !! other)
    ∧ (length removes = length adds → m_watchedServices q = ∅ →
       m_idleTimer q = Some QuitIdleTime).
Proof.
  intros service adds removes p Hnone Hadds Hle Hmax q. subst q.
  rewrite run_app.
  assert (serviceEntry service p = ServiceData_default) as Hentry
    by (unfold serviceEntry; by rewrite Hnone).
  destruct (addReferences_table service adds p) as [Hadd Hother];
    [rewrite Hentry; simpl; lia | rewrite Hentry; simpl; lia | exact Hadds |].
  rewrite Hentry in Hadd. simpl in Hadd.
  assert (0 < Z.of_nat (length adds)) as Hpos by (destruct adds; [done | simpl; lia]).
  destruct (removeReferences_table service removes
              (run (addReferences service adds) p) _ _ Hadd) as (Hrem & Hother' & Hidle);
    [lia | exact Hpos |].
  split; [|split].
  - rewrite Hrem.
    destruct (decide (length removes = length adds)) as [Heq|Hne].
    + rewrite !bool_decide_eq_true_2; [done | exact Heq | lia].
    + rewrite !bool_decide_eq_false_2; [done | exact Hne | lia].
  - intros other Hne. by rewrite Hother', Hother.
  - intros Heq. apply Hidle. destruct removes; [by destruct adds | done].
Qed.

Lemma references_are_counted_witness :
  m_watchedServices
    (run (addReferences ":1.42" [example_env 1000; example_env 2000]
          ++ removeReferences ":1.42" [example_env 3000])
       (construct (example_env 0) initial).1) !! ":1.42"
  = Some {| referenceCount := 1; updateInterval := 0 |}.
Proof.
  refine (proj1 (references_are_counted ":1.42" [example_env 1000; example_env 2000]
                   [example_env 3000] (construct (example_env 0) initial).1 _ _ _ _)).
  - vm_compute. reflexivity.
  - discriminate.
  - simpl. lia.
  - vm_compute. discriminate.
Defined.

(** ** The requested interval *)

Lemma minimumInterval_active (l : list ServiceData) (a : Z) :
  fold_left minimumInterval_step l a
  = fold_left Z.min
      (updateInterval <$>
         List.filter (λ d, (0 <? referenceCount d) && negb (updateInterval d =? 0)) l) a.
Proof.
  revert a. induction l as [|d l IH]; intros a; [done|].
  simpl. unfold minimumInterval_step at 2.
  destruct (Z.leb_spec (referenceCount d) 0), (Z.ltb_spec 0 (referenceCount d)),
    (Z.eqb_spec (updateInterval d) 0); simpl; try lia; apply IH.
Qed.

(** X13.  [minimumRequestedUpdateInterval] passes over the entries whose
    reference count is not positive and those whose interval is 0.  When the
    intervals of the other entries are all below [UINT_MAX], it returns
    [MinimumInterval] if there is none, and otherwise the least of them,
    raised to [MinimumInterval]. *)
Theorem interval_is_least_request :
  ∀ services : gmap string ServiceData,
    Forall (λ x, x < UINT_MAX) (activeRequests services) →
    (activeRequests services = [] →
     minimumRequestedUpdateInterval services = MinimumInterval)
    ∧ (activeRequests services ≠ [] →
       ∃ m, m ∈ activeRequests services
            ∧ Forall (λ x, m ≤ x) (activeRequests services)
            ∧ minimumRequestedUpdateInterval services = Z.max m MinimumInterval).
Proof.
  intros services Hlt.
  unfold minimumRequestedUpdateInterval, minimumInterval_loop.
  rewrite minimumInterval_active. fold (activeRequests services).
  split.
  - intros ->. reflexivity.
  - intros Hne. destruct (fold_min_in (activeRequests services) UINT_MAX) as [Heq|Hin].
    + destruct (activeRequests services) as [|x l]; [done|].
      destruct (fold_min_le (x :: l) UINT_MAX) as [_ Hle].
      apply Forall_cons in Hle as [Hle _]. apply Forall_cons in Hlt as [Hlt _]. lia.
    + exists (fold_left Z.min (activeRequests services) UINT_MAX).
      split; [exact Hin|]. split; [apply fold_min_le|].
      rewrite Forall_forall in Hlt. specialize (Hlt _ Hin).
      by rewrite (proj2 (Z.eqb_neq _ _)) by lia.
Qed.

Lemma interval_is_least_request_witness :
  minimumRequestedUpdateInterval
    (<[ "a" := mkServiceData 1 0 ]>
       (<[ "b" := mkServiceData 0 5000 ]>
          (<[ "c" := mkServiceData 1 50000 ]> ∅)))
  = 50000.
Proof.
  assert (activeRequests
            (<[ "a" := mkServiceData 1 0 ]>
               (<[ "b" := mkServiceData 0 5000 ]>
                  (<[ "c" := mkServiceData 1 50000 ]> ∅))) = [50000]) as Hactive
    by (vm_compute; reflexivity).
  destruct (interval_is_least_request
              (<[ "a" := mkServiceData 1 0 ]>
                 (<[ "b" := mkServiceData 0 5000 ]>
                    (<[ "c" := mkServiceData 1 50000 ]> ∅)))) as [_ H].
  - rewrite Hactive. repeat constructor.
  - rewrite Hactive in H. destruct H as (m & Hin & _ & ->); [discriminate|].
    apply list_elem_of_singleton in Hin as ->. reflexivity.
Defined.

(** ** The fields of a position *)

Lemma positionFields_sum (l : Location) :
  positionFields l
  = (if qIsNaN (latitude l) then 0 else 1)
    + (if qIsNaN (longitude l) then 0 else 2)
    + (if qIsNaN (altitude l) then 0 else 4).
Proof.
  unfold positionFields.
  destruct (qIsNaN (latitude l)), (qIsNaN (longitude l)), (qIsNaN (altitude l));
    reflexivity.
Qed.

(** X14.  The bitmask [GetPosition] returns, which is also the one the
    [PositionChanged] signal carries, has bit 0 set exactly when the latitude
    of the current location is not NaN, bit 1 exactly when the longitude is
    not NaN, bit 2 exactly when the altitude is not NaN, and no other bit. *)
Theorem position_fields_bits :
  ∀ p : YandexProvider,
    let fields := (GetPosition p).1 in
    Z.testbit fields 0 = negb (qIsNaN (latitude (m_currentLocation p)))
    ∧ Z.testbit fields 1 = negb (qIsNaN (longitude (m_currentLocation p)))
    ∧ Z.testbit fields 2 = negb (qIsNaN (altitude (m_currentLocation p)))
    ∧ 0 ≤ fields < 8
    ∧ reportedPosition p = positionChanged (m_currentLocation p).
Proof.
  intros p.
  change (GetPosition p).1 with (positionFields (m_currentLocation p)).
  cbv zeta. rewrite positionFields_sum.
  destruct (qIsNaN (latitude (m_currentLocation p))),
    (qIsNaN (longitude (m_currentLocation p))),
    (qIsNaN (altitude (m_currentLocation p)));
    repeat split; first [lia | reflexivity].
Qed.

(** ** Starting and stopping twice *)

(** X15.  [startPositioningIfNeeded] and [stopPositioningIfNeeded] are
    idempotent: called a second time, whatever the cells and the clock then
    are, each changes nothing and emits nothing. *)
Theorem start_and_stop_are_idempotent :
  ∀ (env env' : Env) (p : YandexProvider),
    startPositioningIfNeeded env' (startPositioningIfNeeded env p).1
      = ((startPositioningIfNeeded env p).1, [])
    ∧ stopPositioningIfNeeded (stopPositioningIfNeeded p).1
      = ((stopPositioningIfNeeded p).1, []).
Proof.
  intros env env' p. split.
  - destruct (startPositioningIfNeeded_outside env p) as (Hs & Hc & _).
    set (q := (startPositioningIfNeeded env p).1) in *.
    assert (starts q = false) as Hq.
    { unfold starts, noWatchedServices, sessionState, configState in *.
      injection Hc as -> _ _ _ _ _.
      destruct (m_positioningStarted p) eqn:Hst; simpl in Hs.
      - by injection Hs as _ _ _ -> _.
      - destruct (bool_decide (m_watchedServices p = ∅)) eqn:He; simpl in Hs.
        + injection Hs as -> _ _ _ _. rewrite He. by destruct (m_positioningStarted q).
        + destruct (m_positioningEnabled p); simpl in Hs.
          * by injection Hs as _ _ _ -> _.
          * apply andb_false_r. }
    unfold startPositioningIfNeeded at 1. unfold branch, skip.
    unfold starts in Hq.
    destruct (m_positioningStarted q); [done|].
    destruct (noWatchedServices q); [done|].
    by destruct (m_positioningEnabled q).
  - destruct (stopPositioningIfNeeded_outside p) as (Hs & Hc & _).
    set (q := (stopPositioningIfNeeded p).1) in *.
    assert (stops q = false) as Hq.
    { unfold stops, noWatchedServices, sessionState, configState in *.
      injection Hc as -> _ _ _ _ _.
      destruct (m_positioningStarted p) eqn:Hst; simpl in Hs.
      - destruct (m_positioningEnabled p && negb (bool_decide (m_watchedServices p = ∅)))
          eqn:He; simpl in Hs.
        + injection Hs as -> _ _ -> _. by rewrite He.
        + by injection Hs as _ _ _ -> _.
      - by injection Hs as _ _ _ -> _. }
    unfold stopPositioningIfNeeded at 1. unfold branch, skip.
    unfold stops in Hq.
    destruct (m_positioningStarted q); [|done]. simpl in *.
    by rewrite (proj1 (negb_false_iff _) Hq).
Qed.

(** ** What the first loop leaves in the caches *)

Lemma locate_snoc files cells c p :
  locate files (cells ++ [c]) p = locate_step files (locate files cells p) c.
Proof. unfold locate. by rewrite fold_left_app. Qed.

Lemma locate_step_provider files acc c :
  loop_provider (locate_step files acc c)
    = (resolveCell files (uniqueCellId c) (loop_provider acc)).1.2
  ∧ loop_effects (locate_step files acc c)
    = loop_effects acc ++ (resolveCell files (uniqueCellId c) (loop_provider acc)).2.
Proof.
  unfold locate_step.
  destruct (resolveCell files (uniqueCellId c) (loop_provider acc)) as [[r q] e].
  by destruct r.
Qed.

Lemma locate_cached files cells p cell :
  cell ∈ cells →
  cached (uniqueCellId cell) (loop_provider (locate files cells p))
  = Some (resolution files p (uniqueCellId cell)).
Proof.
  induction cells as [|c cells IH] using rev_ind; [intros H; by apply elem_of_nil in H|].
  intros Hin. rewrite locate_snoc.
  destruct (locate_step_provider files (locate files cells p) c) as [-> _].
  destruct (decide (uniqueCellId cell = uniqueCellId c)) as [Heq|Hne].
  - rewrite Heq, resolveCell_then_cached, resolveCell_resolution.
    f_equal. by destruct (locate_spec files p cells) as (-> & _).
  - apply resolveCell_keeps_cached, IH.
    apply elem_of_app in Hin as [Hin|Hin]; [exact Hin|].
    apply list_elem_of_singleton in Hin. congruence.
Qed.

Lemma resolveCell_fixState files id p :
  fixState (resolveCell files id p).1.2 = fixState p
  ∧ (resolveCell files id p).2 = DatasetLookup <$> lookups (resolveCell files id p).2.
Proof.
  unfold resolveCell.
  destruct (m_uniqueCellIdToLocation p !! id); [done|].
  case_bool_decide; [done|].
  by destruct (searchForCellIdLocation files id).
Qed.

Lemma locate_fixState files cells p :
  fixState (loop_provider (locate files cells p)) = fixState p
  ∧ loop_effects (locate files cells p)
    = DatasetLookup <$> lookups (loop_effects (locate files cells p)).
Proof.
  induction cells as [|c cells [IHs IHe]] using rev_ind; [done|].
  rewrite locate_snoc.
  destruct (locate_step_provider files (locate files cells p) c) as [-> ->].
  destruct (resolveCell_fixState files (uniqueCellId c)
              (loop_provider (locate files cells p))) as [Hs He].
  split; [by rewrite Hs|].
  rewrite lookups_app, fmap_app, <- IHe, <- He. done.
Qed.

Lemma updateLocationFromCells_caches env cells p id :
  cached id (updateLocationFromCells env cells p).1
  = cached id (loop_provider (locate (files env) cells p)).
Proof.
  unfold updateLocationFromCells. case_bool_decide; [done|].
  rewrite arbitrate_spec.
  match goal with
  | |- context [setLocation ?l ?q] =>
      destruct (setLocation_caches l q) as [Hpos Hneg];
      destruct (setLocation l q) as [q' e]
  end.
  unfold cached. simpl in *. by rewrite Hpos, Hneg.
Qed.

(** X16.  After [updateLocationFromCells], every cell of the list is in one
    of the two caches, with what its resolution gave when the function was
    called: the coordinates in the positive cache, or the identity in the
    negative cache.  It stays so over any sequence of events, whatever the
    data set holds later. *)
Theorem observed_cells_are_cached :
  ∀ (env : Env) (cells : list CellPositioningData) (p : YandexProvider)
    (cell : CellPositioningData) (trace : list (Env * Event)),
    cell ∈ cells →
    cached (uniqueCellId cell) (run trace (updateLocationFromCells env cells p).1)
    = Some (resolution (files env) p (uniqueCellId cell)).
Proof.
  intros env cells p cell trace Hin.
  apply run_keeps_cached.
  rewrite updateLocationFromCells_caches. by apply locate_cached.
Qed.

Lemma observed_cells_are_cached_witness :
  cached (example_id 2)
    (run [(example_env 6000, CallAddReference ":1.42")]
       (updateLocationFromCells (example_env 5000) (three_cells 7) initial).1)
  = Some (resolution [example_file] initial (example_id 2)).
Proof.
  apply (observed_cells_are_cached (example_env 5000) (three_cells 7) initial
           (mkCell (example_id 2) 7) [(example_env 6000, CallAddReference ":1.42")]).
  apply elem_of_cons. right. apply elem_of_cons. by left.
Defined.

(** X17.  When none of the cells of the list resolves (none is in the
    positive cache, and the data set has none of those that are in neither
    cache), [updateLocationFromCells] returns at line 455: the current and
    the previous location, the status and the fix-lost timer are what they
    were, nothing is emitted but the probes of the data set, and every cell
    of the list is in the negative cache afterwards. *)
Theorem no_resolved_cell_no_fix :
  ∀ (env : Env) (cells : list CellPositioningData) (p : YandexProvider),
    (∀ cell, cell ∈ cells → resolution (files env) p (uniqueCellId cell) = None) →
    let r := updateLocationFromCells env cells p in
    fixState r.1 = fixState p
    ∧ r.2 = DatasetLookup <$> lookups r.2
    ∧ ∀ cell, cell ∈ cells →
        uniqueCellId cell ∈ m_knownCellIdsWithUnknownLocations r.1.
Proof.
  intros env cells p Hnone r.
  assert (r = (loop_provider (locate (files env) cells p),
               loop_effects (locate (files env) cells p))) as Hr.
  { subst r. unfold updateLocationFromCells.
    rewrite bool_decide_eq_true_2; [done|].
    apply map_size_empty_iff, map_eq. intros id. rewrite lookup_empty.
    destruct (locate_spec (files env) p cells) as (_ & _ & -> & _).
    case_bool_decide as Hin; [|done].
    apply list_elem_of_fmap in Hin as (cell & -> & Hin). by apply Hnone. }
  destruct (locate_fixState (files env) cells p) as [Hs He].
  split; [by rewrite Hr|]. split; [by rewrite Hr|].
  intros cell Hin.
  pose proof (locate_cached (files env) cells p cell Hin) as Hc.
  rewrite (Hnone cell Hin) in Hc. rewrite Hr. simpl.
  unfold cached, cachedIn in Hc.
  destruct (m_uniqueCellIdToLocation _ !! _); [done|].
  case_bool_decide; done.
Qed.

Lemma no_resolved_cell_no_fix_witness :
  fixState (updateLocationFromCells (example_env 5000) [mkCell (example_id 9) 7]
              initial).1
  = fixState initial.
Proof.
  refine (proj1 (no_resolved_cell_no_fix (example_env 5000) [mkCell (example_id 9) 7]
                   initial _)).
  intros cell Hin. apply list_elem_of_singleton in Hin as ->.
  vm_compute. reflexivity.
Defined.

(** ** Switching positioning off *)

Lemma seq_pure (h1 h : Handler) (p q : YandexProvider) :
  h1 p = (q, []) → (h1 ;; h) p = h q.
Proof. intros H. unfold seq. rewrite H. by destruct (h q). Qed.

Lemma seq_modify (f : YandexProvider → YandexProvider) (h : Handler) p :
  (modify f ;; h) p = h (f p).
Proof. by apply seq_pure. Qed.

(** X18.  When the settings file switches positioning off while it is
    enabled, [updatePositioningEnabled] resets the current and the previous
    location to the invalid location, emits one [PositionChanged] signal with
    no field and timestamp 0, and leaves positioning disabled and stopped.
    If positioning was started, the status becomes Unavailable (with one
    [StatusChanged] signal unless it was Unavailable already) and the
    fix-lost and recalculation timers are stopped; if it was not, status and
    timers are what they were.  The table of watched services and the idle
    timer are not touched. *)
Theorem positioning_switched_off :
  ∀ (env : Env) (p : YandexProvider),
    m_positioningEnabled p = true →
    location_enabled (settings env)
    && (location_mls_enabled (settings env)
        || location_cell_id_positioning_enabled (settings env)) = false →
    let r := updatePositioningEnabled env p in
    m_positioningEnabled r.1 = false
    ∧ m_onlinePositioningEnabled r.1 = false
    ∧ m_positioningStarted r.1 = false
    ∧ m_currentLocation r.1 = Location_default
    ∧ m_lastLocation r.1 = Location_default
    ∧ r.2 = positionChanged Location_default
            :: (if m_positioningStarted p
                   && negb (bool_decide (m_status p = StatusUnavailable))
                then [StatusChanged StatusUnavailable] else [])
    ∧ m_status r.1 = (if m_positioningStarted p then StatusUnavailable else m_status p)
    ∧ m_fixLostTimer r.1 = (if m_positioningStarted p then None else m_fixLostTimer p)
    ∧ m_recalculatePositionTimer r.1
      = (if m_positioningStarted p then None else m_recalculatePositionTimer p)
    ∧ m_watchedServices r.1 = m_watchedServices p
    ∧ m_idleTimer r.1 = m_idleTimer p.
Proof.
  intros env p Hen Hoff r.
  assert (∃ q2, sessionState q2 = sessionState p
                ∧ m_status q2 = m_status p ∧ m_fixLostTimer q2 = m_fixLostTimer p
                ∧ m_currentLocation q2 = Location_default
                ∧ m_lastLocation q2 = Location_default
                ∧ m_positioningEnabled q2 = false
                ∧ m_onlinePositioningEnabled q2 = false
                ∧ r = let '(q3, e3) := stopPositioningIfNeeded q2 in
                      (q3, [positionChanged Location_default] ++ e3))
    as (q2 & Hs & Hstatus & Hfix & Hcur & Hlast & Henabled & Honline & ->).
  { subst r. unfold updatePositioningEnabled, getEnabled.
    assert (location_enabled (settings env)
            && (location_enabled (settings env)
                && (location_mls_enabled (settings env)
                    || location_cell_id_positioning_enabled (settings env))) = false)
      as Hoff' by (destruct (location_enabled (settings env)); [exact Hoff | done]).
    rewrite Hoff', Hoff. cbv zeta.
    rewrite !seq_modify.
    match goal with
    | |- context [(branch ?c ?h1 skip ;; ?h) ?p0] =>
        rewrite (seq_pure (branch c h1 skip) h p0
                   (if c p0 then (h1 p0).1 else p0))
          by (unfold branch, seq, modify, skip; by destruct (c p0))
    end.
    rewrite !seq_modify.
    match goal with
    | |- context [branch ?c skip ?h ?p5] => set (q := p5)
    end.
    assert (sessionState q = sessionState p ∧ fixState q = fixState p
            ∧ m_positioningEnabled q = true
            ∧ m_onlinePositioningEnabled q = false) as (Hs & Hf & Hq & Hon).
    { subst q. unfold seq, modify. simpl.
      repeat match goal with
             | |- context [if ?x then _ else _] => destruct x; simpl
             | |- context [match m_mlsdbOnlineLocator ?x with _ => _ end] =>
                 destruct (m_mlsdbOnlineLocator x); simpl
             end; done. }
    unfold branch at 1. rewrite Hq. simpl.
    rewrite seq_modify.
    set (q1 := set_m_positioningEnabled false q).
    unfold seq.
    destruct (setLocation_spec Location_default q1)
      as (Hcur & Hst & Htimer & Hlast & Heff).
    destruct (setLocation_outside Location_default q1) as (Hs2 & Hc2 & _).
    destruct (setLocation Location_default q1) as [q2 e2]. simpl in *.
    exists q2. unfold fixState, configState in *.
    injection Hf as _ _ Hstatus Hfix.
    injection Hc2 as Henabled _ _ Honline _ _.
    rewrite Hs2, Hst, Htimer, Heff.
    repeat split; try done. congruence. }
  unfold sessionState in Hs.
  injection Hs as Htable Hwatcher Hidle Hstarted Hrecalc.
  unfold stopPositioningIfNeeded, branch. rewrite Hstarted, Henabled.
  destruct (m_positioningStarted p); simpl.
  - unfold_handlers. simpl. rewrite Hstatus.
    case_bool_decide; simpl; repeat split; congruence.
  - rewrite Hstarted. repeat split; congruence.
Qed.

Lemma positioning_switched_off_witness :
  m_positioningStarted (updatePositioningEnabled (example_env_disabled 9000) one_client).1
  = false.
Proof.
  refine (proj1 (proj2 (proj2
    (positioning_switched_off (example_env_disabled 9000) one_client _ _))));
    vm_compute; reflexivity.
Defined.

(** ** The idle timer while there is no client *)

Lemma idleArmed_ext p q : sessionState p = sessionState q → idleArmed p → idleArmed q.
Proof. unfold sessionState, idleArmed. by intros [= <- _ <- _ _]. Qed.

Lemma idleArmed_frame (f : YandexProvider → YandexProvider) :
  (∀ p, sessionState (f p) = sessionState p) → preserves idleArmed (modify f).
Proof. intros Hf. apply preserves_modify. intros p. by apply idleArmed_ext. Qed.

Lemma idleArmed_setLocation l : preserves idleArmed (setLocation l).
Proof.
  intros p. destruct (setLocation_outside l p) as (Hs & _). by apply idleArmed_ext.
Qed.

Lemma idleArmed_stopPositioningIfNeeded : preserves idleArmed stopPositioningIfNeeded.
Proof.
  intros p. destruct (stopPositioningIfNeeded_outside p) as (Hs & _).
  unfold idleArmed, sessionState in *.
  destruct (stops p); by injection Hs as -> _ -> _ _.
Qed.

Lemma idleArmed_startPositioningIfNeeded env :
  preserves idleArmed (startPositioningIfNeeded env).
Proof.
  intros p Hp. destruct (startPositioningIfNeeded_outside env p) as (Hs & _).
  unfold idleArmed, sessionState, starts, noWatchedServices in *.
  destruct (m_positioningStarted p); simpl in Hs;
    [by injection Hs as -> _ -> _ _|].
  case_bool_decide as Hempty; simpl in Hs; [by injection Hs as -> _ -> _ _|].
  destruct (m_positioningEnabled p); simpl in Hs; by injection Hs as -> _ _ _ _.
Qed.

Lemma idleArmed_updatePositioningEnabled env :
  preserves idleArmed (updatePositioningEnabled env).
Proof.
  unfold updatePositioningEnabled.
  destruct (getEnabled (settings env)) as [[[[[a b] c] d] e] f].
  repeat apply preserves_seq; try (apply idleArmed_frame; intros p; done).
  - apply preserves_branch; [|apply preserves_skip].
    apply preserves_seq; apply idleArmed_frame; intros p; [done|].
    by repeat match goal with
              | |- context [if ?x then _ else _] => destruct x
              end.
  - apply idleArmed_frame. intros p. by destruct (m_mlsdbOnlineLocator p).
  - apply preserves_branch; [apply preserves_skip|].
    destruct (a && b).
    + apply preserves_seq; [by apply idleArmed_frame|].
      apply idleArmed_startPositioningIfNeeded.
    + apply preserves_seq; [by apply idleArmed_frame|].
      apply preserves_seq;
        [apply idleArmed_setLocation | apply idleArmed_stopPositioningIfNeeded].
Qed.

Lemma idleArmed_handle env ev :
  ev ≠ TimerEvent IdleTimer → preserves idleArmed (handle env ev).
Proof.
  intros Hev p Hp. destruct ev as [service|service|service o| | |t| |la lo ac| |service| |];
    simpl.
  - intros Hempty. rewrite AddReference_table in Hempty.
    unfold tableAfterAdd in Hempty. by apply insert_non_empty in Hempty.
  - destruct (RemoveReference_table service p) as [Htable Hidle].
    intros Hempty. apply Hidle. by rewrite <- Htable.
  - unfold SetOptions, branch. case_bool_decide; [exact Hp|].
    destruct o as [v|]; [|exact Hp].
    intros Hempty. simpl in Hempty. by apply insert_non_empty in Hempty.
  - exact Hp.
  - exact Hp.
  - unfold timerEvent. destruct t; [done | | |exact Hp].
    + destruct (isActive _); [|exact Hp].
      change ((modify (set_m_fixLostTimer None);; setStatus StatusAcquiring) p)
        with (fixLostBranch p).
      destruct (fixLostBranch_outside p) as (Hs & _). by apply (idleArmed_ext p).
    + destruct (isActive _); [|exact Hp].
      destruct (negb _); [exact Hp|].
      destruct (recalculates _ _); [|by apply idleArmed_setLocation].
      unfold seq, modify.
      destruct (calculatePosition_outside env
        (set_m_signalUpdateWlan false (set_m_signalUpdateCell false p))) as (Hs & _).
      destruct (calculatePositionAndEmitLocation env _) as [q e].
      by apply (idleArmed_ext p).
  - by apply (idleArmed_ext p).
  - by apply idleArmed_setLocation.
  - destruct (updateLocationFromCells_outside env
      (seenCellIds (m_cellDataAllowed p) (cells env)) p) as (Hs & _).
    by apply (idleArmed_ext p).
  - rewrite serviceUnregistered_outside. cbv zeta.
    apply idleArmed_stopPositioningIfNeeded.
    unfold noWatchedServices. case_bool_decide as Hempty; [done|].
    intros Hempty'. by destruct Hempty.
  - by apply idleArmed_updatePositioningEnabled.
  - by apply (idleArmed_ext p).
Qed.

Lemma idleArmed_construct env : idleArmed (construct env initial).1.
Proof.
  unfold construct, seq.
  pose proof (updatePositioningEnabled_table env initial eq_refl) as Htable.
  destruct (updatePositioningEnabled env initial) as [q e]. simpl in Htable.
  unfold branch, noWatchedServices, modify, skip, cellularNetworkRegistrationChanged.
  rewrite (bool_decide_eq_true_2 _ Htable). simpl.
  by destruct (m_positioningEnabled q).
Qed.

(** X19.  From the constructor on, and as long as the idle timer has not
    fired, the idle timer runs with [QuitIdleTime] exactly while the table of
    watched services is empty: a provider without client is always on its
    way to quit. *)
Theorem idle_timer_armed_without_clients :
  ∀ (env : Env) (trace : list (Env * Event)),
    Forall (λ step, step.2 ≠ TimerEvent IdleTimer) trace →
    let p := run trace (construct env initial).1 in
    m_watchedServices p = ∅ ↔ m_idleTimer p = Some QuitIdleTime.
Proof.
  intros env trace Htrace p. split.
  - subst p. revert Htrace.
    generalize (idleArmed_construct env). generalize (construct env initial).1.
    induction trace as [|[env' ev] trace IH]; intros q Hq Htrace; [exact Hq|].
    apply Forall_cons in Htrace as [Hev Htrace].
    simpl. apply IH; [|exact Htrace]. by apply idleArmed_handle.
  - intros Hidle.
    assert (reachable p) as Hr by apply reachable_run, reachable_construct.
    destruct (sessionInvariant_reachable p Hr) as (_ & [Hnone|[_ Hempty]] & _);
      [congruence | exact Hempty].
Qed.

Lemma idle_timer_armed_without_clients_witness :
  m_watchedServices
    (run [(example_env 1000, CallAddReference ":1.42");
          (example_env 2000, CallRemoveReference ":1.42")]
       (construct (example_env 0) initial).1) = ∅
  ↔ m_idleTimer
      (run [(example_env 1000, CallAddReference ":1.42");
            (example_env 2000, CallRemoveReference ":1.42")]
         (construct (example_env 0) initial).1) = Some QuitIdleTime.
Proof.
  apply (idle_timer_armed_without_clients (example_env 0)
           [(example_env 1000, CallAddReference ":1.42");
            (example_env 2000, CallRemoveReference ":1.42")]).
  repeat constructor; discriminate.
Defined.

(** ** The flags of a pending change *)

Lemma setLocation_flags l p : signalFlags (setLocation l p).1 = signalFlags p.
Proof. unfold_handlers. repeat case_bool_decide; done. Qed.

Lemma resolveCell_flags files id p :
  signalFlags (resolveCell files id p).1.2 = signalFlags p.
Proof.
  unfold resolveCell.
  destruct (m_uniqueCellIdToLocation p !! id); [done|].
  case_bool_decide; [done|].
  by destruct (searchForCellIdLocation files id).
Qed.

Lemma locate_flags files cells p :
  signalFlags (loop_provider (locate files cells p)) = signalFlags p.
Proof.
  induction cells as [|c cells IH] using rev_ind; [done|].
  rewrite locate_snoc.
  destruct (locate_step_provider files (locate files cells p) c) as [-> _].
  by rewrite resolveCell_flags.
Qed.

Lemma updateLocationFromCells_flags env cells p :
  signalFlags (updateLocationFromCells env cells p).1 = signalFlags p.
Proof.
  unfold updateLocationFromCells.
  case_bool_decide; [apply locate_flags|].
  rewrite arbitrate_spec.
  match goal with
  | |- context [setLocation ?l ?q] =>
      pose proof (setLocation_flags l q) as Hflags;
      destruct (setLocation l q) as [q' e]
  end.
  simpl in *. rewrite Hflags. apply locate_flags.
Qed.

Lemma calculatePosition_flags env p :
  signalFlags (calculatePositionAndEmitLocation env p).1 = signalFlags p.
Proof.
  unfold calculatePositionAndEmitLocation.
  destruct (m_onlinePositioningEnabled p); [|apply updateLocationFromCells_flags].
  set (p1 := match m_mlsdbOnlineLocator p with
             | Some _ => p
             | None => set_m_mlsdbOnlineLocator (Some (m_wlanDataAllowed p)) p
             end).
  assert (signalFlags p1 = signalFlags p) as H1
    by (subst p1; by destruct (m_mlsdbOnlineLocator p)).
  destruct (findLocation env); [exact H1|].
  pose proof (updateLocationFromCells_flags env
    (seenCellIds (m_cellDataAllowed p) (cells env)) p1) as H.
  destruct (updateLocationFromCells _ _ _) as [p2 e]. simpl in *. by rewrite H.
Qed.

(** X20.  A change of the cells or of the wlan networks reported between
    two events of the recalculation timer makes the next event, with the
    timer running and positioning enabled, compute a new position whatever
    the age of the current fix, and is forgotten by it: after that event
    both flags are down, so that a fix still fresh at the event after is
    used again. *)
Theorem reported_change_forces_one_recalculation :
  ∀ (env env' : Env) (ev : Event) (p : YandexProvider),
    ev = CellsChanged ∨ ev = OnlineWlanChanged →
    m_positioningEnabled p = true →
    isActive (m_recalculatePositionTimer p) = true →
    let p1 := (handle env ev p).1 in
    let r := handle env' (TimerEvent RecalculatePositionTimer) p1 in
    r = calculatePositionAndEmitLocation env'
          (set_m_signalUpdateWlan false (set_m_signalUpdateCell false p))
    ∧ signalFlags r.1 = (false, false)
    ∧ ∀ env'' : Env,
        isActive (m_recalculatePositionTimer r.1) = true →
        m_positioningEnabled r.1 = true →
        timestamp (m_currentLocation r.1) ≠ 0 →
        to_qint64 (clock_event env'' - timestamp (m_currentLocation r.1)) ≤ ReuseInterval →
        handle env'' (TimerEvent RecalculatePositionTimer) r.1
        = setLocation (m_currentLocation r.1) r.1.
Proof.
  intros env env' ev p Hev Hen Hactive p1 r.
  assert (r = calculatePositionAndEmitLocation env'
                (set_m_signalUpdateWlan false (set_m_signalUpdateCell false p))) as Hr.
  { subst r p1. destruct Hev as [-> | ->]; simpl; unfold timerEvent; simpl;
      rewrite Hactive, Hen; simpl; unfold recalculates; simpl;
      rewrite ?orb_true_r; simpl; rewrite !seq_modify; reflexivity. }
  assert (signalFlags r.1 = (false, false)) as Hflags
    by (rewrite Hr, calculatePosition_flags; reflexivity).
  split; [exact Hr|]. split; [exact Hflags|].
  intros env'' Hactive' Hen' Hts Hage. simpl. unfold timerEvent.
  rewrite Hactive', Hen'. simpl.
  unfold signalFlags in Hflags. injection Hflags as Hcell Hwlan.
  unfold recalculates. rewrite Hcell, Hwlan.
  rewrite (bool_decide_eq_false_2 _ Hts), (proj2 (Z.ltb_ge _ _) Hage). done.
Qed.

Lemma reported_change_forces_one_recalculation_witness :
  signalFlags
    (handle (example_env 11000) (TimerEvent RecalculatePositionTimer)
       (handle (example_env 5000) CellsChanged one_client).1).1
  = (false, false).
Proof.
  refine (proj1 (proj2
    (reported_change_forces_one_recalculation (example_env 5000) (example_env 11000)
       CellsChanged one_client _ _ _))).
  - by left.
  - vm_compute. reflexivity.
  - vm_compute. reflexivity.
Defined.

(** ** The constructor *)

(** X21.  The constructor emits no signal and makes no request.  It leaves
    the status Unavailable, the location invalid, positioning stopped, the
    table of watched services empty, the idle timer running with
    [QuitIdleTime] and the other two timers stopped, and no online locator;
    it takes from the settings file whether positioning and online
    positioning are enabled and whether cell data may be used, creates the
    cell watcher in that case, and raises the flag of a change of cells
    exactly when positioning is enabled. *)
Theorem constructor_is_silent :
  ∀ env : Env,
    let r := construct env initial in
    let enabled :=
      location_enabled (settings env)
      && (location_mls_enabled (settings env)
          || location_cell_id_positioning_enabled (settings env)) in
    r.2 = []
    ∧ fixState r.1 = (Location_default, Location_default, StatusUnavailable, None)
    ∧ sessionState r.1 = (∅, [], Some QuitIdleTime, false, None)
    ∧ m_mlsdbOnlineLocator r.1 = None
    ∧ configState r.1
      = (enabled, allowed_cell_data (settings env), allowed_cell_data (settings env),
         enabled && location_mls_online_enabled (settings env),
         allowed_online (settings env), allowed_wlan_data (settings env))
    ∧ signalFlags r.1 = (enabled, false).
Proof.
  intros [ce cs cc cells files query found [a b c d e f g]].
  destruct a, b, c, d, e, f, g; cbv zeta; repeat split; reflexivity.
Qed.

(** ** Clients that vanish, callers that hold nothing *)

(** X22.  When a client vanishes from the bus, in a state the object can
    reach, its entry leaves the table whatever its reference count was, and
    the entries of the other clients are what they were; if the table is
    then empty, the idle timer runs with [QuitIdleTime] and positioning is
    stopped. *)
Theorem vanished_client_is_forgotten :
  ∀ (env : Env) (service : string) (p : YandexProvider),
    reachable p →
    let q := (handle env (ServiceUnregistered service) p).1 in
    m_watchedServices q !! service = None
    ∧ (∀ other, other ≠ service →
         m_watchedServices q !! other = m_watchedServices p !! other)
    ∧ (m_watchedServices q = ∅ →
       m_idleTimer q = Some QuitIdleTime ∧ m_positioningStarted q = false).
Proof.
  intros env service p Hr q.
  assert (reachable q) as Hq by (by constructor).
  assert (m_watchedServices q = delete service (m_watchedServices p)
          ∧ (m_watchedServices q = ∅ → m_idleTimer q = Some QuitIdleTime))
    as [Htable Hidle].
  { subst q. simpl. rewrite serviceUnregistered_outside. cbv zeta.
    match goal with
    | |- context [stopPositioningIfNeeded ?x] =>
        destruct (stopPositioningIfNeeded_outside x) as (Hs & _); set (p2 := x) in *
    end.
    assert (m_watchedServices (stopPositioningIfNeeded p2).1 = m_watchedServices p2
            ∧ m_idleTimer (stopPositioningIfNeeded p2).1 = m_idleTimer p2) as [-> ->]
      by (unfold sessionState in Hs; destruct (stops p2); by injection Hs as -> _ -> _ _).
    subst p2. unfold noWatchedServices. simpl.
    case_bool_decide as Hempty; simpl; [done|]. split; [done|]. by intros ?. }
  split; [by rewrite Htable, lookup_delete_eq|].
  split; [intros other Hne; by rewrite Htable, lookup_delete_ne|].
  intros Hempty. split; [by apply Hidle|].
  destruct (sessionInvariant_reachable q Hq) as [-> _].
  unfold noWatchedServices. rewrite (bool_decide_eq_true_2 _ Hempty).
  apply andb_false_r.
Qed.

Lemma vanished_client_is_forgotten_witness :
  m_watchedServices (handle (example_env 2000) (ServiceUnregistered ":1.42") one_client).1
    !! ":1.42" = None.
Proof.
  exact (proj1 (vanished_client_is_forgotten (example_env 2000) ":1.42" one_client
                  (reachable_run _ _ (reachable_construct (example_env 0))))).
Defined.




(** ** Losing the fix *)










